(** * Recruitment dashboard: the spreadsheet ingestion pipeline

    A shallow embedding of the server-side ingestion code
    (services/sheetsService.ts and services/configService.ts):

    - [Js]        the fragment of JavaScript strings the pipeline relies on
                  (trim, toLowerCase, [||] on strings);
    - [JsNumber]  [Number] on stripped numerals, binary64 rounding, the
                  relation [Number::toString] and the mapper's [parseNum];
    - [Sheets]    the four schema mappers, [inferType], the store and
                  [importSheetsAndSave];
    - [Fetch]     the credentialed / API-key fetch chain behind [fetchSheet];
    - [Csv]       [parseCsvToObjects] of the published-export path;
    - [Scheduler] the per-configuration job [run] with its rate limiter.

    Strings are [string]s whose characters are read as code units in the
    range 0..255 (Latin-1).  Numbers are IEEE binary64 values, represented
    by [spec_float] with [prec = 53] and [emax = 1024]. *)

From Stdlib Require Import ZArith QArith List String Ascii Lia Bool.
From Stdlib Require Import Floats.SpecFloat.
From stdpp Require Import gmap strings list.

Open Scope string_scope.
Open Scope Z_scope.

(** ** JavaScript strings *)

Module Js.

Definition code (c : ascii) : Z := Z.of_N (N_of_ascii c).

(** WhiteSpace and LineTerminator code points below 256, the characters
    removed by [String.prototype.trim]. *)
Definition isWhiteSpace (c : ascii) : bool :=
  let n := code c in
  ((9 <=? n) && (n <=? 13)) || (n =? 32) || (n =? 160).

Definition isUpper (c : ascii) : bool :=
  let n := code c in
  ((65 <=? n) && (n <=? 90)) ||
  ((192 <=? n) && (n <=? 222) && negb (n =? 215)).

Definition toLowerChar (c : ascii) : ascii :=
  if isUpper c then ascii_of_N (Z.to_N (code c + 32)) else c.

Fixpoint toLowerCase (s : string) : string :=
  match s with
  | EmptyString => EmptyString
  | String c r => String (toLowerChar c) (toLowerCase r)
  end.

Definition isEmpty (s : string) : bool :=
  match s with EmptyString => true | _ => false end.

Fixpoint trimStart (s : string) : string :=
  match s with
  | EmptyString => EmptyString
  | String c r => if isWhiteSpace c then trimStart r else s
  end.

Fixpoint trimEnd (s : string) : string :=
  match s with
  | EmptyString => EmptyString
  | String c r =>
      let r' := trimEnd r in
      if isWhiteSpace c && isEmpty r' then EmptyString else String c r'
  end.

Definition trim (s : string) : string := trimEnd (trimStart s).

(** [a || b] where [a] is a string or [undefined] and [b] a string:
    [undefined] and the empty string are falsy. *)
Definition orStr (a : option string) (b : string) : string :=
  match a with
  | Some s => if isEmpty s then b else s
  | None => b
  end.

(** [a || b] where both sides may be [undefined]. *)
Definition orOpt (a b : option string) : option string :=
  match a with
  | Some s => if isEmpty s then b else a
  | None => b
  end.

(** [row[k] = v] on an object created by [{}]: an own property is set or
    overwritten, except that the key [__proto__] reaches the prototype
    setter, which ignores a string and creates nothing. *)
Definition setProp (k v : string) (o : gmap string string) : gmap string string :=
  if String.eqb k "__proto__" then o else <[k := v]> o.

(** [cur += ch] *)
Definition snoc (s : string) (c : ascii) : string := s +:+ String c EmptyString.

Fixpoint allChars (p : ascii -> bool) (s : string) : bool :=
  match s with
  | EmptyString => true
  | String c r => p c && allChars p r
  end.

Fixpoint lastChar (s : string) : option ascii :=
  match s with
  | EmptyString => None
  | String c EmptyString => Some c
  | String _ r => lastChar r
  end.

End Js.

(** ** JavaScript numbers *)

Module JsNumber.
Import Js.

Definition prec : Z := 53.
Definition emax : Z := 1024.

Definition posZero : spec_float := S754_zero false.

(** The Number value for a non-negative rational [q], with the sign [neg]
    of the literal it was read from: round to nearest, ties to even.  The
    rational is put in lowest terms first, so that the result depends on
    the mathematical value only. *)
Definition roundQ (neg : bool) (q : Q) : spec_float :=
  let q' := Qred q in
  match Qnum q' with
  | Zpos p =>
      SFdiv prec emax (S754_finite neg p 0) (S754_finite false (Qden q') 0)
  | _ => S754_zero neg
  end.

Definition ofZ (z : Z) : spec_float := roundQ (z <? 0) (inject_Z (Z.abs z)).

Definition isDigit (c : ascii) : bool :=
  let n := code c in (48 <=? n) && (n <=? 57).

Definition digitVal (c : ascii) : Z := code c - 48.

(** The characters kept by [replace(/[^0-9.-]+/g, '')]. *)
Definition isNumChar (c : ascii) : bool :=
  isDigit c || Ascii.eqb c "." || Ascii.eqb c "-".

Fixpoint stripNonNumeric (s : string) : string :=
  match s with
  | EmptyString => EmptyString
  | String c r =>
      if isNumChar c then String c (stripNonNumeric r) else stripNonNumeric r
  end.

(** Reads a maximal run of decimal digits: the value accumulated on top of
    [acc], the number of digits read on top of [cnt], and what follows. *)
Fixpoint scanDigits (s : string) (acc cnt : Z) : Z * Z * string :=
  match s with
  | EmptyString => (acc, cnt, EmptyString)
  | String c r =>
      if isDigit c then scanDigits r (acc * 10 + digitVal c) (cnt + 1)
      else (acc, cnt, s)
  end.

(** An unsigned decimal literal over digits and dot, read under the sign
    [neg]: digits with at most one dot and at least one digit; anything
    else is NaN. *)
Definition decimalLiteral (neg : bool) (body : string) : spec_float :=
  let '(ip, ni, rest) := scanDigits body 0 0 in
  match rest with
  | EmptyString =>
      if ni =? 0 then S754_nan else roundQ neg (ip # 1)
  | String d r2 =>
      if Ascii.eqb d "." then
        let '(m, nf, rest2) := scanDigits r2 ip 0 in
        match rest2 with
        | EmptyString =>
            if ni + nf =? 0 then S754_nan
            else roundQ neg (m # Z.to_pos (10 ^ nf))
        | _ => S754_nan
        end
      else S754_nan
  end.

(** [Number(s)] for a string [s] over digits, dot and minus (the only
    strings [parseNum] applies it to): the empty string is 0; an optional
    minus sign followed by a decimal literal is its value; everything else
    is NaN. *)
Definition Number (s : string) : spec_float :=
  match s with
  | EmptyString => posZero
  | String c r =>
      if Ascii.eqb c "-" then decimalLiteral true r else decimalLiteral false s
  end.

(** ToBoolean on numbers: NaN, +0 and -0 are falsy. *)
Definition truthy (x : spec_float) : bool :=
  match x with
  | S754_nan | S754_zero _ => false
  | _ => true
  end.

(** [x || 0] *)
Definition orZero (x : spec_float) : spec_float :=
  if truthy x then x else posZero.

(** [const parseNum = (v?: string) =>
      (v ? Number(String(v).replace(/[^0-9.-]+/g, '')) || 0 : 0)] *)
Definition parseNum (v : string) : spec_float :=
  if isEmpty v then posZero else orZero (Number (stripNonNumeric v)).

(** *** Number::toString, radix 10 *)

Definition digitChar (d : Z) : ascii := ascii_of_N (Z.to_N (48 + d)).

(** The [k] least significant decimal digits of [s], most significant
    first. *)
Fixpoint digitsK (k : nat) (s : Z) : string :=
  match k with
  | O => EmptyString
  | S k' => snoc (digitsK k' (s / 10)) (digitChar (s mod 10))
  end.

Fixpoint zeros (n : nat) : string :=
  match n with
  | O => EmptyString
  | S n' => String "0" (zeros n')
  end.

Fixpoint numDigitsFuel (fuel : nat) (n : Z) : nat :=
  match fuel with
  | O => 1%nat
  | S f => if n <? 10 then 1%nat else S (numDigitsFuel f (n / 10))
  end.

(** Decimal representation of a non-negative integer. *)
Definition decimal (n : Z) : string :=
  digitsK (numDigitsFuel (Z.to_nat (Z.log2 n)) n) n.

(** The real number [s * 10 ^ e]. *)
Definition scaled (s e : Z) : Q :=
  if 0 <=? e then inject_Z (s * 10 ^ e) else s # Z.to_pos (10 ^ (- e)).

(** Step 5 of Number::toString for a positive finite [x]: integers [n],
    [k], [s] with [k >= 1], [10^(k-1) <= s < 10^k], the Number value for
    [s * 10^(n-k)] being [x], and [k] as small as possible. *)
Record shortest (x : spec_float) (n k s : Z) : Prop := {
  sh_k : 1 <= k;
  sh_s : 10 ^ (k - 1) <= s < 10 ^ k;
  sh_val : roundQ false (scaled s (n - k)) = x;
  sh_min : forall n' k' s',
      1 <= k' -> 10 ^ (k' - 1) <= s' < 10 ^ k' ->
      roundQ false (scaled s' (n' - k')) = x -> k <= k'
}.

(** Steps 6 to 10: the string built from [n], [k] and [s]. *)
Definition formatDecimal (n k s : Z) : string :=
  let ds := digitsK (Z.to_nat k) s in
  if (-5 <=? n) && (n <=? 21) then
    if k <=? n then ds +:+ zeros (Z.to_nat (n - k))
    else if 0 <? n then
      substring 0 (Z.to_nat n) ds +:+ "." +:+
      substring (Z.to_nat n) (Z.to_nat (k - n)) ds
    else "0." +:+ zeros (Z.to_nat (- n)) +:+ ds
  else
    let e := n - 1 in
    let sign := if e <? 0 then "-" else "+" in
    let es := decimal (Z.abs e) in
    if k =? 1 then ds +:+ "e" +:+ sign +:+ es
    else substring 0 1 ds +:+ "." +:+ substring 1 (Z.to_nat (k - 1)) ds
         +:+ "e" +:+ sign +:+ es.

Inductive toString : spec_float -> string -> Prop :=
| ts_nan : toString S754_nan "NaN"
| ts_zero sg : toString (S754_zero sg) "0"
| ts_inf : toString (S754_infinity false) "Infinity"
| ts_neg_inf : toString (S754_infinity true) "-Infinity"
| ts_pos m e n k s :
    shortest (S754_finite false m e) n k s ->
    toString (S754_finite false m e) (formatDecimal n k s)
| ts_neg m e n k s :
    shortest (S754_finite false m e) n k s ->
    toString (S754_finite true m e) ("-" +:+ formatDecimal n k s).

(** *** Vocabulary for statements about [parseNum] *)

(** The string holds digits, dots and minus signs only: a decimal string
    with no exponent part, and neither [Infinity] nor [NaN]. *)
Definition plainDecimal (str : string) : Prop := allChars isNumChar str = true.

(** [parseNum(parseNum(x).toString())] is [parseNum(x)], for every string
    [toString] may produce. *)
Definition coercionIdempotent (x : string) : Prop :=
  forall str, toString (parseNum x) str -> parseNum str = parseNum x.

(** The value [x] with its sign replaced by [neg]. *)
Definition withSign (neg : bool) (x : spec_float) : spec_float :=
  match x with
  | S754_zero _ => S754_zero neg
  | S754_infinity _ => S754_infinity neg
  | S754_finite _ m e => S754_finite neg m e
  | S754_nan => S754_nan
  end.

End JsNumber.

(** ** Errors *)

(** Exceptions, told apart by the place that raises them. *)
Inductive exn :=
| NotConfigured                       (* thrown by [fetchSheet] *)
| HttpStatus (range : string) (status : Z) (statusText : string)
                                      (* thrown by [fetchSheetViaApiKey] *)
| StoreError                          (* a store operation rejected by the
                                         store or by the model's validation *)
| External (message : string).        (* a rejected library or network call *)

Definition result (A : Type) : Type := exn + A.

(** The outcome of a call that leaves the process: a rejection with its
    message, or a value. *)
Definition external (A : Type) : Type := string + A.

Definition await {A} (r : external A) : result A :=
  match r with
  | inl msg => inl (External msg)
  | inr a => inr a
  end.

(** ** Schema mappers and sheet-type inference *)

Module Recruiter.
Record t := mk {
  name : string; email : string; phone : string; department : string;
  territory : string; hired : spec_float; joinDate : string;
  reportingManager : string; remarks : string;
  backendCallingsRemarks : string; recruiterBackendCallings : string;
  status : string; trend : string; location : string
}.
End Recruiter.

Module Candidate.
Record t := mk {
  name : string; email : string; phone : string; position : string;
  experience : string; skills : list string; status : string;
  salary : spec_float; recruiter : string; reportingManager : string;
  client : string; appliedDate : string; doj : string;
  salaryDetails : string; location : string; remarks : string;
  backendCallingsRemarks : string
}.
End Candidate.

Module Client.
Record t := mk {
  name : string; company : string; email : string; phone : string;
  industry : string; totalHired : spec_float; avgDaysToFill : spec_float;
  status : string; location : string; contactNumber : string;
  lastActivity : string; remarks : string; backendCallingsRemarks : string
}.
End Client.

Module Performance.
Record t := mk {
  month : string; recruiters : spec_float; hired : spec_float;
  target : spec_float
}.
End Performance.

(** ** The schemas of the store

    What a model does with a record handed to it: it validates the record
    against its schema and stores the schema's paths of it.  A stored
    document is represented by those paths; the identifier and the version
    key that the store adds to every document are not represented. *)

Module Schema.
Import Js.

(** [required: true] on a string path: the empty string does not pass. *)
Definition required (v : string) : bool := negb (isEmpty v).

(** [enum: values] *)
Definition enum (values : list string) (v : string) : bool :=
  existsb (String.eqb v) values.

End Schema.

Module RecruiterSchema.
Import Schema.

Record doc := mkDoc {
  name : string; email : string; phone : string; department : string;
  territory : string; hired : spec_float; joinDate : string;
  status : string; trend : string; location : string
}.

Definition validate (r : Recruiter.t) : bool :=
  required (Recruiter.name r) &&
  enum ["active"; "inactive"; "pending"] (Recruiter.status r) &&
  enum ["up"; "down"] (Recruiter.trend r).

Definition cast (r : Recruiter.t) : doc :=
  {| name := Recruiter.name r; email := Recruiter.email r;
     phone := Recruiter.phone r; department := Recruiter.department r;
     territory := Recruiter.territory r; hired := Recruiter.hired r;
     joinDate := Recruiter.joinDate r; status := Recruiter.status r;
     trend := Recruiter.trend r; location := Recruiter.location r |}.

End RecruiterSchema.

Module CandidateSchema.
Import Schema.

Record doc := mkDoc {
  name : string; email : string; phone : string; position : string;
  experience : string; skills : list string; status : string;
  salary : spec_float; recruiter : string; client : string;
  appliedDate : string; location : string
}.

Definition validate (c : Candidate.t) : bool :=
  required (Candidate.name c) &&
  enum ["hired"; "interview"; "pending"; "rejected"] (Candidate.status c).

Definition cast (c : Candidate.t) : doc :=
  {| name := Candidate.name c; email := Candidate.email c;
     phone := Candidate.phone c; position := Candidate.position c;
     experience := Candidate.experience c; skills := Candidate.skills c;
     status := Candidate.status c; salary := Candidate.salary c;
     recruiter := Candidate.recruiter c; client := Candidate.client c;
     appliedDate := Candidate.appliedDate c; location := Candidate.location c |}.

End CandidateSchema.

Module ClientSchema.
Import Schema.

Record doc := mkDoc {
  name : string; company : string; email : string; phone : string;
  industry : string; totalHired : spec_float; avgDaysToFill : spec_float;
  status : string; location : string; lastActivity : string
}.

Definition validate (c : Client.t) : bool :=
  required (Client.name c) &&
  enum ["active"; "pending"; "inactive"] (Client.status c).

Definition cast (c : Client.t) : doc :=
  {| name := Client.name c; company := Client.company c;
     email := Client.email c; phone := Client.phone c;
     industry := Client.industry c; totalHired := Client.totalHired c;
     avgDaysToFill := Client.avgDaysToFill c; status := Client.status c;
     location := Client.location c; lastActivity := Client.lastActivity c |}.

End ClientSchema.

Module PerformanceSchema.
Import Schema.

Record doc := mkDoc {
  month : string; recruiters : spec_float; hired : spec_float;
  target : spec_float
}.

Definition validate (p : Performance.t) : bool := required (Performance.month p).

Definition cast (p : Performance.t) : doc :=
  {| month := Performance.month p; recruiters := Performance.recruiters p;
     hired := Performance.hired p; target := Performance.target p |}.

End PerformanceSchema.

Module Sheets.
Import Js JsNumber.

(** A values response of the spreadsheet API: [{ values?: string[][] }]. *)
Record response := { values : option (list (list string)) }.

Inductive kind := KRecruiters | KCandidates | KClients | KPerformance.

#[global] Instance kind_eq_dec : EqDecision kind.
Proof. solve_decision. Defined.

Notation "a ||. b" := (orStr a b) (at level 51, right associativity).

(** [(response.values[0]).map((h) => String(h ?? '').trim().toLowerCase())] *)
Definition normHeader (h : list string) : list string :=
  map (fun c => toLowerCase (trim c)) h.

(** [header.forEach((h, i) =>
       (byName[h] = row[i] !== undefined ? String(row[i]) : ''))]
    started at column [i] on the object [m]. *)
Fixpoint fillByName (header : list string) (i : nat) (row : list string)
    (m : gmap string string) : gmap string string :=
  match header with
  | [] => m
  | h :: hs => fillByName hs (S i) row (setProp h (default "" (row !! i)) m)
  end.

Definition mkByName (header row : list string) : gmap string string :=
  fillByName header 0 row ∅.

(** The rows a mapper works on: none unless there is a header row and at
    least one data row. *)
Definition dataRows (resp : response) : option (list string * list (list string)) :=
  match values resp with
  | Some (h :: r :: rs) => Some (normHeader h, r :: rs)
  | _ => None
  end.

Definition recruiterOfRow (header row : list string) : Recruiter.t :=
  let byName := mkByName header row in
  {| Recruiter.name := byName !! "name" ||. byName !! "full name" ||.
                       byName !! "recruiter" ||. (row !! 0%nat ||. "");
     Recruiter.email := byName !! "email" ||. byName !! "email id" ||.
                        (row !! 1%nat ||. "");
     Recruiter.phone := byName !! "phone" ||. byName !! "contact number" ||.
                        (row !! 2%nat ||. "");
     Recruiter.department := byName !! "department" ||. (row !! 3%nat ||. "");
     Recruiter.territory := byName !! "territory" ||. byName !! "locations" ||.
                            (row !! 4%nat ||. "");
     Recruiter.hired := parseNum (byName !! "hired" ||. byName !! "total hired" ||.
                                  byName !! "hires" ||. (row !! 5%nat ||. "0"));
     Recruiter.joinDate := byName !! "joindate" ||. byName !! "join date" ||.
                           byName !! "start date" ||. byName !! "doj" ||.
                           (row !! 6%nat ||. "");
     Recruiter.reportingManager := byName !! "reporting manager" ||.
                                   byName !! "reportingmanager" ||. "";
     Recruiter.remarks := byName !! "remarks" ||. "";
     Recruiter.backendCallingsRemarks :=
       byName !! "backend callings remarks" ||.
       byName !! "backendcallingsremarks" ||. "";
     Recruiter.recruiterBackendCallings :=
       byName !! "recruiter backend callings" ||.
       byName !! "recruiterbackendcallings" ||. "";
     Recruiter.status := byName !! "status" ||. (row !! 7%nat ||. "active");
     Recruiter.trend := byName !! "trend" ||. (row !! 8%nat ||. "up");
     Recruiter.location := byName !! "location" ||. (row !! 9%nat ||. "") |}.

Definition parseRecruiters (resp : response) : list Recruiter.t :=
  match dataRows resp with
  | Some (header, rows) => map (recruiterOfRow header) rows
  | None => []
  end.

(** [s.split(/[,;|]/)], with [cur] the piece being read. *)
Fixpoint splitOn (p : ascii -> bool) (s cur : string) : list string :=
  match s with
  | EmptyString => [cur]
  | String c r => if p c then cur :: splitOn p r "" else splitOn p r (snoc cur c)
  end.

Definition isSkillSep (c : ascii) : bool :=
  Ascii.eqb c "," || Ascii.eqb c ";" || Ascii.eqb c "|".

Definition splitSkills (s : string) : list string :=
  List.filter (fun t => negb (isEmpty t)) (map trim (splitOn isSkillSep s "")).

Definition candidateOfRow (header row : list string) : Candidate.t :=
  let byName := mkByName header row in
  {| Candidate.name := byName !! "name" ||. (row !! 0%nat ||. "");
     Candidate.email := byName !! "email" ||. byName !! "email id" ||.
                        (row !! 1%nat ||. "");
     Candidate.phone := byName !! "phone" ||. byName !! "contact number" ||.
                        (row !! 2%nat ||. "");
     Candidate.position := byName !! "position" ||. byName !! "role" ||.
                           (row !! 3%nat ||. "");
     Candidate.experience := byName !! "experience" ||. (row !! 4%nat ||. "");
     Candidate.skills := splitSkills (byName !! "skills" ||. (row !! 5%nat ||. ""));
     Candidate.status := byName !! "status" ||. (row !! 6%nat ||. "pending");
     Candidate.salary := parseNum (byName !! "salary" ||. byName !! "salary details" ||.
                                   (row !! 7%nat ||. "0"));
     Candidate.recruiter := byName !! "recruiter" ||. (row !! 8%nat ||. "");
     Candidate.reportingManager := byName !! "reporting manager" ||. "";
     Candidate.client := byName !! "client" ||. (row !! 9%nat ||. "");
     Candidate.appliedDate := byName !! "applieddate" ||. byName !! "applied date" ||.
                              byName !! "doj" ||. (row !! 10%nat ||. "");
     Candidate.doj := byName !! "doj" ||. "";
     Candidate.salaryDetails := byName !! "salary details" ||. "";
     Candidate.location := byName !! "location" ||. (row !! 11%nat ||. "");
     Candidate.remarks := byName !! "remarks" ||. "";
     Candidate.backendCallingsRemarks := byName !! "backend callings remarks" ||. "" |}.

Definition parseCandidates (resp : response) : list Candidate.t :=
  match dataRows resp with
  | Some (header, rows) => map (candidateOfRow header) rows
  | None => []
  end.

Definition clientOfRow (header row : list string) : Client.t :=
  let byName := mkByName header row in
  {| Client.name := byName !! "name" ||. (row !! 0%nat ||. "");
     Client.company := byName !! "company" ||. (row !! 1%nat ||. "");
     Client.email := byName !! "email" ||. byName !! "email id" ||.
                     (row !! 2%nat ||. "");
     Client.phone := byName !! "phone" ||. byName !! "contact number" ||.
                     (row !! 3%nat ||. "");
     Client.industry := byName !! "industry" ||. (row !! 4%nat ||. "");
     Client.totalHired := parseNum (byName !! "total hired" ||. byName !! "totalhired" ||.
                                    byName !! "hires" ||. (row !! 5%nat ||. "0"));
     Client.avgDaysToFill := parseNum (byName !! "avg daystofill" ||. byName !! "avgdays" ||.
                                       (row !! 6%nat ||. "0"));
     Client.status := byName !! "status" ||. (row !! 7%nat ||. "active");
     Client.location := byName !! "location" ||. byName !! "locations" ||.
                        (row !! 8%nat ||. "");
     Client.contactNumber := byName !! "contact number" ||. "";
     Client.lastActivity := byName !! "lastactivity" ||. byName !! "last activity" ||.
                            (row !! 9%nat ||. "");
     Client.remarks := byName !! "remarks" ||. "";
     Client.backendCallingsRemarks := byName !! "backend callings remarks" ||. "" |}.

Definition parseClients (resp : response) : list Client.t :=
  match dataRows resp with
  | Some (header, rows) => map (clientOfRow header) rows
  | None => []
  end.

Definition performanceOfRow (header row : list string) : Performance.t :=
  let byName := mkByName header row in
  {| Performance.month := byName !! "month" ||. byName !! "date" ||. (row !! 0%nat ||. "");
     Performance.recruiters := parseNum (byName !! "recruiters" ||. (row !! 1%nat ||. "0"));
     Performance.hired := parseNum (byName !! "hired" ||. (row !! 2%nat ||. "0"));
     Performance.target := parseNum (byName !! "target" ||. (row !! 3%nat ||. "0")) |}.

Definition parsePerformance (resp : response) : list Performance.t :=
  match dataRows resp with
  | Some (header, rows) => map (performanceOfRow header) rows
  | None => []
  end.

(** *** inferType *)

Definition candidateKeys : list string :=
  ["position"; "role"; "applieddate"; "applied date"; "salary"; "doj"; "client"].
Definition clientKeys : list string :=
  ["company"; "industry"; "total hired"; "avgdaystofill"; "last activity"].
Definition recruiterKeys : list string :=
  ["hired"; "territory"; "trend"; "join date"; "joindate"; "department"].
Definition performanceKeys : list string := ["month"; "target"; "hired"].

(** [keys.some((k) => header.includes(k))] *)
Definition has (header keys : list string) : bool :=
  existsb (fun k => bool_decide (k ∈ header)) keys.

(** The decision on a normalised header row. *)
Definition inferHeader (header : list string) : option kind :=
  if has header candidateKeys then Some KCandidates
  else if has header clientKeys then Some KClients
  else if has header recruiterKeys then Some KRecruiters
  else if has header performanceKeys then Some KPerformance
  else None.

Definition inferType (resp : option response) : option kind :=
  match resp with
  | Some {| values := Some (h :: _) |} => inferHeader (normHeader h)
  | _ => None
  end.

(** Some header cell is one of [keys]. *)
Definition hasAny (header keys : list string) : Prop :=
  exists k, k ∈ keys /\ k ∈ header.

(** No keyword of [a] is a keyword of [b]. *)
Definition disjointKeys (a b : list string) : Prop :=
  Forall (fun k => k ∉ b) a.

Definition keywordSetsDisjoint : Prop :=
  disjointKeys candidateKeys clientKeys /\
  disjointKeys candidateKeys recruiterKeys /\
  disjointKeys candidateKeys performanceKeys /\
  disjointKeys clientKeys recruiterKeys /\
  disjointKeys clientKeys performanceKeys /\
  disjointKeys recruiterKeys performanceKeys.

End Sheets.

(** ** Source fetchers *)

Module Fetch.
Import Js Sheets.

Record HttpResponse := {
  ok : bool;
  status : Z;
  statusText : string;
  json : external response      (* [res.json()] *)
}.

Inductive dbop := DeleteMany (k : kind) | InsertMany (k : kind).

(** Everything outside the process: environment variables, the credential
    exchange, the spreadsheet service and the availability of the store. *)
Record World := {
  GOOGLE_SERVICE_ACCOUNT_EMAIL : option string;
  GOOGLE_SERVICE_ACCOUNT_PRIVATE_KEY : option string;
  GOOGLE_SHEETS_API_KEY : option string;
  (** does [new google.auth.JWT(email, key)] followed by [authorize()] succeed *)
  authorize : string -> string -> bool;
  (** [sheets.spreadsheets.values.get({ spreadsheetId, range })], giving
      [res.data.values] *)
  valuesGet : string -> string -> external (option (list (list string)));
  (** [fetch] of the values URL for a spreadsheet, range and key *)
  httpGet : string -> string -> string -> external HttpResponse;
  (** does the store carry out this operation *)
  storeUp : dbop -> bool
}.

Definition truthyStr (s : option string) : bool :=
  match s with
  | Some v => negb (isEmpty v)
  | None => false
  end.

(** [privateKey.replace(/\\n/g, '\n')]: every backslash followed by [n]
    becomes a line feed. *)
Fixpoint unescapeNewlines (s : string) : string :=
  match s with
  | EmptyString => EmptyString
  | String c r =>
      match r with
      | String d r' =>
          if Ascii.eqb c "\" && Ascii.eqb d "n"
          then String (ascii_of_N 10) (unescapeNewlines r')
          else String c (unescapeNewlines r)
      | EmptyString => s
      end
  end.

(** The authorised client, identified by its credentials; [None] is the
    source's [null]. *)
Definition getServiceAccountClient (w : World) : option (string * string) :=
  match GOOGLE_SERVICE_ACCOUNT_EMAIL w, GOOGLE_SERVICE_ACCOUNT_PRIVATE_KEY w with
  | Some clientEmail, Some privateKey =>
      if isEmpty clientEmail || isEmpty privateKey then None
      else
        let privateKey := unescapeNewlines privateKey in
        if authorize w clientEmail privateKey
        then Some (clientEmail, privateKey)
        else None
  | _, _ => None
  end.

Definition fetchSheetViaServiceAccount (w : World) (spreadsheetId range : string)
    : result (option response) :=
  match getServiceAccountClient w with
  | None => inr None
  | Some _ =>
      match await (valuesGet w spreadsheetId range) with
      | inl e => inl e
      | inr vs => inr (Some {| values := Some (default [] vs) |})
      end
  end.

Definition fetchSheetViaApiKey (w : World) (spreadsheetId range apiKey : string)
    : result response :=
  match await (httpGet w spreadsheetId range apiKey) with
  | inl e => inl e
  | inr res =>
      if ok res then await (json res)
      else inl (HttpStatus range (status res) (statusText res))
  end.

Definition fetchSheet (w : World) (spreadsheetId range : string)
    (apiKey : option string) : result response :=
  (* [.catch(() => null)] *)
  let sa := match fetchSheetViaServiceAccount w spreadsheetId range with
            | inl _ => None
            | inr r => r
            end in
  match sa with
  | Some {| values := Some vs |} => inr {| values := Some vs |}
  | _ =>
      let key := orOpt apiKey (GOOGLE_SHEETS_API_KEY w) in
      if truthyStr key
      then fetchSheetViaApiKey w spreadsheetId range (default "" key)
      else inl NotConfigured
  end.

(** The credentialed strategy produced no response: it was unavailable
    or it raised. *)
Definition credentialedNoData (w : World) (spreadsheetId range : string) : Prop :=
  match fetchSheetViaServiceAccount w spreadsheetId range with
  | inr (Some _) => False
  | _ => True
  end.

Definition credentialsAbsent (w : World) : Prop :=
  truthyStr (GOOGLE_SERVICE_ACCOUNT_EMAIL w) = false \/
  truthyStr (GOOGLE_SERVICE_ACCOUNT_PRIVATE_KEY w) = false.

Definition exchangeFails (w : World) : Prop :=
  exists email key,
    GOOGLE_SERVICE_ACCOUNT_EMAIL w = Some email /\
    GOOGLE_SERVICE_ACCOUNT_PRIVATE_KEY w = Some key /\
    authorize w email (unescapeNewlines key) = false.

(** Neither the call nor the environment supplies an API key. *)
Definition noApiKey (w : World) (apiKey : option string) : Prop :=
  truthyStr apiKey = false /\ truthyStr (GOOGLE_SHEETS_API_KEY w) = false.

End Fetch.

(** ** Import orchestrator *)

Module Orchestrator.
Import Js Sheets Fetch.

Record Ranges := {
  r_recruiters : string; r_candidates : string;
  r_clients : string; r_performance : string
}.

Record GoogleSheetsConfig := {
  spreadsheetId : string;
  apiKey : option string;
  ranges : Ranges
}.

(** The four collections of the document store. *)
Record Store := {
  RecruiterColl : list RecruiterSchema.doc;
  CandidateColl : list CandidateSchema.doc;
  ClientColl : list ClientSchema.doc;
  PerformanceColl : list PerformanceSchema.doc
}.

(** The value returned to the caller. *)
Record Parsed := {
  recruiters : list Recruiter.t;
  candidates : list Candidate.t;
  clients : list Client.t;
  performance : list Performance.t
}.

Definition noRecords : Parsed :=
  {| recruiters := []; candidates := []; clients := []; performance := [] |}.

Definition setRecruiters (v : list Recruiter.t) (p : Parsed) : Parsed :=
  {| recruiters := v; candidates := candidates p;
     clients := clients p; performance := performance p |}.
Definition setCandidates (v : list Candidate.t) (p : Parsed) : Parsed :=
  {| recruiters := recruiters p; candidates := v;
     clients := clients p; performance := performance p |}.
Definition setClients (v : list Client.t) (p : Parsed) : Parsed :=
  {| recruiters := recruiters p; candidates := candidates p;
     clients := v; performance := performance p |}.
Definition setPerformance (v : list Performance.t) (p : Parsed) : Parsed :=
  {| recruiters := recruiters p; candidates := candidates p;
     clients := clients p; performance := v |}.

(** Store operations run in a state-and-exception monad. *)
Definition db (A : Type) : Type := Store -> Store * result A.

Definition ret {A} (a : A) : db A := fun st => (st, inr a).
Definition throw {A} (e : exn) : db A := fun st => (st, inl e).
Definition bind {A B} (c : db A) (k : A -> db B) : db B :=
  fun st =>
    match c st with
    | (st', inr a) => k a st'
    | (st', inl e) => (st', inl e)
    end.
Definition tryCatch {A} (c : db A) (handler : exn -> db A) : db A :=
  fun st =>
    match c st with
    | (st', inl e) => handler e st'
    | r => r
    end.

Notation "c1 >> c2" := (bind c1 (fun _ => c2))
  (at level 100, right associativity).

Definition guard (w : World) (op : dbop) (f : Store -> Store) : db unit :=
  fun st => if storeUp w op then (f st, inr tt) else (st, inl StoreError).

(** [Model.deleteMany({})] *)
Definition deleteMany (w : World) (k : kind) : db unit :=
  guard w (DeleteMany k) (fun st =>
    match k with
    | KRecruiters =>
        {| RecruiterColl := []; CandidateColl := CandidateColl st;
           ClientColl := ClientColl st; PerformanceColl := PerformanceColl st |}
    | KCandidates =>
        {| RecruiterColl := RecruiterColl st; CandidateColl := [];
           ClientColl := ClientColl st; PerformanceColl := PerformanceColl st |}
    | KClients =>
        {| RecruiterColl := RecruiterColl st; CandidateColl := CandidateColl st;
           ClientColl := []; PerformanceColl := PerformanceColl st |}
    | KPerformance =>
        {| RecruiterColl := RecruiterColl st; CandidateColl := CandidateColl st;
           ClientColl := ClientColl st; PerformanceColl := [] |}
    end).

(** [Model.insertMany(docs)] validates every record before anything is
    sent to the store: if one of them does not pass its schema the call
    rejects and nothing is written. *)
Definition validated (ok : bool) (c : db unit) : db unit :=
  fun st => if ok then c st else (st, inl StoreError).

(** [Model.insertMany(docs)], one definition per collection: the records
    that passed are written as their schema casts them, if the store
    carries the operation out. *)
Definition insertRecruiters (w : World) (docs : list Recruiter.t) : db unit :=
  validated (forallb RecruiterSchema.validate docs)
    (guard w (InsertMany KRecruiters) (fun st =>
      {| RecruiterColl := RecruiterColl st ++ map RecruiterSchema.cast docs;
         CandidateColl := CandidateColl st;
         ClientColl := ClientColl st; PerformanceColl := PerformanceColl st |})).
Definition insertCandidates (w : World) (docs : list Candidate.t) : db unit :=
  validated (forallb CandidateSchema.validate docs)
    (guard w (InsertMany KCandidates) (fun st =>
      {| RecruiterColl := RecruiterColl st;
         CandidateColl := CandidateColl st ++ map CandidateSchema.cast docs;
         ClientColl := ClientColl st; PerformanceColl := PerformanceColl st |})).
Definition insertClients (w : World) (docs : list Client.t) : db unit :=
  validated (forallb ClientSchema.validate docs)
    (guard w (InsertMany KClients) (fun st =>
      {| RecruiterColl := RecruiterColl st; CandidateColl := CandidateColl st;
         ClientColl := ClientColl st ++ map ClientSchema.cast docs;
         PerformanceColl := PerformanceColl st |})).
Definition insertPerformance (w : World) (docs : list Performance.t) : db unit :=
  validated (forallb PerformanceSchema.validate docs)
    (guard w (InsertMany KPerformance) (fun st =>
      {| RecruiterColl := RecruiterColl st; CandidateColl := CandidateColl st;
         ClientColl := ClientColl st;
         PerformanceColl := PerformanceColl st ++ map PerformanceSchema.cast docs |})).

(** [if (docs.length) await ...] *)
Definition whenNonEmpty {A} (docs : list A) (c : db unit) : db unit :=
  match docs with
  | [] => ret tt
  | _ => c
  end.

(** [r.status === 'fulfilled' ? r.value : null] on a settled fetch. *)
Definition settled (r : result response) : option response :=
  match r with
  | inr v => Some v
  | inl _ => None
  end.

(** The four routing blocks, in source order.  Each assigns the tab's rows
    to one of the four variables. *)
Definition routeRecruitersTab (rRes : option response) (p : Parsed) : Parsed :=
  match rRes with
  | None => p
  | Some resp =>
      match inferType rRes with
      | Some KCandidates => setCandidates (parseCandidates resp) p
      | Some KClients => setClients (parseClients resp) p
      | Some KPerformance => setPerformance (parsePerformance resp) p
      | _ => setRecruiters (parseRecruiters resp) p
      end
  end.

Definition routeCandidatesTab (cRes : option response) (p : Parsed) : Parsed :=
  match cRes with
  | None => p
  | Some resp =>
      match inferType cRes with
      | Some KRecruiters => setRecruiters (parseRecruiters resp) p
      | Some KClients => setClients (parseClients resp) p
      | Some KPerformance => setPerformance (parsePerformance resp) p
      | _ => setCandidates (parseCandidates resp) p
      end
  end.

Definition routeClientsTab (clientsRes : option response) (p : Parsed) : Parsed :=
  match clientsRes with
  | None => p
  | Some resp =>
      match inferType clientsRes with
      | Some KRecruiters => setRecruiters (parseRecruiters resp) p
      | Some KCandidates => setCandidates (parseCandidates resp) p
      | Some KPerformance => setPerformance (parsePerformance resp) p
      | _ => setClients (parseClients resp) p
      end
  end.

Definition routePerformanceTab (perfRes : option response) (p : Parsed) : Parsed :=
  match perfRes with
  | None => p
  | Some resp =>
      match inferType perfRes with
      | Some KRecruiters => setRecruiters (parseRecruiters resp) p
      | Some KClients => setClients (parseClients resp) p
      | Some KCandidates => setCandidates (parseCandidates resp) p
      | _ => setPerformance (parsePerformance resp) p
      end
  end.

(** Inference and mapping of the four settled tabs.  On responses of the
    declared shape none of the mappers throws, so the source's
    best-effort [catch] branch is not entered. *)
Definition parseTabs (rRes cRes clientsRes perfRes : option response) : Parsed :=
  routePerformanceTab perfRes
    (routeClientsTab clientsRes
      (routeCandidatesTab cRes
        (routeRecruitersTab rRes noRecords))).

(** The body of the persistence [try] block. *)
Definition replaceAll (w : World) (p : Parsed) : db unit :=
  deleteMany w KRecruiters >>
  deleteMany w KCandidates >>
  deleteMany w KClients >>
  deleteMany w KPerformance >>
  whenNonEmpty (recruiters p) (insertRecruiters w (recruiters p)) >>
  whenNonEmpty (candidates p) (insertCandidates w (candidates p)) >>
  whenNonEmpty (clients p) (insertClients w (clients p)) >>
  whenNonEmpty (performance p) (insertPerformance w (performance p)).

(** The four fetches of one import, settled. *)
Definition fetchTabs (w : World) (config : GoogleSheetsConfig)
    : option response * option response * option response * option response :=
  let get range := settled (fetchSheet w (spreadsheetId config) range (apiKey config)) in
  (get (r_recruiters (ranges config)), get (r_candidates (ranges config)),
   get (r_clients (ranges config)), get (r_performance (ranges config))).

Definition importSheetsAndSave (w : World) (config : GoogleSheetsConfig) : db Parsed :=
  let '(rRes, cRes, clientsRes, perfRes) := fetchTabs w config in
  let p := parseTabs rRes cRes clientsRes perfRes in
  (* Best-effort DB persistence; return data even if DB is unavailable *)
  tryCatch (replaceAll w p) (fun _ => ret tt) >>
  ret p.

(** *** Vocabulary for statements about one import *)

Definition parsedCount (k : kind) (p : Parsed) : nat :=
  match k with
  | KRecruiters => length (recruiters p)
  | KCandidates => length (candidates p)
  | KClients => length (clients p)
  | KPerformance => length (performance p)
  end.

(** The collection of kind [k] holds exactly the parsed records, as the
    schema stores them. *)
Definition holdsExactly (k : kind) (st : Store) (p : Parsed) : Prop :=
  match k with
  | KRecruiters => RecruiterColl st = map RecruiterSchema.cast (recruiters p)
  | KCandidates => CandidateColl st = map CandidateSchema.cast (candidates p)
  | KClients => ClientColl st = map ClientSchema.cast (clients p)
  | KPerformance => PerformanceColl st = map PerformanceSchema.cast (performance p)
  end.

(** Every parsed record of kind [k] passes its schema. *)
Definition validKind (k : kind) (p : Parsed) : bool :=
  match k with
  | KRecruiters => forallb RecruiterSchema.validate (recruiters p)
  | KCandidates => forallb CandidateSchema.validate (candidates p)
  | KClients => forallb ClientSchema.validate (clients p)
  | KPerformance => forallb PerformanceSchema.validate (performance p)
  end.

Definition allValid (p : Parsed) : Prop := forall k, validKind k p = true.

Definition collEmpty (k : kind) (st : Store) : Prop :=
  match k with
  | KRecruiters => RecruiterColl st = []
  | KCandidates => CandidateColl st = []
  | KClients => ClientColl st = []
  | KPerformance => PerformanceColl st = []
  end.

Definition collUnchanged (k : kind) (st st' : Store) : Prop :=
  match k with
  | KRecruiters => RecruiterColl st' = RecruiterColl st
  | KCandidates => CandidateColl st' = CandidateColl st
  | KClients => ClientColl st' = ClientColl st
  | KPerformance => PerformanceColl st' = PerformanceColl st
  end.

(** The record set of kind [k] is the mapping of the tab [resp]. *)
Definition slotIs (k : kind) (p : Parsed) (resp : response) : Prop :=
  match k with
  | KRecruiters => recruiters p = parseRecruiters resp
  | KCandidates => candidates p = parseCandidates resp
  | KClients => clients p = parseClients resp
  | KPerformance => performance p = parsePerformance resp
  end.

Definition storeUpAll (w : World) : Prop := forall op, storeUp w op = true.

(** The store whose collections are exactly the parsed sets, as the
    schemas store them. *)
Definition storeOf (p : Parsed) : Store :=
  {| RecruiterColl := map RecruiterSchema.cast (recruiters p);
     CandidateColl := map CandidateSchema.cast (candidates p);
     ClientColl := map ClientSchema.cast (clients p);
     PerformanceColl := map PerformanceSchema.cast (performance p) |}.

(** The parsed record sets of one import. *)
Definition parsedOf (w : World) (config : GoogleSheetsConfig) : Parsed :=
  let '(rRes, cRes, clientsRes, perfRes) := fetchTabs w config in
  parseTabs rRes cRes clientsRes perfRes.

(** Exactly the kind [k] came out empty. *)
Definition onlyEmpty (k : kind) (p : Parsed) : Prop :=
  parsedCount k p = 0%nat /\
  forall k', k' <> k -> (0 < parsedCount k' p)%nat.

(** Empty-tab protection as the testable property words it: the store of
    the empty kind is left as it was and the other three are replaced. *)
Definition emptyTabProtected (w : World) (config : GoogleSheetsConfig)
    (st : Store) : Prop :=
  forall k, onlyEmpty k (parsedOf w config) ->
    let st' := fst (importSheetsAndSave w config st) in
    collUnchanged k st st' /\
    forall k', k' <> k -> holdsExactly k' st' (parsedOf w config).

(** The kind a present tab is routed to: the inferred kind, and the kind
    the tab was requested for when inference says nothing. *)
Definition routedKind (nominal : kind) (resp : response) : kind :=
  default nominal (inferType (Some resp)).

Definition assign (k : kind) (resp : response) (p : Parsed) : Parsed :=
  match k with
  | KRecruiters => setRecruiters (parseRecruiters resp) p
  | KCandidates => setCandidates (parseCandidates resp) p
  | KClients => setClients (parseClients resp) p
  | KPerformance => setPerformance (parsePerformance resp) p
  end.

(** The tabs in processing order, each with the kind it was requested for. *)
Definition tabsInOrder (rRes cRes clientsRes perfRes : option response)
    : list (kind * option response) :=
  [(KRecruiters, rRes); (KCandidates, cRes);
   (KClients, clientsRes); (KPerformance, perfRes)].

Definition routeStep (p : Parsed) (t : kind * option response) : Parsed :=
  match t.2 with
  | None => p
  | Some resp => assign (routedKind t.1 resp) resp p
  end.

End Orchestrator.

(** ** The published-export CSV parser *)

Module Csv.
Import Js.

Definition dquote : ascii := ascii_of_N 34.
Definition CR : ascii := ascii_of_N 13.
Definition LF : ascii := ascii_of_N 10.
Definition comma : ascii := ",".

(** The first loop of [parseCsvToObjects]: [lines] and [cur] after reading
    [csv] from the state [(cur, inQuotes, lines)]. *)
Fixpoint scanLines (csv cur : string) (inQuotes : bool) (lines : list string)
    : list string * string :=
  match csv with
  | EmptyString => (lines, cur)
  | String ch rest =>
      if Ascii.eqb ch dquote then
        match rest with
        | String ch' rest' =>
            if Ascii.eqb ch' dquote
            then scanLines rest' (snoc cur dquote) inQuotes lines
            else scanLines rest (snoc cur ch) (negb inQuotes) lines
        | EmptyString => scanLines rest (snoc cur ch) (negb inQuotes) lines
        end
      else if Ascii.eqb ch CR then scanLines rest cur inQuotes lines
      else if Ascii.eqb ch LF && negb inQuotes
           then scanLines rest EmptyString inQuotes (lines ++ [cur])
      else scanLines rest (snoc cur ch) inQuotes lines
  end.

(** [if (cur) lines.push(cur)] after the loop. *)
Definition splitLines (csv : string) : list string :=
  let '(lines, cur) := scanLines csv EmptyString false [] in
  if isEmpty cur then lines else lines ++ [cur].

(** The loop of [splitCsv], from the state [(field, inside, cols)], with
    the final [cols.push(field)]. *)
Fixpoint scanCols (line field : string) (inside : bool) (cols : list string)
    : list string :=
  match line with
  | EmptyString => cols ++ [field]
  | String c rest =>
      if Ascii.eqb c dquote then
        match rest with
        | String c' rest' =>
            if inside && Ascii.eqb c' dquote
            then scanCols rest' (snoc field dquote) inside cols
            else scanCols rest field (negb inside) cols
        | EmptyString => scanCols rest field (negb inside) cols
        end
      else if Ascii.eqb c comma && negb inside
           then scanCols rest EmptyString inside (cols ++ [field])
      else scanCols rest (snoc field c) inside cols
  end.

Fixpoint dropLast (s : string) : string :=
  match s with
  | EmptyString => EmptyString
  | String c EmptyString => EmptyString
  | String c r => String c (dropLast r)
  end.

(** [s.replace(/^"|"$/g, '')]: a leading quote is removed, and so is a
    trailing quote that is not that same character. *)
Definition stripQuotes (s : string) : string :=
  let s1 := match s with
            | String c r => if Ascii.eqb c dquote then r else s
            | EmptyString => s
            end in
  match lastChar s1 with
  | Some c => if Ascii.eqb c dquote then dropLast s1 else s1
  | None => s1
  end.

Definition splitCsv (line : string) : list string :=
  map (fun s => trim (stripQuotes s)) (scanCols line EmptyString false []).

(** [for (let j = 0; j < header.length; j++)
      row[header[j]] = cols[j] !== undefined ? cols[j] : ''] from column [j]. *)
Fixpoint fillRow (header : list string) (j : nat) (cols : list string)
    (row : gmap string string) : gmap string string :=
  match header with
  | [] => row
  | h :: hs => fillRow hs (S j) cols (setProp h (default "" (cols !! j)) row)
  end.

(** The loop over [lines[1..]]. *)
Fixpoint rowsOf (header : list string) (lines : list string)
    : list (gmap string string) :=
  match lines with
  | [] => []
  | l :: ls =>
      if isEmpty (trim l) then rowsOf header ls
      else fillRow header 0 (splitCsv l) ∅ :: rowsOf header ls
  end.

Definition parseCsvToObjects (csv : string) : list (gmap string string) :=
  match splitLines csv with
  | [] => []
  | l0 :: ls => rowsOf (map trim (splitCsv l0)) ls
  end.

(** *** RFC 4180 serialization

    The writer the round-trip property is worded with: a field holding a
    comma, a double quote or a line break is enclosed in double quotes with
    every double quote inside it doubled; fields are joined by commas and
    records by CRLF. *)

Definition needsQuotes (f : string) : bool :=
  negb (allChars (fun c => negb (Ascii.eqb c comma || Ascii.eqb c dquote ||
                            Ascii.eqb c CR || Ascii.eqb c LF)) f).

Fixpoint doubleQuotes (f : string) : string :=
  match f with
  | EmptyString => EmptyString
  | String c r =>
      if Ascii.eqb c dquote then String dquote (String dquote (doubleQuotes r))
      else String c (doubleQuotes r)
  end.

Definition quoteField (f : string) : string :=
  if needsQuotes f
  then String dquote (doubleQuotes f) +:+ String dquote EmptyString
  else f.

Fixpoint serializeRecord (r : list string) : string :=
  match r with
  | [] => EmptyString
  | [f] => quoteField f
  | f :: fs => quoteField f +:+ String comma (serializeRecord fs)
  end.

Definition serializeAsCsv (H R : list string) : string :=
  serializeRecord H +:+ String CR (String LF (serializeRecord R)).

(** *** Vocabulary for statements about the round trip *)

(** A field the parser gives back unchanged: no double quote, no carriage
    return, and no white space at either end. *)
Definition noQuoteCR (f : string) : bool :=
  allChars (fun c => negb (Ascii.eqb c dquote) && negb (Ascii.eqb c CR)) f.

Definition plainField (f : string) : Prop :=
  noQuoteCR f = true /\ trim f = f.

Definition startsWithQuote (s : string) : bool :=
  match s with
  | String c _ => Ascii.eqb c dquote
  | EmptyString => false
  end.

(** Characters the first loop appends to [cur] in the state [inQuotes]. *)
Definition keptByLines (inQuotes : bool) (c : ascii) : bool :=
  negb (Ascii.eqb c dquote) && negb (Ascii.eqb c CR) &&
  (negb (Ascii.eqb c LF) || inQuotes).

(** Characters the second loop appends to [field] in the state [inside]. *)
Definition keptByCols (inside : bool) (c : ascii) : bool :=
  negb (Ascii.eqb c dquote) && (negb (Ascii.eqb c comma) || inside).

(** Parsing the serialization of [H] and [R] gives one row, and the row
    holds the value of [R] under each header of [H]. *)
Definition roundTrips (H R : list string) : Prop :=
  exists row,
    parseCsvToObjects (serializeAsCsv H R) = [row] /\
    forall j h v, H !! j = Some h -> R !! j = Some v -> row !! h = Some v.

End Csv.

(** ** Timers of the runtime *)

Module Timers.
Import JsNumber.

(** [Math.max(a, b)]: NaN if either is NaN, and [+0] is larger than
    [-0]. *)
Definition mathMax (a b : spec_float) : spec_float :=
  match SFcompare a b with
  | Some Lt => b
  | Some Gt => a
  | Some Eq => match a with S754_zero true => b | _ => a end
  | None => S754_nan
  end.

Definition mul (a b : spec_float) : spec_float := SFmul prec emax a b.

Definition TIMEOUT_MAX : Z := 2 ^ 31 - 1.

(** What [setInterval(callback, after)] does with its delay:
    [if (!(after >= 1 && after <= TIMEOUT_MAX)) after = 1]. *)
Definition normalise (after : spec_float) : spec_float :=
  if SFleb (ofZ 1) after && SFleb after (ofZ TIMEOUT_MAX) then after else ofZ 1.

(** [Math.trunc] of a finite number. *)
Definition trunc (x : spec_float) : Z :=
  match x with
  | S754_finite s m e =>
      let v := if 0 <=? e then Z.pos m * 2 ^ e else Z.pos m / 2 ^ (- e) in
      if s then - v else v
  | _ => 0
  end.

(** The period, in whole milliseconds, of the timer that
    [setInterval(callback, after)] creates: the runtime truncates the
    delay when it lists the timer. *)
Definition period (after : spec_float) : Z := trunc (normalise after).

End Timers.

(** ** Scheduler *)

Module Scheduler.
Import JsNumber Timers.

Definition MAX_IMPORTS_PER_MINUTE : nat := 20.

(** A persisted source configuration, as far as the scheduler reads or
    writes it. *)
Record SheetsConfigDoc := {
  autoRefresh : bool;
  refreshIntervalMinutes : spec_float;
  lastRunAt : option Z
}.

Inductive logEntry :=
| Warn_rateLimit (key : string) (count : nat)
| Log_refreshed (key : string) (at_ : Z)
| Error_failed (key : string) (e : exn).

(** Module state of the scheduler, the configuration collection it stamps,
    the console, and the trace of orchestrator invocations. *)
Record State := {
  intervals : gmap string Z;              (* key to the period of its timer, ms *)
  runHistory : gmap string (list Z);
  configs : gmap string SheetsConfigDoc;
  console : list logEntry;
  importCalls : list (string * Z)
}.

(** What one timer fire meets: the clock at its start, how the awaited
    import settles, the clock when it has settled, and whether the
    configuration update is carried out. *)
Record Fire := {
  now : Z;
  importSettles : result unit;
  completedAt : Z;
  updateOk : bool
}.

Definition setHistory (key : string) (hist : list Z) (s : State) : State :=
  {| intervals := intervals s; runHistory := <[key := hist]> (runHistory s);
     configs := configs s; console := console s; importCalls := importCalls s |}.

Definition logLine (l : logEntry) (s : State) : State :=
  {| intervals := intervals s; runHistory := runHistory s;
     configs := configs s; console := console s ++ [l];
     importCalls := importCalls s |}.

Definition callImport (key : string) (t : Z) (s : State) : State :=
  {| intervals := intervals s; runHistory := runHistory s;
     configs := configs s; console := console s;
     importCalls := importCalls s ++ [(key, t)] |}.

(** [SheetsConfig.findOneAndUpdate({ spreadsheetId: key }, { lastRunAt })] *)
Definition stampLastRun (key : string) (t : Z) (s : State) : State :=
  {| intervals := intervals s; runHistory := runHistory s;
     configs := alter (fun d => {| autoRefresh := autoRefresh d;
                                   refreshIntervalMinutes := refreshIntervalMinutes d;
                                   lastRunAt := Some t |}) key (configs s);
     console := console s; importCalls := importCalls s |}.

(** [(runHistory.get(key) || []).filter((t) => t >= windowStart)] *)
Definition recentRuns (key : string) (windowStart : Z) (s : State) : list Z :=
  List.filter (fun t => windowStart <=? t) (default [] (runHistory s !! key)).

(** The closure [run] of [startJobForConfig] for the configuration [key]. *)
Definition run (key : string) (f : Fire) (s : State) : State :=
  let windowStart := now f - 60000 in
  let hist := recentRuns key windowStart s in
  if (MAX_IMPORTS_PER_MINUTE <=? length hist)%nat then
    setHistory key hist (logLine (Warn_rateLimit key (length hist)) s)
  else
    let s1 := setHistory key (hist ++ [now f]) s in
    let s2 := callImport key (now f) s1 in
    match importSettles f with
    | inl err => logLine (Error_failed key err) s2
    | inr _ =>
        if updateOk f
        then logLine (Log_refreshed key (completedAt f))
                     (stampLastRun key (completedAt f) s2)
        else logLine (Error_failed key StoreError) s2
    end.

Definition stopJobForConfig (key : string) (s : State) : State :=
  {| intervals := delete key (intervals s);
     runHistory := delete key (runHistory s);
     configs := configs s; console := console s; importCalls := importCalls s |}.

(** [intervals.set(key, setInterval(run, ms))] *)
Definition setTimer (key : string) (ms : spec_float) (s : State) : State :=
  {| intervals := <[key := period ms]> (intervals s); runHistory := runHistory s;
     configs := configs s; console := console s; importCalls := importCalls s |}.

(** The literal [0.05]. *)
Definition minMinutes : spec_float := roundQ false (5 # 100).

(** [Math.max(0.05, minutes) * 60 * 1000], in binary64. *)
Definition delayMs (minutes : spec_float) : spec_float :=
  mul (mul (mathMax minMinutes minutes) (ofZ 60)) (ofZ 1000).

(** [startJobForConfig(doc)], [minutes] being the number
    [doc.refreshIntervalMinutes]: the immediate [run()] touches neither
    the timer table nor is it touched by [intervals.set], so it is
    sequenced before the timer is armed. *)
Definition startJobForConfig (key : string) (minutes : spec_float) (first : Fire)
    (s : State) : State :=
  setTimer key (delayMs minutes) (run key first (stopJobForConfig key s)).

Definition stopAllJobs (s : State) : State :=
  {| intervals := ∅; runHistory := ∅;
     configs := configs s; console := console s; importCalls := importCalls s |}.

(** A sequence of timer fires for one key. *)
Definition runAll (key : string) (fires : list Fire) (s : State) : State :=
  foldl (fun st f => run key f st) s fires.

Definition isSkip (key : string) (l : logEntry) : bool :=
  match l with
  | Warn_rateLimit k _ => String.eqb k key
  | _ => false
  end.

(** *** Vocabulary for statements about timer fires *)

(** The fire finds fewer than the ceiling of runs in its window. *)
Definition passesRateLimit (key : string) (f : Fire) (s : State) : Prop :=
  (length (recentRuns key (now f - 60000) s) < MAX_IMPORTS_PER_MINUTE)%nat.

Definition lastRunOf (key : string) (s : State) : option Z :=
  configs s !! key ≫= lastRunAt.

(** A run is stamped whether its import returned or raised. *)
Definition stampsEveryAttempt (key : string) (f : Fire) (s : State) : Prop :=
  passesRateLimit key f s -> is_Some (configs s !! key) -> updateOk f = true ->
  lastRunOf key (run key f s) = Some (completedAt f).

(** All the fires fall in one 60-second window: none starts more than
    60 seconds after another. *)
Definition withinOneWindow (fires : list Fire) : Prop :=
  forall f g, f ∈ fires -> g ∈ fires -> now g - 60000 <= now f.

Definition skipsLogged (key : string) (s : State) : list logEntry :=
  List.filter (isSkip key) (console s).

(** One configuration, never run, with its timer armed. *)
Definition freshState : State :=
  {| intervals := {[ "sheet" := 3000 ]};
     runHistory := ∅;
     configs := {[ "sheet" := {| autoRefresh := true;
                                 refreshIntervalMinutes := minMinutes;
                                 lastRunAt := None |} ]};
     console := [];
     importCalls := [] |}.

(** A fire whose import rejects. *)
Definition failingFire : Fire :=
  {| now := 1000; importSettles := inl (External "ranges is undefined");
     completedAt := 1200; updateOk := true |}.

(** A fire at time [t] whose import returns. *)
Definition fireAt (t : Z) : Fire :=
  {| now := t; importSettles := inr tt; completedAt := t + 1; updateOk := true |}.

(** Twenty-five fires, 100 milliseconds apart. *)
Definition burst : list Fire :=
  map (fun i => fireAt (100 * Z.of_nat i)) (seq 0 25).

(** The state of a job that has just been started at time 0: its
    immediate run is in the history and its timer is armed. *)
Definition startedState : State :=
  startJobForConfig "sheet" minMinutes (fireAt 0) freshState.

(** The rate-limiter scenario as the testable property words it: of
    twenty-five fires in one window, twenty invoke the import and five
    are skipped with a warning. *)
Definition burstInvokesTwenty (key : string) (fires : list Fire) (s : State) : Prop :=
  length fires = 25%nat -> withinOneWindow fires ->
  let s' := runAll key fires s in
  length (importCalls s') = (length (importCalls s) + 20)%nat /\
  length (skipsLogged key s') = (length (skipsLogged key s) + 5)%nat.

End Scheduler.

(** ** Sample data *)

Module Samples.
Import Sheets Fetch Orchestrator.

(** A recruiters tab with four labelled columns and one data row. *)
Definition janeTab : response :=
  {| values := Some [["Name"; "Email"; "Hired"; "Status"];
                     ["Jane"; "jane@x.com"; "7"; "active"]] |}.

(** Jane's record with every field not named by the header at its hard
    default. *)
Definition janeDefaults : Recruiter.t :=
  {| Recruiter.name := "Jane"; Recruiter.email := "jane@x.com";
     Recruiter.phone := ""; Recruiter.department := "";
     Recruiter.territory := ""; Recruiter.hired := JsNumber.ofZ 7;
     Recruiter.joinDate := ""; Recruiter.reportingManager := "";
     Recruiter.remarks := ""; Recruiter.backendCallingsRemarks := "";
     Recruiter.recruiterBackendCallings := "";
     Recruiter.status := "active"; Recruiter.trend := "up";
     Recruiter.location := "" |}.

(** Jane's record as the positional fallback fills it: the third and
    fourth cells of the row also land in [phone] and [department]. *)
Definition janePositional : Recruiter.t :=
  {| Recruiter.name := "Jane"; Recruiter.email := "jane@x.com";
     Recruiter.phone := "7"; Recruiter.department := "active";
     Recruiter.territory := ""; Recruiter.hired := JsNumber.ofZ 7;
     Recruiter.joinDate := ""; Recruiter.reportingManager := "";
     Recruiter.remarks := ""; Recruiter.backendCallingsRemarks := "";
     Recruiter.recruiterBackendCallings := "";
     Recruiter.status := "active"; Recruiter.trend := "up";
     Recruiter.location := "" |}.

End Samples.

Module FetchSamples.
Import Sheets Fetch.

(** A deployment with neither service-account credentials nor an API key;
    the remote calls would fail if they were made. *)
Definition bareWorld : World :=
  {| GOOGLE_SERVICE_ACCOUNT_EMAIL := None;
     GOOGLE_SERVICE_ACCOUNT_PRIVATE_KEY := None;
     GOOGLE_SHEETS_API_KEY := None;
     authorize := fun _ _ => false;
     valuesGet := fun _ _ => inl "unreachable";
     httpGet := fun _ _ _ => inl "unreachable";
     storeUp := fun _ => true |}.

(** Valid credentials, but the values request is rejected. *)
Definition failingServiceWorld : World :=
  {| GOOGLE_SERVICE_ACCOUNT_EMAIL := Some "svc@example.iam";
     GOOGLE_SERVICE_ACCOUNT_PRIVATE_KEY := Some "key";
     GOOGLE_SHEETS_API_KEY := None;
     authorize := fun _ _ => true;
     valuesGet := fun _ _ => inl "503";
     httpGet := fun _ _ _ => inl "unreachable";
     storeUp := fun _ => true |}.

End FetchSamples.

Module ImportSamples.
Import Sheets Fetch Orchestrator.

Definition candidatesTab : response :=
  {| values := Some [["Name"; "Position"]; ["Sam"; "Engineer"]] |}.
Definition moreCandidatesTab : response :=
  {| values := Some [["Name"; "Role"]; ["Ann"; "Analyst"]] |}.
Definition clientsTab : response :=
  {| values := Some [["Name"; "Industry"]; ["Acme"; "Tech"]] |}.
Definition performanceTab : response :=
  {| values := Some [["Month"; "Target"]; ["2024-01"; "8"]] |}.

Definition okJson (r : response) : external HttpResponse :=
  inr {| ok := true; status := 200; statusText := "OK"; json := inr r |}.

Definition badRequest : external HttpResponse :=
  inr {| ok := false; status := 400; statusText := "Bad Request";
         json := inl "no body" |}.

(** A deployment reading through the API key.  The recruiters range
    answers [recruitersAnswer]; the other three ranges answer with one
    data row each. *)
Definition keyWorld (recruitersAnswer : external HttpResponse)
    (up : dbop -> bool) : World :=
  {| GOOGLE_SERVICE_ACCOUNT_EMAIL := None;
     GOOGLE_SERVICE_ACCOUNT_PRIVATE_KEY := None;
     GOOGLE_SHEETS_API_KEY := Some "key";
     authorize := fun _ _ => false;
     valuesGet := fun _ _ => inl "unreachable";
     httpGet := fun _ range _ =>
       if String.eqb range "Recruiters" then recruitersAnswer
       else if String.eqb range "Candidates" then okJson candidatesTab
       else if String.eqb range "Clients" then okJson clientsTab
       else okJson performanceTab;
     storeUp := up |}.

Definition sampleConfig : GoogleSheetsConfig :=
  {| spreadsheetId := "sheet"; apiKey := None;
     ranges := {| r_recruiters := "Recruiters"; r_candidates := "Candidates";
                  r_clients := "Clients"; r_performance := "Performance" |} |}.

(** The store before the import: one recruiter from an earlier run. *)
Definition priorStore : Store :=
  {| RecruiterColl := [RecruiterSchema.cast Samples.janePositional];
     CandidateColl := []; ClientColl := []; PerformanceColl := [] |}.

Definition allUp : dbop -> bool := fun _ => true.
Definition allDown : dbop -> bool := fun _ => false.

End ImportSamples.

Module CsvSamples.
Import Csv.

Definition lineBreak : string := String LF EmptyString.
Definition quoteMark : string := String dquote EmptyString.

(** A header row and a row whose values hold a comma and a line break. *)
Definition sampleHeader : list string := ["name"; "note"].
Definition sampleRow : list string :=
  ["Lee, Ann"; "first line" +:+ lineBreak +:+ "second line"].

(** A value with blanks at both ends, and a value with a double quote. *)
Definition paddedRow : list string := [" x "].
Definition quotedRow : list string := ["x" +:+ quoteMark +:+ "y"].

End CsvSamples.

(** ** Configuration service: saving a configuration, starting the jobs *)

Module ConfigService.
Import JsNumber Timers Scheduler.

(** The body of a save request, as far as the service reads it.
    [refreshIntervalMinutes] is [None] when the field is not a number. *)
Record ConfigInput := {
  in_spreadsheetId : string;
  in_autoRefresh : bool;                     (* [!!config.autoRefresh] *)
  in_refreshIntervalMinutes : option spec_float
}.

(** [findOneAndUpdate(filter, update, { upsert: true, new: true })]: the
    fields of the update are set on the stored document, created if
    missing; [lastRunAt] is not among them. *)
Definition upsertConfig (c : ConfigInput) (s : State) : State * SheetsConfigDoc :=
  let doc := {| autoRefresh := in_autoRefresh c;
                refreshIntervalMinutes := default (ofZ 60) (in_refreshIntervalMinutes c);
                lastRunAt := configs s !! in_spreadsheetId c ≫= lastRunAt |} in
  ({| intervals := intervals s; runHistory := runHistory s;
      configs := <[in_spreadsheetId c := doc]> (configs s);
      console := console s; importCalls := importCalls s |}, doc).

(** [saveSheetsConfig(config)].  [upsertOk] tells whether the store
    carries out the upsert; [first] is what the immediate run of a started
    job meets. *)
Definition saveSheetsConfig (c : ConfigInput) (upsertOk : bool) (first : Fire)
    (s : State) : State * result SheetsConfigDoc :=
  if upsertOk then
    let '(s1, doc) := upsertConfig c s in
    let s2 := if autoRefresh doc
              then startJobForConfig (in_spreadsheetId c)
                     (refreshIntervalMinutes doc) first s1
              else stopJobForConfig (in_spreadsheetId c) s1 in
    (s2, inr doc)
  else (s, inl StoreError).

(** [docs.forEach((doc) => startJobForConfig(doc))] over the documents the
    query returned, in the order it returned them; [first k] is what the
    immediate run for the key [k] meets. *)
Definition startJobs (docs : list (string * SheetsConfigDoc))
    (first : string -> Fire) (s : State) : State :=
  foldl (fun st d => startJobForConfig d.1 (refreshIntervalMinutes d.2) (first d.1) st)
        s docs.

(** [startScheduledJobs()]: the query result is the stored documents with
    [autoRefresh] set, in the order [docs] lists them. *)
Definition startScheduledJobs (docs : list (string * SheetsConfigDoc))
    (first : string -> Fire) (s : State) : State :=
  startJobs (List.filter (fun d => autoRefresh d.2) docs) first s.

(** [minutes] is a number not above the floor [0.05]. *)
Definition atFloor (minutes : spec_float) : Prop :=
  SFcompare minMinutes minutes = Some Gt \/ SFcompare minMinutes minutes = Some Eq.

(** The clocks of the fires never go back. *)
Definition clockMonotone (fires : list Fire) : Prop :=
  forall i j f g, (i <= j)%nat -> fires !! i = Some f -> fires !! j = Some g ->
    now f <= now g.

(** No invocation comes with twenty earlier ones in the 60 seconds before
    it. *)
Definition rateBounded (calls : list Z) : Prop :=
  forall pre b post, calls = (pre ++ b :: post)%list ->
    (length (List.filter (fun t => (b - 60000 <=? t)%Z) pre) < MAX_IMPORTS_PER_MINUTE)%nat.

(** What the limiter keeps between fires: the history is the invocations
    still inside the window of the last fire. *)
Definition tracks (key : string) (s : State) (cs : list Z) (last : Z) : Prop :=
  default [] (runHistory s !! key) = List.filter (fun t => last - 60000 <=? t) cs /\
  rateBounded cs.

End ConfigService.

Module ConfigSamples.
Import JsNumber Scheduler.

(** Two stored configurations: one refreshing every two minutes, one with
    auto-refresh off. *)
Definition storedDocs : list (string * SheetsConfigDoc) :=
  [("sheet", {| autoRefresh := true; refreshIntervalMinutes := ofZ 2;
                lastRunAt := None |});
   ("other", {| autoRefresh := false; refreshIntervalMinutes := ofZ 60;
                lastRunAt := None |})].

End ConfigSamples.

(** ** Reading the store back *)

Module StoreRead.
Import Sheets Fetch Orchestrator.

(** [Model.find().lean()] on the collection of kind [k]: it rejects when
    the store does not answer ([findUp k] false) and changes nothing. *)
Definition findGuard (findUp : kind -> bool) (k : kind) : db unit :=
  fun st => if findUp k then (st, inr tt) else (st, inl StoreError).

(** What [fetchAll] returns: the stored documents of the four
    collections. *)
Record Documents := {
  recruiterDocs : list RecruiterSchema.doc;
  candidateDocs : list CandidateSchema.doc;
  clientDocs : list ClientSchema.doc;
  performanceDocs : list PerformanceSchema.doc
}.

Definition readStore : db Documents :=
  fun st => (st, inr {| recruiterDocs := RecruiterColl st;
                        candidateDocs := CandidateColl st;
                        clientDocs := ClientColl st;
                        performanceDocs := PerformanceColl st |}).

(** The documents of the records [p], as the schemas store them. *)
Definition documentsOf (p : Parsed) : Documents :=
  {| recruiterDocs := map RecruiterSchema.cast (recruiters p);
     candidateDocs := map CandidateSchema.cast (candidates p);
     clientDocs := map ClientSchema.cast (clients p);
     performanceDocs := map PerformanceSchema.cast (performance p) |}.

(** The documents of kind [k] among those read. *)
Definition noneOfKind (k : kind) (d : Documents) : Prop :=
  match k with
  | KRecruiters => recruiterDocs d = []
  | KCandidates => candidateDocs d = []
  | KClients => clientDocs d = []
  | KPerformance => performanceDocs d = []
  end.

(** [fetchAll()]: the four collections, read in the source's order. *)
Definition fetchAll (findUp : kind -> bool) : db Documents :=
  findGuard findUp KRecruiters >>
  findGuard findUp KCandidates >>
  findGuard findUp KClients >>
  findGuard findUp KPerformance >>
  readStore.

Definition emptyStore : Store :=
  {| RecruiterColl := []; CandidateColl := []; ClientColl := [];
     PerformanceColl := [] |}.

(** The four deletes are carried out. *)
Definition deletesUp (w : World) : Prop :=
  forall k, storeUp w (DeleteMany k) = true.

(** The second half of the persistence block: the four inserts, in
    order. *)
Definition insertAll (w : World) (p : Parsed) : db unit :=
  whenNonEmpty (recruiters p) (insertRecruiters w (recruiters p)) >>
  whenNonEmpty (candidates p) (insertCandidates w (candidates p)) >>
  whenNonEmpty (clients p) (insertClients w (clients p)) >>
  whenNonEmpty (performance p) (insertPerformance w (performance p)).

(** No two present tabs are routed to the same kind. *)
Definition routedApart (tabs : list (kind * option response)) : Prop :=
  forall i j ni nj ri rj,
    tabs !! i = Some (ni, Some ri) -> tabs !! j = Some (nj, Some rj) ->
    routedKind ni ri = routedKind nj rj -> i = j.

(** No present tab is routed to the kind [k]. *)
Definition unrouted (k : kind) (tabs : list (kind * option response)) : Prop :=
  forall j nom r, tabs !! j = Some (nom, Some r) -> routedKind nom r <> k.

End StoreRead.

Module StoreSamples.
Import Sheets Fetch.

(** A recruiters tab whose second data row has no name. *)
Definition unnamedTab : response :=
  {| values := Some [["Name"; "Hired"]; ["Jane"; "7"]; [""; "3"]] |}.

(** The store carries out every delete and refuses the insert of
    candidates. *)
Definition noCandidateInsert : dbop -> bool :=
  fun op => match op with
            | InsertMany KCandidates => false
            | _ => true
            end.

End StoreSamples.

(** ** Vocabulary for statements about the mappers *)

Module MapperFacts.
Import Js JsNumber Sheets.

Fixpoint countChar (ch : ascii) (s : string) : nat :=
  match s with
  | EmptyString => O
  | String c r => ((if Ascii.eqb c ch then 1 else 0) + countChar ch r)%nat
  end.

(** The column named [k] (the last one, if the name repeats) holds the
    non-empty cell [v] in [row]. *)
Definition labelled (header row : list string) (k v : string) : Prop :=
  exists i,
    header !! i = Some k /\
    (forall j, (i < j)%nat -> header !! j <> Some k) /\
    row !! i = Some v /\ v <> "".

Definition blankRow (row : list string) : Prop := Forall (fun c => c = "") row.

(** The records of a row without content. *)
Definition defaultRecruiter : Recruiter.t :=
  {| Recruiter.name := ""; Recruiter.email := ""; Recruiter.phone := "";
     Recruiter.department := ""; Recruiter.territory := "";
     Recruiter.hired := posZero; Recruiter.joinDate := "";
     Recruiter.reportingManager := ""; Recruiter.remarks := "";
     Recruiter.backendCallingsRemarks := "";
     Recruiter.recruiterBackendCallings := "";
     Recruiter.status := "active"; Recruiter.trend := "up";
     Recruiter.location := "" |}.

Definition defaultCandidate : Candidate.t :=
  {| Candidate.name := ""; Candidate.email := ""; Candidate.phone := "";
     Candidate.position := ""; Candidate.experience := "";
     Candidate.skills := []; Candidate.status := "pending";
     Candidate.salary := posZero; Candidate.recruiter := "";
     Candidate.reportingManager := ""; Candidate.client := "";
     Candidate.appliedDate := ""; Candidate.doj := "";
     Candidate.salaryDetails := ""; Candidate.location := "";
     Candidate.remarks := ""; Candidate.backendCallingsRemarks := "" |}.

Definition defaultClient : Client.t :=
  {| Client.name := ""; Client.company := ""; Client.email := "";
     Client.phone := ""; Client.industry := ""; Client.totalHired := posZero;
     Client.avgDaysToFill := posZero; Client.status := "active";
     Client.location := ""; Client.contactNumber := "";
     Client.lastActivity := ""; Client.remarks := "";
     Client.backendCallingsRemarks := "" |}.

Definition defaultPerformance : Performance.t :=
  {| Performance.month := ""; Performance.recruiters := posZero;
     Performance.hired := posZero; Performance.target := posZero |}.

End MapperFacts.

(** ** Vocabulary for statements about the CSV rows *)

Module CsvFacts.
Import Js Csv.

Definition noQuote (s : string) : bool :=
  allChars (fun c => negb (Ascii.eqb c dquote)) s.

Definition isComma (c : ascii) : bool := Ascii.eqb c comma.

(** The header names of a CSV text: the trimmed columns of its first
    line. *)
Definition headerOf (csv : string) : list string :=
  match splitLines csv with
  | [] => []
  | l0 :: _ => map trim (splitCsv l0)
  end.

End CsvFacts.

(** ** Request handlers *)

Module Routes.
Import Js JsNumber Sheets Fetch Orchestrator.

(** The character class [[-_a-zA-Z0-9]]. *)
Definition isIdChar (c : ascii) : bool :=
  let n := code c in
  (n =? 45) || (n =? 95) ||
  ((97 <=? n) && (n <=? 122)) || ((65 <=? n) && (n <=? 90)) ||
  ((48 <=? n) && (n <=? 57)).

Fixpoint takeWhile (p : ascii -> bool) (s : string) : string :=
  match s with
  | String c r => if p c then String c (takeWhile p r) else EmptyString
  | EmptyString => EmptyString
  end.

(** What follows the prefix [p] in [s], if [s] starts with [p]. *)
Fixpoint stripPrefix (p s : string) : option string :=
  match p, s with
  | EmptyString, _ => Some s
  | String a p', String b s' => if Ascii.eqb a b then stripPrefix p' s' else None
  | String _ _, EmptyString => None
  end.

(** A match of [/spreadsheets\/d\/([-_a-zA-Z0-9]+)/] that starts at the
    first character of [s]: the literal, then the longest run of class
    characters, which must not be empty. *)
Definition matchHere (s : string) : option string :=
  match stripPrefix "spreadsheets/d/" s with
  | Some rest =>
      let id := takeWhile isIdChar rest in
      if isEmpty id then None else Some id
  | None => None
  end.

(** [String(link).match(/spreadsheets\/d\/([-_a-zA-Z0-9]+)/)]: the capture
    group of the leftmost match. *)
Fixpoint matchSheetId (link : string) : option string :=
  match matchHere link with
  | Some id => Some id
  | None =>
      match link with
      | String _ r => matchSheetId r
      | EmptyString => None
      end
  end.

(** [s.includes(p)] *)
Fixpoint includes (s p : string) : bool :=
  match stripPrefix p s with
  | Some _ => true
  | None =>
      match s with
      | String _ r => includes r p
      | EmptyString => false
      end
  end.

(** [err.message]; the text of a store error is the store's own. *)
Definition message (storeMessage : string) (e : exn) : string :=
  match e with
  | NotConfigured =>
      "Google Sheets access not configured. Add service account env vars or set GOOGLE_SHEETS_API_KEY."
  | HttpStatus range status statusText =>
      "Failed to fetch sheet " +:+ range +:+ ": " +:+ decimal status +:+ " " +:+ statusText
  | StoreError => storeMessage
  | External m => m
  end.

(** The body of an import request, as far as the handler reads it. *)
Record ImportBody := {
  b_spreadsheetId : option string;
  b_sheetLink : option string;
  b_apiKey : option string;
  b_ranges : option Ranges;
  b_gid : option string
}.

(** [req.body || {}] *)
Definition emptyBody : ImportBody :=
  {| b_spreadsheetId := None; b_sheetLink := None; b_apiKey := None;
     b_ranges := None; b_gid := None |}.

Definition defaultRanges : Ranges :=
  {| r_recruiters := "Recruiters!A:J"; r_candidates := "Candidates!A:L";
     r_clients := "Clients!A:J"; r_performance := "Performance!A:D" |}.

(** The spreadsheet id of a request: the raw id, or else the one found in
    the link. *)
Definition resolveId (config : ImportBody) : string :=
  let spreadsheetId := orStr (b_spreadsheetId config) "" in
  if isEmpty spreadsheetId && truthyStr (b_sheetLink config) then
    match matchSheetId (default "" (b_sheetLink config)) with
    | Some id => id
    | None => spreadsheetId
    end
  else spreadsheetId.

(** [config.apiKey || process.env.GOOGLE_SHEETS_API_KEY || undefined] *)
Definition resolveKey (w : World) (config : ImportBody) : option string :=
  let k := orOpt (b_apiKey config) (GOOGLE_SHEETS_API_KEY w) in
  if truthyStr k then k else None.

Definition finalConfig (w : World) (config : ImportBody) : GoogleSheetsConfig :=
  {| spreadsheetId := resolveId config;
     apiKey := resolveKey w config;
     ranges := default defaultRanges (b_ranges config) |}.

Section Handlers.

(** The published-export importer and what it returns. *)
Variable Published : Type.
Variable importPublishedAndSave : string -> Ranges -> option string -> db Published.
Variable storeMessage : string.

Inductive reply :=
| Ok200 (data : Parsed)
| Ok200Published (data : Published)
| Bad400 (error : string)
| Fail500 (error : string).

(** [handleImportSheets]; the lines it writes to the console are left
    out. *)
Definition handleImportSheets (w : World) (body : option ImportBody) : db reply :=
  let config := default emptyBody body in
  let spreadsheetId := resolveId config in
  if isEmpty spreadsheetId then ret (Bad400 "Missing spreadsheetId or sheetLink")
  else
    tryCatch
      (bind (importSheetsAndSave w (finalConfig w config))
            (fun data => ret (Ok200 data)))
      (fun err =>
         let msg := message storeMessage err in
         if negb (isEmpty msg) &&
            includes (toLowerCase msg) "google sheets access not configured"
         then
           tryCatch
             (bind (importPublishedAndSave spreadsheetId
                      (ranges (finalConfig w config)) (b_gid config))
                   (fun published => ret (Ok200Published published)))
             (fun pubErr =>
                ret (Fail500 (orStr (Some (message storeMessage pubErr))
                                    "Import failed")))
         else ret (Fail500 (orStr (Some (message storeMessage err))
                                  "Import failed"))).

End Handlers.

Arguments Ok200 {Published} data.
Arguments Ok200Published {Published} data.
Arguments Bad400 {Published} error.
Arguments Fail500 {Published} error.

(** The link of a spreadsheet as the browser shows it. *)
Definition sheetUrl (id rest : string) : string :=
  "https://docs.google.com/spreadsheets/d/" +:+ id +:+ rest.

(** [rest] does not go on with a character of the id class. *)
Definition endsId (rest : string) : Prop :=
  match rest with
  | String c _ => isIdChar c = false
  | EmptyString => True
  end.

End Routes.

(** ** Maintenance: clearing the data *)

Module Maintenance.
Import Js Sheets Fetch Orchestrator Scheduler.

Inductive clearReply :=
| Cleared (recruiters candidates clients performance sheetsConfigs : nat)
| ClearFailed (error : string).

Definition collSize (k : kind) (st : Store) : nat :=
  match k with
  | KRecruiters => length (RecruiterColl st)
  | KCandidates => length (CandidateColl st)
  | KClients => length (ClientColl st)
  | KPerformance => length (PerformanceColl st)
  end.

(** [await Model.deleteMany({}).exec()], giving [deletedCount]. *)
Definition deleteCounting (w : World) (k : kind) : db nat :=
  fun st =>
    match deleteMany w k st with
    | (st', inr _) => (st', inr (collSize k st))
    | (st', inl e) => (st', inl e)
    end.

(** [await SheetsConfig.deleteMany({}).exec()] *)
Definition deleteConfigs (configsUp : bool) (s : State) : State * result nat :=
  if configsUp
  then ({| intervals := intervals s; runHistory := runHistory s;
           configs := ∅; console := console s;
           importCalls := importCalls s |}, inr (size (configs s)))
  else (s, inl StoreError).

(** [handleClearData]; the lines it writes to the console are left out. *)
Definition handleClearData (w : World) (configsUp : bool) (storeMessage : string)
    (s : State) (st : Store) : State * Store * clearReply :=
  let failed e :=
    ClearFailed (orStr (Some (Routes.message storeMessage e)) "Clear data failed") in
  (* Stop any scheduled jobs first *)
  let s1 := stopAllJobs s in
  let deletes :=
    bind (deleteCounting w KRecruiters) (fun r =>
    bind (deleteCounting w KCandidates) (fun c =>
    bind (deleteCounting w KClients) (fun cl =>
    bind (deleteCounting w KPerformance) (fun p =>
    ret (r, c, cl, p))))) in
  match deletes st with
  | (st', inl e) => (s1, st', failed e)
  | (st', inr (r, c, cl, p)) =>
      match deleteConfigs configsUp s1 with
      | (s2, inr cfg) => (s2, st', Cleared r c cl p cfg)
      | (s2, inl e) => (s2, st', failed e)
      end
  end.

Definition isCleared (r : clearReply) : bool :=
  match r with
  | Cleared _ _ _ _ _ => true
  | ClearFailed _ => false
  end.

End Maintenance.

(** ** The published-export importer: fetching and typing the tabs *)

Module Published.
Import Js Sheets Fetch Csv.

Definition hexDigit (n : Z) : ascii :=
  ascii_of_N (Z.to_N (if n <? 10 then 48 + n else 55 + n)).

(** [%XX] *)
Definition percent (byte : Z) : string :=
  String "%" (String (hexDigit (byte / 16))
                     (String (hexDigit (byte mod 16)) EmptyString)).

Definition isUnreserved (c : ascii) : bool :=
  let n := code c in
  ((97 <=? n) && (n <=? 122)) || ((65 <=? n) && (n <=? 90)) ||
  ((48 <=? n) && (n <=? 57)) ||
  existsb (Ascii.eqb c) ["-"; "_"; "."; "!"; "~"; "*"; "'"; "("; ")"]%char.

(** [encodeURIComponent] on code units below 256: every character but the
    unreserved ones becomes the escaped bytes of its UTF-8 encoding. *)
Fixpoint encodeURIComponent (s : string) : string :=
  match s with
  | EmptyString => EmptyString
  | String c r =>
      let n := code c in
      (if isUnreserved c then String c EmptyString
       else if n <? 128 then percent n
       else percent (192 + n / 64) +:+ percent (128 + n mod 64))
      +:+ encodeURIComponent r
  end.

(** The answer to [fetch(url)]: [res.ok] and [res.text()]. *)
Record TextResponse := {
  t_ok : bool;
  t_text : external string
}.

Definition hasChar (ch : ascii) (s : string) : bool :=
  negb (allChars (fun c => negb (Ascii.eqb c ch)) s).

(** [text && (text.indexOf(',') >= 0 || text.indexOf('\n') >= 0)] *)
Definition looksLikeCsv (text : string) : bool :=
  negb (isEmpty text) && (hasChar comma text || hasChar LF text).

Section TryFetchCsv.

Variable fetch : string -> external TextResponse.
Variable spreadsheetId : string.
Variable gid : option string.

Definition docUrl : string :=
  "https://docs.google.com/spreadsheets/d/" +:+ encodeURIComponent spreadsheetId.

Definition gidUrl : string :=
  docUrl +:+ "/export?format=csv&gid=" +:+ encodeURIComponent (default "" gid).

Definition tryUrls (sheetName : string) : list string :=
  ((if truthyStr gid then [gidUrl] else []) ++
   [docUrl +:+ "/export?format=csv&sheet=" +:+ encodeURIComponent sheetName;
    docUrl +:+ "/gviz/tq?tqx=out:csv&sheet=" +:+ encodeURIComponent sheetName;
    docUrl +:+ "/export?format=csv"])%list.

(** [for (const url of tryUrls) { try { ... } catch (err) { } } return null] *)
Fixpoint firstCsv (urls : list string) : option string :=
  match urls with
  | [] => None
  | url :: rest =>
      match fetch url with
      | inl _ => firstCsv rest
      | inr res =>
          if negb (t_ok res) then firstCsv rest
          else
            match t_text res with
            | inl _ => firstCsv rest
            | inr text => if looksLikeCsv text then Some text else firstCsv rest
            end
      end
  end.

Definition tryFetchCsv (sheetName : string) : option string :=
  firstCsv (tryUrls sheetName).

(** The address answers with the text and the text is taken. *)
Definition answers (url text : string) : Prop :=
  exists res, fetch url = inr res /\ t_ok res = true /\
              t_text res = inr text /\ looksLikeCsv text = true.

End TryFetchCsv.

Definition clientKeysOfRows : list string :=
  ["company"; "industry"; "total hired"; "avg daystofill"; "last activity"].

(** [Object.keys(row)]; [inferRowsType] asks only which keys there are,
    not in which order. *)
Definition objectKeys (row : gmap string string) : list string :=
  (map_to_list row).*1.

Definition inferRowsType (rows : list (gmap string string)) : option kind :=
  match rows with
  | [] => None
  | row :: _ =>
      let header := map (fun h => toLowerCase (trim h)) (objectKeys row) in
      if has header candidateKeys then Some KCandidates
      else if has header clientKeysOfRows then Some KClients
      else if has header recruiterKeys then Some KRecruiters
      else if has header performanceKeys then Some KPerformance
      else None
  end.

(** The table of a CSV text as the values API delivers it: the header
    line, then the data rows. *)
Definition asResponse (csv : string) (data : list (list string)) : response :=
  {| values := Some (CsvFacts.headerOf csv :: data) |}.

End Published.

(** ** The CSV parser of the client *)

Module ClientCsv.
Import Js Csv.

(** The first loop of the client's [parseCsvToObjects]: a quote that
    opens or closes a quoted run is not kept. *)
Fixpoint scanLines (csv cur : string) (inQuotes : bool) (lines : list string)
    : list string * string :=
  match csv with
  | EmptyString => (lines, cur)
  | String ch rest =>
      if Ascii.eqb ch dquote then
        match rest with
        | String ch' rest' =>
            if Ascii.eqb ch' dquote
            then scanLines rest' (snoc cur dquote) inQuotes lines
            else scanLines rest cur (negb inQuotes) lines
        | EmptyString => scanLines rest cur (negb inQuotes) lines
        end
      else if Ascii.eqb ch CR then scanLines rest cur inQuotes lines
      else if Ascii.eqb ch LF && negb inQuotes
           then scanLines rest EmptyString inQuotes (lines ++ [cur])
      else scanLines rest (snoc cur ch) inQuotes lines
  end.

Definition splitLines (csv : string) : list string :=
  let '(lines, cur) := scanLines csv EmptyString false [] in
  if isEmpty cur then lines else lines ++ [cur].

(** [splitCsv] and the row loop are those of the server's parser. *)
Definition parseCsvToObjects (csv : string) : list (gmap string string) :=
  match splitLines csv with
  | [] => []
  | l0 :: ls => rowsOf (map trim (splitCsv l0)) ls
  end.

(** A character of a value that needs no care: no quote, no line break,
    no comma. *)
Definition isPlainChar (c : ascii) : bool :=
  negb (Ascii.eqb c dquote) && negb (Ascii.eqb c CR) &&
  negb (Ascii.eqb c LF) && negb (Ascii.eqb c comma).

Definition isTextChar (c : ascii) : bool :=
  negb (Ascii.eqb c dquote) && negb (Ascii.eqb c CR) && negb (Ascii.eqb c LF).

End ClientCsv.

Module PublishedSamples.
Import Csv Published.

(** Only the export of the tab with gid 0 answers. *)
Definition gidOnly : string -> external TextResponse :=
  fun url =>
    if String.eqb url
         "https://docs.google.com/spreadsheets/d/abc/export?format=csv&gid=0"
    then inr {| t_ok := true; t_text := inr "name,hired" |}
    else inl "not found".

(** A clients tab of one data row. *)
Definition clientsCsv : string :=
  "Name,Industry" +:+ String LF "Acme,Tech".

End PublishedSamples.

(** * Properties of the pipeline *)

(** ** Sheet-type inference *)

Section Inference.
Import Js Sheets.

Lemma has_true header keys : has header keys = true <-> hasAny header keys.
Proof.
  unfold has, hasAny. rewrite existsb_exists. split.
  - intros (k & Hin & Hk). exists k.
    apply bool_decide_eq_true in Hk. by rewrite list_elem_of_In.
  - intros (k & Hin & Hk). exists k. rewrite <- list_elem_of_In.
    split; [done | by apply bool_decide_eq_true].
Qed.

Lemma has_false header keys : has header keys = false <-> ~ hasAny header keys.
Proof.
  rewrite <- has_true. destruct (has header keys); split; congruence.
Qed.

Lemma inferHeader_spec header :
  (inferHeader header = Some KCandidates <-> hasAny header candidateKeys) /\
  (inferHeader header = Some KClients <->
     ~ hasAny header candidateKeys /\ hasAny header clientKeys) /\
  (inferHeader header = Some KRecruiters <->
     ~ hasAny header candidateKeys /\ ~ hasAny header clientKeys /\
     hasAny header recruiterKeys) /\
  (inferHeader header = Some KPerformance <->
     ~ hasAny header candidateKeys /\ ~ hasAny header clientKeys /\
     ~ hasAny header recruiterKeys /\ hasAny header performanceKeys) /\
  (inferHeader header = None <->
     ~ hasAny header candidateKeys /\ ~ hasAny header clientKeys /\
     ~ hasAny header recruiterKeys /\ ~ hasAny header performanceKeys).
Proof.
  unfold inferHeader.
  rewrite <- !has_false, <- !has_true.
  destruct (has header candidateKeys), (has header clientKeys),
    (has header recruiterKeys), (has header performanceKeys);
    repeat split; intros; try congruence;
    repeat match goal with H : _ /\ _ |- _ => destruct H end; congruence.
Qed.

End Inference.

(** C5, as the code has it.  On a tab with a header row, [inferType]
    returns candidates exactly when a candidate keyword is a header cell,
    otherwise clients exactly when a client keyword is, otherwise
    recruiters, otherwise performance, and nothing when no keyword occurs.
    The keyword sets are pairwise disjoint except that [hired] is both a
    recruiter and a performance keyword.  A header row holding [industry]
    and [target] and no candidate keyword is inferred to be clients. *)
Theorem inferType_priority (h : list string) (rest : list (list string)) :
  let header := Sheets.normHeader h in
  let t := Sheets.inferType (Some {| Sheets.values := Some (h :: rest) |}) in
  (t = Some Sheets.KCandidates <-> Sheets.hasAny header Sheets.candidateKeys) /\
  (t = Some Sheets.KClients <->
     ~ Sheets.hasAny header Sheets.candidateKeys /\ Sheets.hasAny header Sheets.clientKeys) /\
  (t = Some Sheets.KRecruiters <->
     ~ Sheets.hasAny header Sheets.candidateKeys /\ ~ Sheets.hasAny header Sheets.clientKeys /\
     Sheets.hasAny header Sheets.recruiterKeys) /\
  (t = Some Sheets.KPerformance <->
     ~ Sheets.hasAny header Sheets.candidateKeys /\ ~ Sheets.hasAny header Sheets.clientKeys /\
     ~ Sheets.hasAny header Sheets.recruiterKeys /\
     Sheets.hasAny header Sheets.performanceKeys) /\
  (t = None <->
     ~ Sheets.hasAny header Sheets.candidateKeys /\ ~ Sheets.hasAny header Sheets.clientKeys /\
     ~ Sheets.hasAny header Sheets.recruiterKeys /\
     ~ Sheets.hasAny header Sheets.performanceKeys) /\
  (Sheets.disjointKeys Sheets.candidateKeys Sheets.clientKeys /\
   Sheets.disjointKeys Sheets.candidateKeys Sheets.recruiterKeys /\
   Sheets.disjointKeys Sheets.candidateKeys Sheets.performanceKeys /\
   Sheets.disjointKeys Sheets.clientKeys Sheets.recruiterKeys /\
   Sheets.disjointKeys Sheets.clientKeys Sheets.performanceKeys /\
   "hired" ∈ Sheets.recruiterKeys /\ "hired" ∈ Sheets.performanceKeys) /\
  ("industry" ∈ header -> "target" ∈ header ->
   ~ Sheets.hasAny header Sheets.candidateKeys -> t = Some Sheets.KClients).
Proof.
  intros header t.
  assert (Hs := inferHeader_spec header).
  change t with (Sheets.inferHeader header).
  destruct Hs as (H1 & H2 & H3 & H4 & H5).
  repeat split; try tauto;
    try (apply (bool_decide_unpack _); vm_compute; exact I).
  intros Hi _ Hc. apply H2. split; [done |].
  exists "industry". split; [| done].
  apply (bool_decide_unpack _). vm_compute. exact I.
Qed.

Lemma inferType_priority_witness :
  Sheets.inferType
    (Some {| Sheets.values := Some [["Industry"; " Target "]; ["Tech"; "8"]] |})
  = Some Sheets.KClients.
Proof.
  apply (inferType_priority ["Industry"; " Target "] [["Tech"; "8"]]).
  - apply (bool_decide_unpack _). vm_compute. exact I.
  - apply (bool_decide_unpack _). vm_compute. exact I.
  - intros Hc. apply has_true in Hc. vm_compute in Hc. discriminate.
Defined.

(** C5 as worded fails: the four keyword sets are not disjoint. *)
Lemma keyword_sets_overlap : ~ Sheets.keywordSetsDisjoint.
Proof.
  intros (_ & _ & _ & _ & _ & H).
  unfold Sheets.disjointKeys in H. rewrite Forall_forall in H.
  apply (H "hired").
  - apply (bool_decide_unpack _). vm_compute. exact I.
  - apply (bool_decide_unpack _). vm_compute. exact I.
Qed.

(** The overlap is where the order decides: a header row with [hired]
    alone is inferred to be recruiters. *)
Lemma hired_alone_is_recruiters :
  Sheets.inferType (Some {| Sheets.values := Some [["Hired"]] |})
  = Some Sheets.KRecruiters.
Proof. vm_compute. reflexivity. Qed.

(** ** Schema mapping *)

(** C8, as the code has it.  The Recruiter mapper of the API path takes
    [name], [email], [hired] and [status] from the labelled columns, and
    where a field has no labelled column it falls back to the fixed
    position before the hard default: [phone] is the third cell, "7", and
    [department] the fourth, "active".  The other fields are at their hard
    defaults. *)
Theorem parseRecruiters_jane :
  Sheets.parseRecruiters Samples.janeTab = [Samples.janePositional].
Proof. vm_compute. reflexivity. Qed.

(** C8 as worded fails: the record is not the one with every remaining
    field at its hard default. *)
Lemma parseRecruiters_jane_not_defaults :
  Sheets.parseRecruiters Samples.janeTab <> [Samples.janeDefaults].
Proof. vm_compute. intros H. discriminate H. Qed.

(** The numeric field is the number 7. *)
Lemma jane_hired_is_seven :
  Recruiter.hired Samples.janePositional
  = S754_finite false (7 * 2 ^ 50)%positive (-50).
Proof. vm_compute. reflexivity. Qed.

(** ** Source fetchers *)

Section FetchChain.
Import Js Sheets Fetch.
Variable w : World.
Variables spreadsheetId range : string.

Lemma no_client_unavailable :
  getServiceAccountClient w = None ->
  fetchSheetViaServiceAccount w spreadsheetId range = inr None.
Proof. unfold fetchSheetViaServiceAccount. by intros ->. Qed.

Lemma credentialsAbsent_no_client :
  credentialsAbsent w -> getServiceAccountClient w = None.
Proof.
  unfold credentialsAbsent, getServiceAccountClient, truthyStr.
  destruct (GOOGLE_SERVICE_ACCOUNT_EMAIL w) as [e|],
    (GOOGLE_SERVICE_ACCOUNT_PRIVATE_KEY w) as [k|];
    try (destruct (isEmpty e)); try (destruct (isEmpty k)); simpl;
    intuition congruence.
Qed.


Lemma sa_response_has_values r :
  fetchSheetViaServiceAccount w spreadsheetId range = inr (Some r) ->
  exists vs, r = {| values := Some vs |}.
Proof.
  unfold fetchSheetViaServiceAccount.
  destruct (getServiceAccountClient w); [| done].
  destruct (await _); [done |]. intros [= <-]. eauto.
Qed.


End FetchChain.

Lemma truthyStr_orOpt a b :
  Fetch.truthyStr (Js.orOpt a b) = Fetch.truthyStr a || Fetch.truthyStr b.
Proof.
  destruct a as [s|]; simpl; [| done].
  destruct (Js.isEmpty s) eqn:E; simpl; by rewrite ?E.
Qed.



(** ** Import orchestrator *)

Section Persistence.
Import Sheets Fetch Orchestrator StoreRead.

Lemma importSheetsAndSave_unfold w config st :
  importSheetsAndSave w config st =
  ((tryCatch (replaceAll w (parsedOf w config)) (fun _ => ret tt) >>
    ret (parsedOf w config)) st).
Proof.
  unfold importSheetsAndSave, parsedOf.
  by destruct (fetchTabs w config) as [[[r c] cl] pf].
Qed.

(** The import never raises, and what it returns does not depend on the
    store. *)
Lemma importSheetsAndSave_returns w config st :
  snd (importSheetsAndSave w config st) = inr (parsedOf w config).
Proof.
  rewrite importSheetsAndSave_unfold. unfold bind, tryCatch, ret.
  by destruct (replaceAll w (parsedOf w config) st) as [st' [e | []]].
Qed.

Lemma import_store w config st :
  fst (importSheetsAndSave w config st)
  = fst (replaceAll w (parsedOf w config) st).
Proof.
  rewrite importSheetsAndSave_unfold. unfold bind, tryCatch, ret.
  by destruct (replaceAll w (parsedOf w config) st) as [st' [e | []]].
Qed.

Lemma replaceAll_deletesUp w p st :
  deletesUp w -> replaceAll w p st = insertAll w p emptyStore.
Proof.
  intros Hd. unfold replaceAll, insertAll, bind at 1 2 3 4, deleteMany, guard.
  by rewrite !Hd.
Qed.

(** One insert from a store where its collection is empty: the cast
    records are there afterwards, or the insert raised and changed
    nothing. *)
Lemma insertAll_up w p :
  storeUpAll w -> allValid p -> insertAll w p emptyStore = (storeOf p, inr tt).
Proof.
  intros Hup Hv.
  pose proof (Hv KRecruiters) as Hr. pose proof (Hv KCandidates) as Hc.
  pose proof (Hv KClients) as Hcl. pose proof (Hv KPerformance) as Hp.
  simpl in Hr, Hc, Hcl, Hp.
  unfold insertAll, bind, insertRecruiters, insertCandidates, insertClients,
    insertPerformance, whenNonEmpty, validated, guard, ret, storeOf, emptyStore.
  rewrite Hr, Hc, Hcl, Hp, !Hup.
  destruct (recruiters p), (candidates p), (clients p), (performance p);
    reflexivity.
Qed.

(** With the store available and every record passing its schema, the
    persistence block ends with each collection equal to the stored form
    of the parsed set of its kind, empty or not. *)
Lemma replaceAll_up w p st :
  storeUpAll w -> allValid p -> replaceAll w p st = (storeOf p, inr tt).
Proof.
  intros Hup Hv. rewrite replaceAll_deletesUp by (intros k; apply Hup).
  by apply insertAll_up.
Qed.

Lemma importSheetsAndSave_up w config st :
  storeUpAll w -> allValid (parsedOf w config) ->
  importSheetsAndSave w config st = (storeOf (parsedOf w config), inr (parsedOf w config)).
Proof.
  intros Hup Hv. rewrite importSheetsAndSave_unfold. unfold bind, tryCatch.
  by rewrite replaceAll_up.
Qed.


Lemma allValid_noRecords : allValid noRecords.
Proof. by intros []. Qed.

(** After the inserts each collection is empty or holds exactly the
    parsed set of its kind. *)
Lemma insertAll_outcomes w p k :
  let st' := fst (insertAll w p emptyStore) in
  collEmpty k st' \/ holdsExactly k st' p.
Proof.
  unfold insertAll, bind, insertRecruiters, insertCandidates, insertClients,
    insertPerformance, whenNonEmpty, validated, guard, ret, emptyStore.
  set (vr := forallb RecruiterSchema.validate (recruiters p)).
  set (vc := forallb CandidateSchema.validate (candidates p)).
  set (vcl := forallb ClientSchema.validate (clients p)).
  set (vp := forallb PerformanceSchema.validate (performance p)).
  destruct (recruiters p) eqn:Er, (candidates p) eqn:Ec, (clients p) eqn:Ecl,
    (performance p) eqn:Ep; simpl;
    repeat match goal with
      | |- context [if ?b then _ else _] => destruct b; simpl
      end;
    destruct k; simpl; rewrite ?Er, ?Ec, ?Ecl, ?Ep;
    first [ by right | by left ].
Qed.

(** A kind with a record that does not pass its schema is not written. *)
Lemma insertAll_invalid w p k :
  validKind k p = false -> collEmpty k (fst (insertAll w p emptyStore)).
Proof.
  intros Hk.
  unfold insertAll, bind, insertRecruiters, insertCandidates, insertClients,
    insertPerformance, whenNonEmpty, validated, guard, ret, emptyStore.
  set (vr := forallb RecruiterSchema.validate (recruiters p)).
  set (vc := forallb CandidateSchema.validate (candidates p)).
  set (vcl := forallb ClientSchema.validate (clients p)).
  set (vp := forallb PerformanceSchema.validate (performance p)).
  assert (Hvk : match k with
                | KRecruiters => vr | KCandidates => vc
                | KClients => vcl | KPerformance => vp
                end = false) by (by destruct k).
  clearbody vr vc vcl vp.
  destruct (recruiters p), (candidates p), (clients p), (performance p); simpl;
    repeat match goal with
      | |- context [if ?b then _ else _] => destruct b eqn:?; simpl
      end;
    destruct k; simpl; congruence.
Qed.

(** A kind whose insert the store refuses is not written. *)
Lemma insertAll_refused w p k :
  storeUp w (InsertMany k) = false -> collEmpty k (fst (insertAll w p emptyStore)).
Proof.
  intros Hk.
  unfold insertAll, bind, insertRecruiters, insertCandidates, insertClients,
    insertPerformance, whenNonEmpty, validated, guard, ret, emptyStore.
  destruct (recruiters p), (candidates p), (clients p), (performance p); simpl;
    repeat match goal with
      | |- context [if ?b then _ else _] => destruct b eqn:?; simpl
      end;
    destruct k; simpl; congruence.
Qed.

(** Where the persistence block stops when a delete is refused. *)
Lemma replaceAll_outcomes w p st :
  let st' := fst (replaceAll w p st) in
  forall k, collUnchanged k st st' \/ collEmpty k st' \/ holdsExactly k st' p.
Proof.
  intros st' k.
  destruct (storeUp w (DeleteMany KRecruiters)) eqn:E1;
    [| left; unfold st', replaceAll, bind, deleteMany, guard; rewrite E1;
       by destruct k].
  destruct (storeUp w (DeleteMany KCandidates)) eqn:E2;
    [| unfold st', replaceAll, bind, deleteMany, guard; rewrite E1, E2; simpl;
       destruct k; (by left) || (right; by left)].
  destruct (storeUp w (DeleteMany KClients)) eqn:E3;
    [| unfold st', replaceAll, bind, deleteMany, guard; rewrite E1, E2, E3; simpl;
       destruct k; (by left) || (right; by left)].
  destruct (storeUp w (DeleteMany KPerformance)) eqn:E4;
    [| unfold st', replaceAll, bind, deleteMany, guard;
       rewrite E1, E2, E3, E4; simpl;
       destruct k; (by left) || (right; by left)].
  right. unfold st'. rewrite replaceAll_deletesUp by (by intros []).
  apply insertAll_outcomes.
Qed.

End Persistence.





(** C4.  When all four fetches succeed and the persistence block throws,
    [importSheetsAndSave] does not raise: it returns the four record sets
    mapped from the fetched tabs, and the store stays as the failed
    operation left it. *)
Theorem import_returns_when_store_fails
    (w : Fetch.World) (config : Orchestrator.GoogleSheetsConfig)
    (st st1 : Orchestrator.Store) (e : exn)
    (rRes cRes clientsRes perfRes : Sheets.response) :
  Orchestrator.fetchTabs w config
    = (Some rRes, Some cRes, Some clientsRes, Some perfRes) ->
  Orchestrator.replaceAll w
    (Orchestrator.parseTabs (Some rRes) (Some cRes) (Some clientsRes) (Some perfRes)) st
    = (st1, inl e) ->
  Orchestrator.importSheetsAndSave w config st
    = (st1, inr (Orchestrator.parseTabs (Some rRes) (Some cRes)
                   (Some clientsRes) (Some perfRes))).
Proof.
  intros Hf Hp. unfold Orchestrator.importSheetsAndSave. rewrite Hf.
  unfold Orchestrator.bind, Orchestrator.tryCatch. by rewrite Hp.
Qed.

Lemma import_returns_when_store_fails_witness :
  let w := ImportSamples.keyWorld (ImportSamples.okJson Samples.janeTab)
             ImportSamples.allDown in
  Orchestrator.importSheetsAndSave w ImportSamples.sampleConfig ImportSamples.priorStore
  = (ImportSamples.priorStore,
     inr (Orchestrator.parseTabs (Some Samples.janeTab)
            (Some ImportSamples.candidatesTab) (Some ImportSamples.clientsTab)
            (Some ImportSamples.performanceTab))).
Proof.
  apply (import_returns_when_store_fails
           (ImportSamples.keyWorld (ImportSamples.okJson Samples.janeTab)
              ImportSamples.allDown)
           ImportSamples.sampleConfig ImportSamples.priorStore
           ImportSamples.priorStore StoreError).
  - vm_compute. reflexivity.
  - vm_compute. reflexivity.
Defined.

Section Routing.
Import Sheets Fetch Orchestrator.

Lemma routeRecruitersTab_assign r p :
  routeRecruitersTab (Some r) p = assign (routedKind KRecruiters r) r p.
Proof.
  unfold routeRecruitersTab, routedKind.
  by destruct (inferType (Some r)) as [[]|].
Qed.

Lemma routeCandidatesTab_assign r p :
  routeCandidatesTab (Some r) p = assign (routedKind KCandidates r) r p.
Proof.
  unfold routeCandidatesTab, routedKind.
  by destruct (inferType (Some r)) as [[]|].
Qed.

Lemma routeClientsTab_assign r p :
  routeClientsTab (Some r) p = assign (routedKind KClients r) r p.
Proof.
  unfold routeClientsTab, routedKind.
  by destruct (inferType (Some r)) as [[]|].
Qed.

Lemma routePerformanceTab_assign r p :
  routePerformanceTab (Some r) p = assign (routedKind KPerformance r) r p.
Proof.
  unfold routePerformanceTab, routedKind.
  by destruct (inferType (Some r)) as [[]|].
Qed.

(** The four blocks are one step each over the tabs in processing order. *)
Lemma parseTabs_foldl rRes cRes clientsRes perfRes :
  parseTabs rRes cRes clientsRes perfRes
  = foldl routeStep noRecords (tabsInOrder rRes cRes clientsRes perfRes).
Proof.
  unfold parseTabs, tabsInOrder, routeStep. simpl.
  destruct rRes, cRes, clientsRes, perfRes; simpl;
    rewrite <- ?routePerformanceTab_assign, <- ?routeClientsTab_assign,
      <- ?routeCandidatesTab_assign, <- ?routeRecruitersTab_assign; reflexivity.
Qed.

Lemma slotIs_assign_same k r p : slotIs k (assign k r p) r.
Proof. by destruct k. Qed.

Lemma slotIs_assign_other k k' r r' p :
  k' <> k -> slotIs k p r -> slotIs k (assign k' r' p) r.
Proof. by destruct k, k'. Qed.

(** After any sequence of routing steps, the record set of a kind is the
    mapping of the last present tab routed to that kind. *)
Lemma last_routed_wins k (tabs : list (kind * option response)) :
  forall p j nom rj,
    tabs !! j = Some (nom, Some rj) -> routedKind nom rj = k ->
    exists l noml rl,
      (j <= l)%nat /\ tabs !! l = Some (noml, Some rl) /\
      routedKind noml rl = k /\
      slotIs k (foldl routeStep p tabs) rl /\
      forall l' nom' r', (l < l')%nat -> tabs !! l' = Some (nom', Some r') ->
        routedKind nom' r' <> k.
Proof.
  induction tabs as [| [nomx tx] tabs IH] using rev_ind; intros p j nom rj Hj Hk.
  - by rewrite lookup_nil in Hj.
  - rewrite foldl_app. simpl.
    (* is the last step a present tab routed to [k]? *)
    assert (Hlast : (exists rx, tx = Some rx /\ routedKind nomx rx = k) \/
                    (forall rx, tx = Some rx -> routedKind nomx rx <> k)).
    { destruct tx as [rx|]; [| by right].
      destruct (decide (routedKind nomx rx = k)); [left; eauto | right].
      by intros ? [= <-]. }
    destruct Hlast as [(rx & -> & Hx) | Hno].
    + exists (length tabs), nomx, rx. repeat split.
      * apply lookup_lt_Some in Hj. rewrite length_app in Hj. simpl in Hj. lia.
      * by rewrite lookup_app_r, Nat.sub_diag.
      * done.
      * unfold routeStep at 1. simpl. rewrite Hx. apply slotIs_assign_same.
      * intros l' nom' r' Hl Hl'. apply lookup_lt_Some in Hl'.
        rewrite length_app in Hl'. simpl in Hl'. lia.
    + assert (Hjlt : (j < length tabs)%nat).
      { destruct (decide (j < length tabs)%nat) as [|Hge]; [done |].
        assert (j = length tabs) as ->.
        { apply lookup_lt_Some in Hj. rewrite length_app in Hj. simpl in Hj. lia. }
        rewrite lookup_app_r, Nat.sub_diag in Hj by lia. simpl in Hj.
        injection Hj as -> ->. by destruct (Hno rj eq_refl). }
      rewrite lookup_app_l in Hj by done.
      destruct (IH p j nom rj Hj Hk) as (l & noml & rl & Hle & Hl & Hkl & Hs & Hafter).
      exists l, noml, rl. repeat split; try done.
      * rewrite lookup_app_l; [done | by eapply lookup_lt_Some].
      * unfold routeStep at 1. simpl. destruct tx as [rx|]; [| done].
        apply slotIs_assign_other; [by apply Hno | done].
      * intros l' nom' r' Hll Hl'.
        destruct (decide (l' < length tabs)%nat).
        -- rewrite lookup_app_l in Hl' by done. by eapply Hafter.
        -- assert (l' = length tabs) as ->.
           { apply lookup_lt_Some in Hl'. rewrite length_app in Hl'. simpl in Hl'. lia. }
           rewrite lookup_app_r, Nat.sub_diag in Hl' by lia. simpl in Hl'.
           injection Hl' as -> ->. by apply Hno.
Qed.

Lemma inferred_routed nom r k :
  inferType (Some r) = Some k -> routedKind nom r = k.
Proof. unfold routedKind. by intros ->. Qed.

End Routing.

(** C10.  When two fetched tabs are inferred to be the same kind, the
    record set of that kind in the returned value is the mapping of one
    tab alone: the last tab in processing order routed to that kind, which
    is the later of the two or a tab after it, and never the earlier one.
    The store is written from that record set only: afterwards the
    collection of the kind is the one from before, or empty, or exactly
    that record set as the schema stores it, so the records of the earlier
    tab are never written. *)
Theorem later_tab_overwrites
    (w : Fetch.World) (config : Orchestrator.GoogleSheetsConfig)
    (st : Orchestrator.Store)
    (rRes cRes clientsRes perfRes : option Sheets.response)
    (i j : nat) (k : Sheets.kind) (ri rj : Sheets.response) :
  Orchestrator.fetchTabs w config = (rRes, cRes, clientsRes, perfRes) ->
  let tabs := Orchestrator.tabsInOrder rRes cRes clientsRes perfRes in
  (i < j)%nat ->
  tabs.*2 !! i = Some (Some ri) -> tabs.*2 !! j = Some (Some rj) ->
  Sheets.inferType (Some ri) = Some k -> Sheets.inferType (Some rj) = Some k ->
  exists l noml rl,
    (i < l)%nat /\ (j <= l)%nat /\ tabs !! l = Some (noml, Some rl) /\
    Orchestrator.routedKind noml rl = k /\
    (forall l' nom' r', (l < l')%nat -> tabs !! l' = Some (nom', Some r') ->
       Orchestrator.routedKind nom' r' <> k) /\
    exists p,
      snd (Orchestrator.importSheetsAndSave w config st) = inr p /\
      Orchestrator.slotIs k p rl /\
      (Orchestrator.collUnchanged k st
         (fst (Orchestrator.importSheetsAndSave w config st)) \/
       Orchestrator.collEmpty k
         (fst (Orchestrator.importSheetsAndSave w config st)) \/
       Orchestrator.holdsExactly k
         (fst (Orchestrator.importSheetsAndSave w config st)) p).
Proof.
  intros Hf tabs Hij Hi Hj Hki Hkj.
  rewrite list_lookup_fmap in Hj.
  destruct (tabs !! j) as [[nomj tj]|] eqn:Hjj; [| done].
  simpl in Hj. injection Hj as ->.
  destruct (last_routed_wins k tabs Orchestrator.noRecords j nomj rj Hjj
              (inferred_routed _ _ _ Hkj))
    as (l & noml & rl & Hle & Hl & Hkl & Hs & Hafter).
  exists l, noml, rl. repeat split; try done; [lia |].
  exists (Orchestrator.parsedOf w config).
  assert (Hp : Orchestrator.parsedOf w config
               = foldl Orchestrator.routeStep Orchestrator.noRecords tabs).
  { unfold Orchestrator.parsedOf. rewrite Hf. apply parseTabs_foldl. }
  split; [| split].
  - apply importSheetsAndSave_returns.
  - by rewrite Hp.
  - rewrite import_store. apply replaceAll_outcomes.
Qed.

Lemma later_tab_overwrites_witness :
  let w := ImportSamples.keyWorld (ImportSamples.okJson ImportSamples.moreCandidatesTab)
             ImportSamples.allUp in
  let tabs := Orchestrator.tabsInOrder
                (Some ImportSamples.moreCandidatesTab) (Some ImportSamples.candidatesTab)
                (Some ImportSamples.clientsTab) (Some ImportSamples.performanceTab) in
  let st' := fst (Orchestrator.importSheetsAndSave w ImportSamples.sampleConfig
                    ImportSamples.priorStore) in
  exists l noml rl,
    (0 < l)%nat /\ (1 <= l)%nat /\ tabs !! l = Some (noml, Some rl) /\
    Orchestrator.routedKind noml rl = Sheets.KCandidates /\
    (forall l' nom' r', (l < l')%nat -> tabs !! l' = Some (nom', Some r') ->
       Orchestrator.routedKind nom' r' <> Sheets.KCandidates) /\
    exists p,
      snd (Orchestrator.importSheetsAndSave w ImportSamples.sampleConfig
             ImportSamples.priorStore) = inr p /\
      Orchestrator.slotIs Sheets.KCandidates p rl /\
      (Orchestrator.collUnchanged Sheets.KCandidates ImportSamples.priorStore st' \/
       Orchestrator.collEmpty Sheets.KCandidates st' \/
       Orchestrator.holdsExactly Sheets.KCandidates st' p).
Proof.
  apply (later_tab_overwrites
           (ImportSamples.keyWorld (ImportSamples.okJson ImportSamples.moreCandidatesTab)
              ImportSamples.allUp)
           ImportSamples.sampleConfig ImportSamples.priorStore
           (Some ImportSamples.moreCandidatesTab) (Some ImportSamples.candidatesTab)
           (Some ImportSamples.clientsTab) (Some ImportSamples.performanceTab)
           0 1 Sheets.KCandidates
           ImportSamples.moreCandidatesTab ImportSamples.candidatesTab).
  - vm_compute. reflexivity.
  - lia.
  - reflexivity.
  - reflexivity.
  - vm_compute. reflexivity.
  - vm_compute. reflexivity.
Defined.

(** In the sample the two candidate tabs leave the later one's row only. *)
Lemma sample_candidates_of_later_tab :
  Orchestrator.candidates
    (Orchestrator.parsedOf
       (ImportSamples.keyWorld (ImportSamples.okJson ImportSamples.moreCandidatesTab)
          ImportSamples.allUp)
       ImportSamples.sampleConfig)
  = Sheets.parseCandidates ImportSamples.candidatesTab.
Proof. vm_compute. reflexivity. Qed.

(** ** Scheduler *)

Section RunOnce.
Import Scheduler.
Variable key : string.

Lemma run_pass f s :
  passesRateLimit key f s ->
  run key f s =
    let hist := recentRuns key (now f - 60000) s in
    let s2 := callImport key (now f) (setHistory key (hist ++ [now f]) s) in
    match importSettles f with
    | inl err => logLine (Error_failed key err) s2
    | inr _ =>
        if updateOk f
        then logLine (Log_refreshed key (completedAt f))
                     (stampLastRun key (completedAt f) s2)
        else logLine (Error_failed key StoreError) s2
    end.
Proof.
  unfold passesRateLimit, run. intros H.
  destruct (Nat.leb_spec MAX_IMPORTS_PER_MINUTE
              (length (recentRuns key (now f - 60000) s))); [lia | done].
Qed.

Lemma run_skip f s :
  ~ passesRateLimit key f s ->
  run key f s =
    let hist := recentRuns key (now f - 60000) s in
    setHistory key hist (logLine (Warn_rateLimit key (length hist)) s).
Proof.
  unfold passesRateLimit, run. intros H.
  destruct (Nat.leb_spec MAX_IMPORTS_PER_MINUTE
              (length (recentRuns key (now f - 60000) s))); [done | lia].
Qed.

(** No fire touches the timer table. *)
Lemma run_intervals f s : intervals (run key f s) = intervals s.
Proof.
  unfold run.
  destruct (_ <=? _)%nat; [done |].
  destruct (importSettles f); [done |]. by destruct (updateOk f).
Qed.

End RunOnce.

(** C2, as the code has it.  A fire that passes the rate-limit check
    records its timestamp in the run history and invokes the import.  When
    the import returns and the update is carried out, the configuration's
    [lastRunAt] becomes the time of completion; when the import raises, the
    error is logged and no configuration is touched, so [lastRunAt] keeps
    its previous value. *)
Theorem run_stamps_on_return (key : string) (f : Scheduler.Fire) (s : Scheduler.State) :
  Scheduler.passesRateLimit key f s ->
  let s' := Scheduler.run key f s in
  Scheduler.runHistory s' !! key
    = Some (Scheduler.recentRuns key (Scheduler.now f - 60000) s ++ [Scheduler.now f])%list /\
  Scheduler.importCalls s' = (Scheduler.importCalls s ++ [(key, Scheduler.now f)])%list /\
  (forall u, Scheduler.importSettles f = inr u -> Scheduler.updateOk f = true ->
     is_Some (Scheduler.configs s !! key) ->
     Scheduler.lastRunOf key s' = Some (Scheduler.completedAt f)) /\
  (forall e, Scheduler.importSettles f = inl e ->
     Scheduler.configs s' = Scheduler.configs s /\
     Scheduler.console s' = (Scheduler.console s ++ [Scheduler.Error_failed key e])%list).
Proof.
  intros Hp s'. unfold s'. rewrite run_pass by done. simpl.
  split; [| split; [| split]].
  - destruct (Scheduler.importSettles f); [| destruct (Scheduler.updateOk f)];
      simpl; apply lookup_insert_eq.
  - by destruct (Scheduler.importSettles f); [| destruct (Scheduler.updateOk f)].
  - intros u -> -> [d Hd]. simpl. unfold Scheduler.lastRunOf. simpl.
    rewrite lookup_alter_eq, Hd. done.
  - by intros e ->.
Qed.

Lemma run_stamps_on_return_witness :
  let s' := Scheduler.run "sheet" (Scheduler.fireAt 1000) Scheduler.freshState in
  Scheduler.runHistory s' !! "sheet" = Some [1000] /\
  Scheduler.importCalls s' = [("sheet", 1000)] /\
  Scheduler.lastRunOf "sheet" s' = Some 1001.
Proof.
  assert (Hp : Scheduler.passesRateLimit "sheet" (Scheduler.fireAt 1000)
                 Scheduler.freshState) by (vm_compute; lia).
  destruct (run_stamps_on_return "sheet" (Scheduler.fireAt 1000)
              Scheduler.freshState Hp) as (H1 & H2 & H3 & _).
  split; [exact H1 | split; [exact H2 |]].
  apply (H3 tt); [reflexivity | reflexivity |].
  exists {| Scheduler.autoRefresh := true;
            Scheduler.refreshIntervalMinutes := Scheduler.minMinutes;
            Scheduler.lastRunAt := None |}.
  reflexivity.
Defined.

(** C2 as worded fails: the import of this fire raises, and the
    configuration is not stamped. *)
Lemma failed_run_not_stamped :
  ~ Scheduler.stampsEveryAttempt "sheet" Scheduler.failingFire Scheduler.freshState.
Proof.
  intros H.
  assert (Hs : Scheduler.lastRunOf "sheet"
                 (Scheduler.run "sheet" Scheduler.failingFire Scheduler.freshState)
               = Some 1200).
  { apply H.
    - vm_compute. lia.
    - eexists. reflexivity.
    - reflexivity. }
  vm_compute in Hs. discriminate Hs.
Qed.

Section RateLimiter.
Import Scheduler.
Variable key : string.

Lemma filter_window ws (h : list Z) :
  (forall t, t ∈ h -> ws <= t) -> List.filter (fun t => ws <=? t) h = h.
Proof.
  induction h as [| t h IH]; intros Hall; [done |]. simpl.
  destruct (Z.leb_spec ws t) as [_ | Hlt].
  - f_equal. apply IH. intros u Hu. apply Hall. by right.
  - assert (ws <= t) by (apply Hall; left). lia.
Qed.

Lemma skipsLogged_logLine l s :
  skipsLogged key (logLine l s)
  = (skipsLogged key s ++ (if isSkip key l then [l] else []))%list.
Proof.
  unfold skipsLogged, logLine. simpl. rewrite List.filter_app. simpl.
  by destruct (isSkip key l).
Qed.

Lemma isSkip_warn n : isSkip key (Warn_rateLimit key n) = true.
Proof. simpl. apply String.eqb_refl. Qed.

(** The state after one fire whose window holds the whole history [h]. *)
Lemma run_in_window f s h :
  default [] (runHistory s !! key) = h ->
  (forall t, t ∈ h -> now f - 60000 <= t) ->
  let s' := run key f s in
  intervals s' = intervals s /\
  if decide (length h < MAX_IMPORTS_PER_MINUTE)%nat then
    runHistory s' !! key = Some (h ++ [now f])%list /\
    importCalls s' = (importCalls s ++ [(key, now f)])%list /\
    skipsLogged key s' = skipsLogged key s
  else
    runHistory s' !! key = Some h /\
    importCalls s' = importCalls s /\
    skipsLogged key s' = (skipsLogged key s ++ [Warn_rateLimit key (length h)])%list.
Proof.
  intros Hh Hwin s'. split; [apply run_intervals |].
  assert (Hrec : recentRuns key (now f - 60000) s = h).
  { unfold recentRuns. rewrite Hh. by apply filter_window. }
  unfold s'. case_decide as Hlen.
  - rewrite run_pass by (unfold passesRateLimit; by rewrite Hrec).
    simpl. rewrite Hrec.
    destruct (importSettles f); [| destruct (updateOk f)];
      rewrite skipsLogged_logLine; simpl; rewrite app_nil_r;
      (split; [apply lookup_insert_eq | done]).
  - rewrite run_skip by (unfold passesRateLimit; by rewrite Hrec).
    simpl. rewrite Hrec. split; [apply lookup_insert_eq |]. split; [done |].
    change (skipsLogged key (setHistory key h (logLine (Warn_rateLimit key (length h)) s)))
      with (skipsLogged key (logLine (Warn_rateLimit key (length h)) s)).
    by rewrite skipsLogged_logLine, isSkip_warn.
Qed.

(** Any number of fires in one window, started from a history [h] that
    lies in the window of every one of them: the first [20 - length h]
    invoke the import and the rest are skipped. *)
Lemma runAll_in_window (fires : list Fire) :
  forall s h,
    default [] (runHistory s !! key) = h ->
    (length h <= MAX_IMPORTS_PER_MINUTE)%nat ->
    (forall t f, t ∈ h -> f ∈ fires -> now f - 60000 <= t) ->
    withinOneWindow fires ->
    let n := (MAX_IMPORTS_PER_MINUTE - length h)%nat in
    let s' := runAll key fires s in
    intervals s' = intervals s /\
    default [] (runHistory s' !! key) = (h ++ map now (take n fires))%list /\
    importCalls s'
      = (importCalls s ++ map (fun f => (key, now f)) (take n fires))%list /\
    skipsLogged key s'
      = (skipsLogged key s ++
         replicate (length fires - n) (Warn_rateLimit key MAX_IMPORTS_PER_MINUTE))%list.
Proof.
  induction fires as [| f fires IH]; intros s h Hh Hlen Hwin Hpair n s'.
  - unfold s', n. simpl. rewrite take_nil. simpl. by rewrite !app_nil_r.
  - unfold s', runAll. simpl. fold (runAll key fires (run key f s)).
    destruct (run_in_window f s h Hh) as [Hi Hrun].
    { intros t Ht. apply Hwin; [done | by left]. }
    assert (Hpair' : withinOneWindow fires).
    { intros a b Ha Hb. apply Hpair; by right. }
    case_decide as Hlt.
    + destruct Hrun as (Hr & Hc & Hk).
      destruct (IH (run key f s) (h ++ [now f])%list) as (Hi' & Hr' & Hc' & Hk').
      * by rewrite Hr.
      * rewrite length_app. simpl. lia.
      * intros t g Ht Hg. apply elem_of_app in Ht as [Ht | Ht].
        -- apply Hwin; [done | by right].
        -- apply list_elem_of_singleton in Ht as ->. apply Hpair; [by left | by right].
      * done.
      * rewrite length_app in *. simpl in *.
        replace n with (S (MAX_IMPORTS_PER_MINUTE - (length h + 1)))%nat
          by (unfold n; lia).
        simpl. rewrite Hi', Hi, Hr', Hc', Hc, Hk', Hk, <- !app_assoc. simpl.
        repeat split; try done.
    + destruct Hrun as (Hr & Hc & Hk).
      destruct (IH (run key f s) h) as (Hi' & Hr' & Hc' & Hk').
      * by rewrite Hr.
      * done.
      * intros t g Ht Hg. apply Hwin; [done | by right].
      * done.
      * assert (Hn : n = 0%nat) by (unfold n; lia).
        assert (Hfull : length h = MAX_IMPORTS_PER_MINUTE) by lia.
        rewrite Hn in *.
        replace (MAX_IMPORTS_PER_MINUTE - length h)%nat with 0%nat in * by lia.
        rewrite !take_0 in *. simpl in *.
        rewrite Hi', Hi, Hr', Hc', Hc, Hk', Hk, Hfull, <- app_assoc. simpl.
        repeat split; try done. rewrite Nat.sub_0_r. done.
Qed.

End RateLimiter.

(** A fire filters the history before it reads it, so it acts the same on
    a history already filtered for its window. *)
Lemma run_filtered (key : string) (f : Scheduler.Fire) (s : Scheduler.State) :
  Scheduler.run key f s
  = Scheduler.run key f
      (Scheduler.setHistory key
         (Scheduler.recentRuns key (Scheduler.now f - 60000) s) s).
Proof.
  unfold Scheduler.run.
  assert (Hr : Scheduler.recentRuns key (Scheduler.now f - 60000)
                 (Scheduler.setHistory key
                    (Scheduler.recentRuns key (Scheduler.now f - 60000) s) s)
               = Scheduler.recentRuns key (Scheduler.now f - 60000) s).
  { unfold Scheduler.recentRuns, Scheduler.setHistory. simpl.
    rewrite lookup_insert_eq. simpl.
    induction (default [] (Scheduler.runHistory s !! key)) as [| t h IH]; [done |].
    simpl. destruct (Scheduler.now f - 60000 <=? t) eqn:E; [| done].
    simpl. by rewrite E, IH. }
  rewrite Hr.
  destruct (_ <=? _)%nat.
  - unfold Scheduler.setHistory, Scheduler.logLine. simpl.
    by rewrite insert_insert_eq.
  - destruct (Scheduler.importSettles f); [| destruct (Scheduler.updateOk f)];
      unfold Scheduler.setHistory, Scheduler.logLine, Scheduler.callImport,
        Scheduler.stampLastRun; simpl; by rewrite insert_insert_eq.
Qed.

Lemma run_history_some (key : string) (f : Scheduler.Fire) (s : Scheduler.State) :
  is_Some (Scheduler.runHistory (Scheduler.run key f s) !! key).
Proof.
  unfold Scheduler.run. destruct (_ <=? _)%nat; simpl.
  - rewrite lookup_insert_eq. by eexists.
  - destruct (Scheduler.importSettles f); [| destruct (Scheduler.updateOk f)];
      simpl; rewrite lookup_insert_eq; by eexists.
Qed.

Lemma runAll_history_some (key : string) (fires : list Scheduler.Fire)
    (s : Scheduler.State) :
  fires <> [] ->
  is_Some (Scheduler.runHistory (Scheduler.runAll key fires s) !! key).
Proof.
  destruct fires as [| g fires _] using rev_ind; [done |]. intros _.
  unfold Scheduler.runAll. rewrite foldl_app. simpl. apply run_history_some.
Qed.

(** C3, as the code has it.  Twenty-five fires for one key inside one
    60-second window.  The runs the key's history already holds in that
    window count against the ceiling; the job's own immediate run is one
    of them when it is that recent.  With [m] such runs, [m] at most 20,
    the first [20 - m] fires invoke the import and are recorded, in order,
    after those runs; the other [5 + m] fires log the rate-limit warning
    and invoke nothing; the timer table is as it was. *)
Theorem rate_limiter_burst (key : string) (f0 : Scheduler.Fire)
    (rest : list Scheduler.Fire) (s : Scheduler.State) :
  let fires := f0 :: rest in
  let recent := Scheduler.recentRuns key (Scheduler.now f0 - 60000) s in
  let m := length recent in
  length fires = 25%nat ->
  Scheduler.withinOneWindow fires ->
  (forall t f, t ∈ recent -> f ∈ fires -> Scheduler.now f - 60000 <= t) ->
  (m <= 20)%nat ->
  let s' := Scheduler.runAll key fires s in
  Scheduler.importCalls s'
    = (Scheduler.importCalls s ++
       map (fun f => (key, Scheduler.now f)) (take (20 - m) fires))%list /\
  length (take (20 - m) fires) = (20 - m)%nat /\
  Scheduler.runHistory s' !! key
    = Some (recent ++ map Scheduler.now (take (20 - m) fires))%list /\
  Scheduler.skipsLogged key s'
    = (Scheduler.skipsLogged key s ++
       replicate (5 + m) (Scheduler.Warn_rateLimit key 20))%list /\
  Scheduler.intervals s' = Scheduler.intervals s.
Proof.
  intros fires recent m Hlen Hwin Hrec Hm s'.
  set (s0 := Scheduler.setHistory key recent s).
  assert (Hs' : s' = Scheduler.runAll key fires s0).
  { unfold s', fires, Scheduler.runAll. simpl. by rewrite run_filtered. }
  destruct (runAll_in_window key fires s0 recent) as (Hi & Hr & Hc & Hk).
  - unfold s0. simpl. by rewrite lookup_insert_eq.
  - done.
  - done.
  - done.
  - rewrite <- Hs' in Hi, Hr, Hc, Hk.
    change (Scheduler.MAX_IMPORTS_PER_MINUTE - length recent)%nat
      with (20 - m)%nat in *.
    change Scheduler.MAX_IMPORTS_PER_MINUTE with 20%nat in Hk.
    assert (Ht : length (take (20 - m) fires) = (20 - m)%nat)
      by (rewrite length_take; lia).
    rewrite Hlen in Hk. replace (25 - (20 - m))%nat with (5 + m)%nat in Hk by lia.
    split; [exact Hc |]. split; [exact Ht |]. split; [| split; [exact Hk | exact Hi]].
    destruct (Scheduler.runHistory s' !! key) as [h |] eqn:Eh; simpl in Hr.
    + by rewrite Hr.
    + exfalso. destruct (runAll_history_some key fires s) as [h Hh]; [done |].
      fold s' in Hh. congruence.
Qed.

Lemma burst_within_one_window : Scheduler.withinOneWindow Scheduler.burst.
Proof.
  intros f g Hf Hg. unfold Scheduler.burst in *.
  apply list_elem_of_fmap in Hf as (i & -> & Hi).
  apply list_elem_of_fmap in Hg as (j & -> & Hj).
  apply elem_of_seq in Hi. apply elem_of_seq in Hj. simpl. lia.
Qed.

(** The witness: the job has just been started, so the history holds its
    immediate run, and nineteen of the twenty-five fires invoke the
    import. *)
Lemma rate_limiter_burst_witness :
  let s := Scheduler.startedState in
  let s' := Scheduler.runAll "sheet" Scheduler.burst s in
  Scheduler.importCalls s'
    = (Scheduler.importCalls s ++
       map (fun f => ("sheet", Scheduler.now f)) (take 19 Scheduler.burst))%list /\
  length (take 19 Scheduler.burst) = 19%nat /\
  Scheduler.runHistory s' !! "sheet"
    = Some ([0] ++ map Scheduler.now (take 19 Scheduler.burst))%list /\
  Scheduler.skipsLogged "sheet" s'
    = (Scheduler.skipsLogged "sheet" s ++
       replicate 6 (Scheduler.Warn_rateLimit "sheet" 20))%list /\
  Scheduler.intervals s' = Scheduler.intervals s.
Proof.
  apply (rate_limiter_burst "sheet" (Scheduler.fireAt 0)
           (map (fun i => Scheduler.fireAt (100 * Z.of_nat i)) (seq 1 24))
           Scheduler.startedState).
  - reflexivity.
  - exact burst_within_one_window.
  - intros t f Ht Hf. vm_compute in Ht.
    apply list_elem_of_singleton in Ht as ->.
    change (Scheduler.fireAt 0 ::
            map (fun i => Scheduler.fireAt (100 * Z.of_nat i)) (seq 1 24))
      with Scheduler.burst in Hf.
    unfold Scheduler.burst in Hf.
    apply list_elem_of_fmap in Hf as (i & -> & Hi).
    apply elem_of_seq in Hi. simpl. lia.
  - vm_compute. lia.
Defined.

(** C3 as worded fails in the state a started job is in: the immediate
    run is in the history, and only nineteen of twenty-five fires in its
    window invoke the import. *)
Lemma started_job_burst_invokes_nineteen :
  ~ Scheduler.burstInvokesTwenty "sheet" Scheduler.burst Scheduler.startedState.
Proof.
  intros H. destruct (H eq_refl burst_within_one_window) as [Hc _].
  vm_compute in Hc. discriminate Hc.
Qed.

(** ** Strings and decimal digits *)

#[local] Arguments String.append : simpl nomatch.

Section StringFacts.
Import Js.

Lemma app_nil_r_s (s : string) : s +:+ "" = s.
Proof. induction s as [| c s IH]; simpl; [done | by rewrite IH]. Qed.

Lemma app_assoc_s (a b c : string) : (a +:+ b) +:+ c = a +:+ (b +:+ c).
Proof. induction a as [| x a IH]; simpl; [done | by rewrite IH]. Qed.

Lemma length_app_s (a b : string) :
  String.length (a +:+ b) = (String.length a + String.length b)%nat.
Proof. induction a as [| x a IH]; simpl; [done | by rewrite IH]. Qed.

Lemma snoc_app (a : string) (c : ascii) (b : string) :
  snoc a c +:+ b = a +:+ String c b.
Proof. unfold snoc. by rewrite app_assoc_s. Qed.

Lemma length_snoc (a : string) (c : ascii) :
  String.length (snoc a c) = S (String.length a).
Proof. unfold snoc. rewrite length_app_s. simpl. lia. Qed.

Lemma substring_prefix (a b : string) :
  substring 0 (String.length a) (a +:+ b) = a.
Proof.
  induction a as [| x a IH]; simpl.
  - by destruct b.
  - by rewrite IH.
Qed.

Lemma substring_all (b : string) : substring 0 (String.length b) b = b.
Proof. induction b as [| x b IH]; simpl; [done | by rewrite IH]. Qed.

Lemma substring_suffix (a b : string) :
  substring (String.length a) (String.length b) (a +:+ b) = b.
Proof.
  induction a as [| x a IH]; simpl; [apply substring_all | done].
Qed.

Lemma allChars_app p (a b : string) :
  allChars p (a +:+ b) = allChars p a && allChars p b.
Proof.
  induction a as [| x a IH]; simpl; [done |].
  by rewrite IH, andb_assoc.
Qed.

Lemma isEmpty_app (a b : string) : isEmpty (a +:+ b) = isEmpty a && isEmpty b.
Proof. by destruct a. Qed.

End StringFacts.

Section Digits.
Import Js JsNumber.

Lemma isDigit_digitChar d : 0 <= d < 10 -> isDigit (digitChar d) = true.
Proof.
  intros Hd. assert (Hc : In d [0;1;2;3;4;5;6;7;8;9]) by (simpl; lia).
  simpl in Hc. by repeat destruct Hc as [<- | Hc].
Qed.

Lemma digitVal_digitChar d : 0 <= d < 10 -> digitVal (digitChar d) = d.
Proof.
  intros Hd. assert (Hc : In d [0;1;2;3;4;5;6;7;8;9]) by (simpl; lia).
  simpl in Hc. by repeat destruct Hc as [<- | Hc].
Qed.

Lemma isNumChar_digit c : isDigit c = true -> isNumChar c = true.
Proof. unfold isNumChar. by intros ->. Qed.

Lemma length_digitsK k s : String.length (digitsK k s) = k.
Proof.
  revert s. induction k as [| k IH]; intros s; simpl; [done |].
  by rewrite length_snoc, IH.
Qed.

Lemma length_zeros n : String.length (zeros n) = n.
Proof. induction n as [| n IH]; simpl; [done | by rewrite IH]. Qed.

Lemma digitsK_plain k s : allChars isNumChar (digitsK k s) = true.
Proof.
  revert s. induction k as [| k IH]; intros s; simpl; [done |].
  unfold snoc. rewrite allChars_app, IH. simpl.
  rewrite isNumChar_digit; [done |].
  apply isDigit_digitChar. apply Z.mod_pos_bound. lia.
Qed.

Lemma zeros_plain n : allChars isNumChar (zeros n) = true.
Proof. induction n as [| n IH]; simpl; [done | by rewrite IH]. Qed.

(** Reading the [k] digits of [s] extends the accumulator by them. *)
Lemma scanDigits_digitsK k : forall s rest acc cnt,
  scanDigits (digitsK k s +:+ rest) acc cnt
  = scanDigits rest (acc * 10 ^ Z.of_nat k + s mod 10 ^ Z.of_nat k)
      (cnt + Z.of_nat k).
Proof.
  induction k as [| k IH]; intros s rest acc cnt.
  - simpl. rewrite Z.mod_1_r. f_equal; lia.
  - simpl digitsK. rewrite snoc_app, IH. simpl scanDigits.
    rewrite isDigit_digitChar by (apply Z.mod_pos_bound; lia).
    rewrite digitVal_digitChar by (apply Z.mod_pos_bound; lia).
    rewrite Nat2Z.inj_succ, Z.pow_succ_r by lia.
    f_equal; [| lia].
    rewrite (Z.mul_comm 10 (10 ^ Z.of_nat k)).
    assert (Hp : 0 < 10 ^ Z.of_nat k) by (apply Z.pow_pos_nonneg; lia).
    rewrite (Z.mul_comm (10 ^ Z.of_nat k) 10), Z.rem_mul_r by lia.
    lia.
Qed.

Lemma scanDigits_zeros n : forall rest acc cnt,
  scanDigits (zeros n +:+ rest) acc cnt
  = scanDigits rest (acc * 10 ^ Z.of_nat n) (cnt + Z.of_nat n).
Proof.
  induction n as [| n IH]; intros rest acc cnt.
  - simpl. f_equal; lia.
  - simpl. rewrite IH. rewrite Z.add_0_r.
    f_equal; [| lia].
    rewrite <- Z.mul_assoc. f_equal.
    rewrite Nat2Z.inj_succ, Z.pow_succ_r by lia. done.
Qed.

(** The digits split into the leading [a] and the trailing [b] ones. *)
Lemma digitsK_split b : forall a s,
  digitsK (a + b) s = digitsK a (s / 10 ^ Z.of_nat b) +:+ digitsK b s.
Proof.
  induction b as [| b IH]; intros a s.
  - rewrite Nat.add_0_r. simpl. by rewrite Z.div_1_r, app_nil_r_s.
  - rewrite Nat.add_succ_r. simpl. rewrite IH. unfold snoc.
    rewrite app_assoc_s. f_equal.
    rewrite Z.div_div by (try apply Z.pow_pos_nonneg; lia).
    rewrite Nat2Z.inj_succ, Z.pow_succ_r by lia. done.
Qed.

End Digits.

(** ** Numeric coercion *)

Section Coercion.
Import Js JsNumber.

(** Rounding is symmetric: the sign of the literal only sets the sign of
    the result. *)
Lemma roundQ_sign neg q : roundQ neg q = withSign neg (roundQ false q).
Proof.
  unfold roundQ. destruct (Qnum (Qred q)) as [| p | p]; try reflexivity.
  unfold SFdiv.
  destruct (SFdiv_core_binary prec emax (Z.pos p) 0 (Z.pos (Qden (Qred q))) 0)
    as [[mz ez] lz].
  unfold binary_round_aux.
  destruct (shr_fexp prec emax mz ez lz) as [mrs' e'].
  destruct (shr_fexp prec emax _ e' loc_Exact) as [mrs'' e''].
  rewrite xorb_false_r.
  destruct (shr_m mrs'') as [| m | m]; simpl; try reflexivity.
  by destruct (e'' <=? emax - prec).
Qed.

(** [parseNum] yields neither NaN nor a signed zero. *)
Lemma parseNum_zero x sg : parseNum x = S754_zero sg -> sg = false.
Proof.
  unfold parseNum, orZero, posZero. destruct (isEmpty x); [congruence |].
  destruct (Number (stripNonNumeric x)); simpl; congruence.
Qed.

Lemma parseNum_not_nan x : parseNum x <> S754_nan.
Proof.
  unfold parseNum, orZero, posZero. destruct (isEmpty x); [congruence |].
  destruct (Number (stripNonNumeric x)); simpl; congruence.
Qed.

Lemma stripNonNumeric_plain str : plainDecimal str -> stripNonNumeric str = str.
Proof.
  unfold plainDecimal. induction str as [| c r IH]; simpl; [done |].
  destruct (isNumChar c); simpl; [| done]. intros H. by rewrite IH.
Qed.

Lemma digit_not_minus c : isDigit c = true -> Ascii.eqb c "-" = false.
Proof.
  intros H. destruct (Ascii.eqb_spec c "-") as [-> |]; [| done].
  vm_compute in H. discriminate.
Qed.

Lemma digitsK_head K s rest :
  exists c r, digitsK (S K) s +:+ rest = String c r /\ isDigit c = true.
Proof.
  replace (S K) with (1 + K)%nat by lia. rewrite digitsK_split.
  simpl. eexists _, _. split; [reflexivity |].
  apply isDigit_digitChar. apply Z.mod_pos_bound. lia.
Qed.

Lemma decimalLiteral_integer neg K s j :
  decimalLiteral neg (digitsK (S K) s +:+ zeros j)
  = roundQ neg ((s mod 10 ^ Z.of_nat (S K) * 10 ^ Z.of_nat j) # 1).
Proof.
  unfold decimalLiteral.
  rewrite scanDigits_digitsK, <- (app_nil_r_s (zeros j)), scanDigits_zeros.
  simpl scanDigits. cbv iota beta.
  destruct (Z.eqb_spec (0 + Z.of_nat (S K) + Z.of_nat j) 0) as [H |]; [lia |].
  do 2 f_equal; lia.
Qed.

Lemma decimalLiteral_fraction neg a hi b lo :
  (1 <= a + b)%nat ->
  decimalLiteral neg (digitsK a hi +:+ String "." (digitsK b lo))
  = roundQ neg ((hi mod 10 ^ Z.of_nat a * 10 ^ Z.of_nat b + lo mod 10 ^ Z.of_nat b)
                # Z.to_pos (10 ^ Z.of_nat b)).
Proof.
  intros Hab. unfold decimalLiteral.
  rewrite scanDigits_digitsK. simpl scanDigits. cbv iota beta.
  rewrite <- (app_nil_r_s (digitsK b lo)), scanDigits_digitsK.
  simpl scanDigits. cbv iota beta.
  destruct (Z.eqb_spec (0 + Z.of_nat a + (0 + Z.of_nat b)) 0) as [H |]; [lia |].
  do 2 f_equal; lia.
Qed.

Lemma decimalLiteral_small neg j K s :
  decimalLiteral neg ("0." +:+ zeros j +:+ digitsK K s)
  = roundQ neg ((s mod 10 ^ Z.of_nat K) # Z.to_pos (10 ^ Z.of_nat (j + K))).
Proof.
  unfold decimalLiteral. simpl scanDigits. cbv iota beta.
  rewrite scanDigits_zeros, <- (app_nil_r_s (digitsK K s)), scanDigits_digitsK.
  simpl scanDigits. cbv iota beta.
  destruct (Z.eqb_spec (0 + 1 + (0 + Z.of_nat j + Z.of_nat K)) 0) as [H |]; [lia |].
  rewrite Ascii.eqb_refl. change (digitVal "0") with 0.
  f_equal. f_equal; try lia. do 2 f_equal; lia.
Qed.

End Coercion.

Section PlainNotation.
Import Js JsNumber.

Lemma substring_digits_hi N M s :
  substring 0 N (digitsK (N + M) s) = digitsK N (s / 10 ^ Z.of_nat M).
Proof.
  rewrite digitsK_split.
  rewrite <- (length_digitsK N (s / 10 ^ Z.of_nat M)) at 1.
  apply substring_prefix.
Qed.

Lemma substring_digits_lo N M s :
  substring N M (digitsK (N + M) s) = digitsK M s.
Proof.
  rewrite digitsK_split.
  rewrite <- (length_digitsK N (s / 10 ^ Z.of_nat M)) at 1.
  rewrite <- (length_digitsK M s) at 2.
  apply substring_suffix.
Qed.

(** Outside the range of plain notation the string has an exponent part. *)
Lemma formatDecimal_plain_range n k s :
  plainDecimal (formatDecimal n k s) -> -5 <= n <= 21.
Proof.
  unfold formatDecimal, plainDecimal.
  destruct ((-5 <=? n) && (n <=? 21)) eqn:E; [lia |].
  destruct (k =? 1); rewrite !allChars_app; simpl;
    rewrite ?andb_false_r; simpl; discriminate.
Qed.

(** In plain notation the string reads back, as a decimal literal of
    either sign, to the real number it was built from. *)
Lemma formatDecimal_literal n k s :
  1 <= k -> 10 ^ (k - 1) <= s < 10 ^ k -> -5 <= n <= 21 ->
  (forall neg,
     decimalLiteral neg (formatDecimal n k s) = roundQ neg (scaled s (n - k))) /\
  (exists c r, formatDecimal n k s = String c r /\ isDigit c = true) /\
  plainDecimal (formatDecimal n k s).
Proof.
  intros Hk Hs Hn.
  assert (Hpos : 0 < 10 ^ (k - 1)) by (apply Z.pow_pos_nonneg; lia).
  destruct (Z.to_nat k) as [| K] eqn:HK; [lia |].
  assert (Hk' : k = Z.of_nat (S K)) by lia.
  assert (Hmod : s mod 10 ^ Z.of_nat (S K) = s)
    by (apply Z.mod_small; rewrite <- Hk'; lia).
  unfold formatDecimal, plainDecimal. rewrite HK.
  rewrite (proj2 (Z.leb_le (-5) n)), (proj2 (Z.leb_le n 21)) by lia. simpl andb.
  cbv iota.
  destruct (Z.leb_spec k n) as [Hkn | Hkn]; [| destruct (Z.ltb_spec 0 n) as [H0 | H0]].
  - (* digits followed by zeros *)
    split; [| split].
    + intros neg. rewrite decimalLiteral_integer, Hmod. unfold scaled.
      rewrite (proj2 (Z.leb_le 0 (n - k))) by lia.
      rewrite Z2Nat.id by lia. reflexivity.
    + apply digitsK_head.
    + by rewrite allChars_app, digitsK_plain, zeros_plain.
  - (* a dot inside the digits *)
    destruct (Z.to_nat n) as [| N] eqn:HN; [lia |].
    set (M := Z.to_nat (k - n)).
    assert (HKM : S K = (S N + M)%nat) by lia.
    rewrite HKM, substring_digits_hi, substring_digits_lo.
    assert (HM : 0 < 10 ^ Z.of_nat M) by (apply Z.pow_pos_nonneg; lia).
    assert (Hsplit : 10 ^ k = 10 ^ Z.of_nat (S N) * 10 ^ Z.of_nat M)
      by (rewrite <- Z.pow_add_r by lia; f_equal; lia).
    split; [| split].
    + intros neg.
      change ("." +:+ digitsK M s) with (String "." (digitsK M s)).
      rewrite decimalLiteral_fraction by lia. unfold scaled.
      rewrite (proj2 (Z.leb_gt 0 (n - k))) by lia.
      replace (- (n - k)) with (Z.of_nat M) by lia.
      f_equal. f_equal.
      rewrite Z.mod_small.
      * pose proof (Z.div_mod s (10 ^ Z.of_nat M)). lia.
      * split; [apply Z.div_pos; lia |].
        apply Z.div_lt_upper_bound; [lia |]. rewrite Z.mul_comm. lia.
    + apply digitsK_head.
    + by rewrite !allChars_app, !digitsK_plain.
  - (* leading zeros after the dot *)
    split; [| split].
    + intros neg. rewrite decimalLiteral_small, Hmod. unfold scaled.
      rewrite (proj2 (Z.leb_gt 0 (n - k))) by lia.
      replace (- (n - k)) with (Z.of_nat (Z.to_nat (- n) + S K)) by lia.
      reflexivity.
    + simpl. by eexists _, _.
    + rewrite !allChars_app, digitsK_plain, zeros_plain. done.
Qed.

End PlainNotation.

(** C7, as the code has it.  [parseNum(parseNum(x).toString())] equals
    [parseNum(x)] whenever the string [parseNum(x).toString()] is in plain
    decimal notation, that is, holds digits, a dot and a minus sign only
    (the number is 0 or of magnitude from 1e-6 up to, not including,
    1e21). *)
Theorem parseNum_idempotent_plain (x str : string) :
  JsNumber.toString (JsNumber.parseNum x) str ->
  JsNumber.plainDecimal str ->
  JsNumber.parseNum str = JsNumber.parseNum x.
Proof.
  intros Hts Hplain.
  remember (JsNumber.parseNum x) as v eqn:Hv.
  destruct Hts as [| sg | | | m e n k s Hsh | m e n k s Hsh].
  - by destruct (parseNum_not_nan x).
  - symmetry in Hv. apply parseNum_zero in Hv as ->. reflexivity.
  - vm_compute in Hplain. discriminate.
  - vm_compute in Hplain. discriminate.
  - destruct Hsh as [Hk Hs Hval _].
    destruct (formatDecimal_literal n k s Hk Hs (formatDecimal_plain_range _ _ _ Hplain))
      as (Hlit & (c & r & Hcr & Hc) & _).
    unfold JsNumber.parseNum at 1.
    rewrite (stripNonNumeric_plain _ Hplain).
    specialize (Hlit false). rewrite Hcr in *. simpl.
    rewrite (digit_not_minus _ Hc), Hlit, Hval. reflexivity.
  - assert (Hplain' : JsNumber.plainDecimal (JsNumber.formatDecimal n k s)).
    { unfold JsNumber.plainDecimal in *. simpl in Hplain. exact Hplain. }
    destruct Hsh as [Hk Hs Hval _].
    destruct (formatDecimal_literal n k s Hk Hs (formatDecimal_plain_range _ _ _ Hplain'))
      as (Hlit & _).
    unfold JsNumber.parseNum at 1.
    rewrite (stripNonNumeric_plain _ Hplain). simpl.
    rewrite (Hlit true), roundQ_sign, Hval. reflexivity.
Qed.

Lemma toString_7000 :
  JsNumber.toString (JsNumber.parseNum "$7,000") "7000".
Proof.
  change (JsNumber.parseNum "$7,000")
    with (S754_finite false 7696581394432000 (-40)).
  change "7000" with (JsNumber.formatDecimal 4 1 7).
  apply JsNumber.ts_pos. split.
  - lia.
  - simpl. lia.
  - vm_compute. reflexivity.
  - intros n' k' s' Hk' _ _. exact Hk'.
Qed.

Lemma parseNum_idempotent_plain_witness :
  JsNumber.parseNum "7000" = JsNumber.parseNum "$7,000".
Proof.
  apply (parseNum_idempotent_plain "$7,000" "7000").
  - exact toString_7000.
  - vm_compute. reflexivity.
Defined.

(** The number read from [0.0000001] prints with an exponent part. *)
Lemma toString_1e_7 :
  JsNumber.toString (JsNumber.parseNum "0.0000001") "1e-7".
Proof.
  change (JsNumber.parseNum "0.0000001")
    with (S754_finite false 7555786372591432 (-76)).
  change "1e-7" with (JsNumber.formatDecimal (-6) 1 1).
  apply JsNumber.ts_pos. split.
  - lia.
  - simpl. lia.
  - vm_compute. reflexivity.
  - intros n' k' s' Hk' _ _. exact Hk'.
Qed.

(** C7 as worded fails: [0.0000001] is coerced to 1e-7, whose string
    [1e-7] is stripped to [1-7] and coerced to 0. *)
Lemma coercion_not_idempotent : ~ JsNumber.coercionIdempotent "0.0000001".
Proof.
  intros H. specialize (H "1e-7" toString_1e_7).
  vm_compute in H. discriminate H.
Qed.

(** So does a number of 1e21 or more: twenty-two digits come back as 121. *)
Lemma coercion_of_1e21 :
  JsNumber.toString (JsNumber.parseNum "1000000000000000000000") "1e+21" /\
  JsNumber.parseNum "1e+21" = JsNumber.ofZ 121 /\
  JsNumber.parseNum "1000000000000000000000" <> JsNumber.ofZ 121.
Proof.
  split; [| split].
  - change (JsNumber.parseNum "1000000000000000000000")
      with (S754_finite false 7629394531250000 17).
    change "1e+21" with (JsNumber.formatDecimal 22 1 1).
    apply JsNumber.ts_pos. split.
    + lia.
    + simpl. lia.
    + vm_compute. reflexivity.
    + intros n' k' s' Hk' _ _. exact Hk'.
  - vm_compute. reflexivity.
  - vm_compute. intros H. discriminate H.
Qed.

(** ** The CSV parser *)

Section CsvScanning.
Import Js Csv.

Lemma allChars_impl (p p' : ascii -> bool) s :
  (forall c, p c = true -> p' c = true) ->
  allChars p s = true -> allChars p' s = true.
Proof.
  intros Hpp. induction s as [| c s IH]; simpl; [done |].
  intros [Hc Hs]%andb_prop. by rewrite (Hpp c Hc), IH.
Qed.

Lemma scanLines_kept u : forall rest cur q lines,
  allChars (keptByLines q) u = true ->
  scanLines (u +:+ rest) cur q lines = scanLines rest (cur +:+ u) q lines.
Proof.
  induction u as [| c u IH]; intros rest cur q lines Hu.
  - by rewrite app_nil_r_s.
  - simpl in Hu. apply andb_prop in Hu as [Hc Hu].
    unfold keptByLines in Hc.
    apply andb_prop in Hc as [[Hq Hcr]%andb_prop Hlf].
    apply negb_true_iff in Hq, Hcr.
    simpl. rewrite Hq, Hcr.
    replace (Ascii.eqb c LF && negb q) with false
      by (destruct (Ascii.eqb c LF), q; done).
    rewrite IH by done. by rewrite snoc_app.
Qed.

Lemma scanLines_quote rest cur q lines :
  startsWithQuote rest = false ->
  scanLines (String dquote rest) cur q lines
  = scanLines rest (snoc cur dquote) (negb q) lines.
Proof.
  intros Hr. simpl. destruct rest as [| c r]; [done |].
  simpl in Hr. by rewrite Hr.
Qed.

Lemma scanCols_kept u : forall rest field ins cols,
  allChars (keptByCols ins) u = true ->
  scanCols (u +:+ rest) field ins cols = scanCols rest (field +:+ u) ins cols.
Proof.
  induction u as [| c u IH]; intros rest field ins cols Hu.
  - by rewrite app_nil_r_s.
  - simpl in Hu. apply andb_prop in Hu as [Hc Hu].
    unfold keptByCols in Hc. apply andb_prop in Hc as [Hq Hcm].
    apply negb_true_iff in Hq.
    simpl. rewrite Hq.
    replace (Ascii.eqb c comma && negb ins) with false
      by (destruct (Ascii.eqb c comma), ins; done).
    rewrite IH by done. by rewrite snoc_app.
Qed.

Lemma scanCols_open rest field cols :
  scanCols (String dquote rest) field false cols = scanCols rest field true cols.
Proof. simpl. by destruct rest. Qed.

Lemma scanCols_close rest field cols :
  startsWithQuote rest = false ->
  scanCols (String dquote rest) field true cols = scanCols rest field false cols.
Proof.
  intros Hr. simpl. destruct rest as [| c r]; [done |].
  simpl in Hr. by rewrite Hr.
Qed.

End CsvScanning.

Section CsvFields.
Import Js Csv.

Lemma doubleQuotes_plain f : noQuoteCR f = true -> doubleQuotes f = f.
Proof.
  unfold noQuoteCR. induction f as [| c f IH]; simpl; [done |].
  intros [[Hq _]%andb_prop Hf]%andb_prop. apply negb_true_iff in Hq.
  by rewrite Hq, IH.
Qed.

Lemma unquoted_keptByLines f :
  needsQuotes f = false -> allChars (keptByLines false) f = true.
Proof.
  unfold needsQuotes. intros H%negb_false_iff. revert H.
  apply allChars_impl. intros c. unfold keptByLines.
  destruct (Ascii.eqb c comma), (Ascii.eqb c dquote), (Ascii.eqb c CR),
    (Ascii.eqb c LF); done.
Qed.

Lemma unquoted_keptByCols f :
  needsQuotes f = false -> allChars (keptByCols false) f = true.
Proof.
  unfold needsQuotes. intros H%negb_false_iff. revert H.
  apply allChars_impl. intros c. unfold keptByCols.
  destruct (Ascii.eqb c comma), (Ascii.eqb c dquote), (Ascii.eqb c CR),
    (Ascii.eqb c LF); done.
Qed.

Lemma plain_keptByLines f :
  noQuoteCR f = true -> allChars (keptByLines true) f = true.
Proof.
  apply allChars_impl. intros c. unfold keptByLines.
  destruct (Ascii.eqb c dquote), (Ascii.eqb c CR), (Ascii.eqb c LF); done.
Qed.

Lemma plain_keptByCols f :
  noQuoteCR f = true -> allChars (keptByCols true) f = true.
Proof.
  apply allChars_impl. intros c. unfold keptByCols.
  destruct (Ascii.eqb c dquote), (Ascii.eqb c CR), (Ascii.eqb c comma); done.
Qed.

Lemma startsWithQuote_app f rest :
  noQuoteCR f = true -> startsWithQuote rest = false ->
  startsWithQuote (f +:+ rest) = false.
Proof.
  destruct f as [| c f]; [done |]. unfold noQuoteCR. simpl.
  intros [[Hq _]%andb_prop _]%andb_prop _. by apply negb_true_iff in Hq.
Qed.

Lemma startsWithQuote_quoted f rest :
  noQuoteCR f = true -> needsQuotes f = true ->
  startsWithQuote (f +:+ rest) = false.
Proof.
  destruct f as [| c f]; [done |]. unfold noQuoteCR. simpl.
  intros [[Hq _]%andb_prop _]%andb_prop _. by apply negb_true_iff in Hq.
Qed.

(** The first loop copies a serialized field to [cur] and ends outside
    quotes. *)
Lemma scanLines_field f rest cur lines :
  noQuoteCR f = true -> startsWithQuote rest = false ->
  scanLines (quoteField f +:+ rest) cur false lines
  = scanLines rest (cur +:+ quoteField f) false lines.
Proof.
  intros Hf Hr. unfold quoteField. destruct (needsQuotes f) eqn:E.
  - rewrite doubleQuotes_plain by done.
    change (String dquote f +:+ String dquote "")
      with (String dquote (f +:+ String dquote "")).
    change (String dquote (f +:+ String dquote "") +:+ rest)
      with (String dquote ((f +:+ String dquote "") +:+ rest)).
    rewrite app_assoc_s.
    change (String dquote "" +:+ rest) with (String dquote rest).
    rewrite scanLines_quote by (by apply startsWithQuote_quoted).
    rewrite scanLines_kept by (by apply plain_keptByLines).
    rewrite scanLines_quote by done. simpl negb.
    f_equal. unfold snoc. rewrite !app_assoc_s. done.
  - by rewrite scanLines_kept by (by apply unquoted_keptByLines).
Qed.

(** The second loop reads a serialized field back into [field]. *)
Lemma scanCols_field f rest field cols :
  noQuoteCR f = true -> startsWithQuote rest = false ->
  scanCols (quoteField f +:+ rest) field false cols
  = scanCols rest (field +:+ f) false cols.
Proof.
  intros Hf Hr. unfold quoteField. destruct (needsQuotes f) eqn:E.
  - rewrite doubleQuotes_plain by done.
    change (String dquote f +:+ String dquote "")
      with (String dquote (f +:+ String dquote "")).
    change (String dquote (f +:+ String dquote "") +:+ rest)
      with (String dquote ((f +:+ String dquote "") +:+ rest)).
    rewrite app_assoc_s.
    change (String dquote "" +:+ rest) with (String dquote rest).
    rewrite scanCols_open.
    rewrite scanCols_kept by (by apply plain_keptByCols).
    by rewrite scanCols_close.
  - by rewrite scanCols_kept by (by apply unquoted_keptByCols).
Qed.

Lemma serializeRecord_cons f g r :
  serializeRecord (f :: g :: r)
  = quoteField f +:+ String comma (serializeRecord (g :: r)).
Proof. reflexivity. Qed.

Lemma scanLines_record r :
  Forall (fun f => noQuoteCR f = true) r ->
  forall rest cur lines,
    startsWithQuote rest = false ->
    scanLines (serializeRecord r +:+ rest) cur false lines
    = scanLines rest (cur +:+ serializeRecord r) false lines.
Proof.
  induction 1 as [| f r Hf Hr IH]; intros rest cur lines Hrest.
  - simpl. by rewrite app_nil_r_s.
  - destruct r as [| g r].
    + simpl serializeRecord. by apply scanLines_field.
    + rewrite serializeRecord_cons, app_assoc_s.
      rewrite scanLines_field by done.
      change (String comma (serializeRecord (g :: r)) +:+ rest)
        with (String comma "" +:+ (serializeRecord (g :: r) +:+ rest)).
      rewrite (scanLines_kept (String comma "")) by done.
      rewrite IH by done. by rewrite !app_assoc_s.
Qed.

Lemma scanCols_record r :
  Forall (fun f => noQuoteCR f = true) r -> r <> [] ->
  forall cols, scanCols (serializeRecord r) "" false cols = (cols ++ r)%list.
Proof.
  induction 1 as [| f r Hf Hr IH]; intros Hne cols; [done |].
  destruct r as [| g r].
  - simpl serializeRecord. rewrite <- (app_nil_r_s (quoteField f)).
    by rewrite scanCols_field.
  - rewrite serializeRecord_cons, scanCols_field by done.
    simpl. replace (Ascii.eqb comma dquote) with false by done.
    change (Ascii.eqb comma comma && negb false) with true. cbv iota.
    rewrite IH by done. by rewrite <- app_assoc.
Qed.

Lemma lastChar_plain f c :
  noQuoteCR f = true -> lastChar f = Some c -> Ascii.eqb c dquote = false.
Proof.
  unfold noQuoteCR. induction f as [| a f IH]; [done |].
  simpl allChars. intros [[Hq _]%andb_prop Hf]%andb_prop.
  destruct f as [| b f].
  - simpl. intros [= <-]. by apply negb_true_iff in Hq.
  - intros Hl. by apply IH.
Qed.

Lemma stripQuotes_plain f : noQuoteCR f = true -> stripQuotes f = f.
Proof.
  intros Hf. unfold stripQuotes.
  assert (H1 : match f with
               | String c r => if Ascii.eqb c dquote then r else f
               | EmptyString => f
               end = f).
  { destruct f as [| c r]; [done |]. unfold noQuoteCR in Hf. simpl in Hf.
    apply andb_prop in Hf as [[Hq _]%andb_prop _].
    apply negb_true_iff in Hq. by rewrite Hq. }
  rewrite H1. destruct (lastChar f) as [c |] eqn:El; [| done].
  by rewrite (lastChar_plain f c).
Qed.

Lemma splitCsv_record r :
  Forall plainField r -> r <> [] -> splitCsv (serializeRecord r) = r.
Proof.
  intros Hr Hne. unfold splitCsv.
  rewrite scanCols_record; [| | done].
  - simpl. induction Hr as [| f r [Hq Ht] Hr IH]; [done |].
    simpl. rewrite stripQuotes_plain, Ht by done. f_equal.
    destruct r; [done |]. by apply IH.
  - eapply Forall_impl; [exact Hr |]. by intros f [Hq _].
Qed.

End CsvFields.

Section CsvRoundTrip.
Import Js Csv.

Lemma isEmpty_false s : isEmpty s = false <-> s <> "".
Proof. by destruct s. Qed.

Lemma splitLines_serialize H R :
  Forall (fun f => noQuoteCR f = true) H ->
  Forall (fun f => noQuoteCR f = true) R ->
  serializeRecord R <> "" ->
  splitLines (serializeAsCsv H R) = [serializeRecord H; serializeRecord R].
Proof.
  intros HH HR Hne. unfold splitLines, serializeAsCsv.
  rewrite scanLines_record by done.
  simpl scanLines at 1. cbv iota beta.
  change (Ascii.eqb CR dquote) with false. change (Ascii.eqb CR CR) with true.
  cbv iota.
  change (Ascii.eqb LF dquote) with false. change (Ascii.eqb LF CR) with false.
  change (Ascii.eqb LF LF && negb false) with true. cbv iota.
  rewrite <- (app_nil_r_s (serializeRecord R)) at 1.
  rewrite scanLines_record by done. simpl.
  apply isEmpty_false in Hne. by rewrite Hne.
Qed.

Lemma setProp_lookup_other k v o h :
  h <> k -> setProp k v o !! h = o !! h.
Proof.
  intros Hne. unfold setProp. destruct (String.eqb k "__proto__"); [done |].
  by rewrite lookup_insert_ne.
Qed.

Lemma fillRow_other H : forall j cols row h,
  h ∉ H -> fillRow H j cols row !! h = row !! h.
Proof.
  induction H as [| h0 H IH]; intros j cols row h Hh; [done |].
  simpl. apply not_elem_of_cons in Hh as [Hne Hh].
  rewrite IH by done. by apply setProp_lookup_other.
Qed.

Lemma fillRow_lookup H : forall j cols row i h,
  NoDup H -> "__proto__" ∉ H -> H !! i = Some h ->
  fillRow H j cols row !! h = Some (default "" (cols !! (j + i)%nat)).
Proof.
  induction H as [| h0 H IH]; intros j cols row i h Hnd Hp Hi; [done |].
  apply NoDup_cons in Hnd as [Hh0 Hnd].
  apply not_elem_of_cons in Hp as [Hp0 Hp].
  destruct i as [| i]; simpl in *.
  - injection Hi as ->. rewrite fillRow_other by done.
    unfold setProp. destruct (String.eqb_spec h "__proto__") as [-> |]; [done |].
    by rewrite lookup_insert_eq, Nat.add_0_r.
  - rewrite (IH (S j) cols _ i h) by done. do 3 f_equal. lia.
Qed.

Lemma map_trim_plain r : Forall plainField r -> map trim r = r.
Proof.
  induction 1 as [| f r [_ Ht] _ IH]; [done |]. simpl. by rewrite Ht, IH.
Qed.

Lemma plain_noQuoteCR r :
  Forall plainField r -> Forall (fun f => noQuoteCR f = true) r.
Proof. intros Hr. eapply Forall_impl; [exact Hr |]. by intros f [Hq _]. Qed.

End CsvRoundTrip.

(** C6, as the code has it.  For a header row of distinct names, none of
    them [__proto__], and a row of as many values, where no name or value
    holds a double quote or a carriage return or begins or ends with white
    space, and the row's line is not blank: parsing the RFC 4180
    serialization gives exactly one row, holding each value under its
    header name, also when values hold commas and line breaks. *)
Theorem csv_round_trip (H R : list string) :
  length H = length R ->
  NoDup H -> "__proto__" ∉ H ->
  Forall Csv.plainField H -> Forall Csv.plainField R ->
  Js.trim (Csv.serializeRecord R) <> "" ->
  Csv.roundTrips H R.
Proof.
  intros Hlen Hnd Hproto HH HR Hblank.
  assert (HRne : R <> []) by (intros ->; by apply Hblank).
  assert (HHne : H <> []) by (intros ->; by destruct R).
  assert (Hline : Csv.serializeRecord R <> "")
    by (intros E; apply Hblank; by rewrite E).
  unfold Csv.roundTrips, Csv.parseCsvToObjects.
  rewrite splitLines_serialize by (by apply plain_noQuoteCR || done).
  rewrite !splitCsv_record by done. rewrite map_trim_plain by done.
  simpl. apply isEmpty_false in Hblank. rewrite Hblank.
  rewrite splitCsv_record by done.
  eexists. split; [reflexivity |].
  intros j h v Hj Hv.
  rewrite (fillRow_lookup H 0 R ∅ j h) by done. simpl. by rewrite Hv.
Qed.

Lemma csv_round_trip_witness :
  Csv.roundTrips CsvSamples.sampleHeader CsvSamples.sampleRow.
Proof.
  apply csv_round_trip.
  - reflexivity.
  - apply (bool_decide_unpack _). vm_compute. exact I.
  - apply (bool_decide_unpack _). vm_compute. exact I.
  - repeat constructor; vm_compute; reflexivity.
  - repeat constructor; vm_compute; reflexivity.
  - vm_compute. intros E. discriminate E.
Defined.

(** C6 as worded fails: the value [" x "] comes back as ["x"], since every
    column is trimmed. *)
Lemma padded_value_not_reproduced :
  length ["a"] = length CsvSamples.paddedRow /\
  ~ Csv.roundTrips ["a"] CsvSamples.paddedRow.
Proof.
  split; [reflexivity |].
  intros (row & Hp & Hl).
  specialize (Hl 0%nat "a" " x " eq_refl eq_refl).
  assert (Hrow : row = {[ "a" := "x" ]}).
  { vm_compute in Hp. injection Hp as <-. vm_compute. reflexivity. }
  subst row. vm_compute in Hl. discriminate Hl.
Qed.

(** A double quote inside a value is lost as well: the first loop already
    collapses the doubled quote, and the second loop then reads the single
    quote left as a delimiter. *)
Lemma quoted_value_loses_quote :
  exists row,
    Csv.parseCsvToObjects (Csv.serializeAsCsv ["a"] CsvSamples.quotedRow) = [row] /\
    row !! "a" = Some "xy".
Proof. eexists. split; vm_compute; reflexivity. Qed.

(** ** Scheduler: starting, saving, and the rate limit *)

Section JobControl.
Import Scheduler ConfigService.

(** At or below the floor the delay is that of the floor. *)
Lemma delayMs_floor minutes :
  atFloor minutes -> delayMs minutes = delayMs minMinutes.
Proof.
  unfold delayMs, Timers.mathMax.
  intros [E | E]; rewrite E; [done |].
  reflexivity.
Qed.

Lemma run_after_stop key f s :
  passesRateLimit key f (stopJobForConfig key s).
Proof.
  unfold passesRateLimit, recentRuns, stopJobForConfig. simpl.
  rewrite lookup_delete_eq. simpl. unfold MAX_IMPORTS_PER_MINUTE. lia.
Qed.

Lemma run_pass_fields key f s :
  passesRateLimit key f s ->
  runHistory (run key f s) !! key
    = Some (recentRuns key (now f - 60000) s ++ [now f])%list /\
  importCalls (run key f s) = (importCalls s ++ [(key, now f)])%list.
Proof.
  intros Hp. rewrite run_pass by done. simpl.
  destruct (importSettles f); [| destruct (updateOk f)]; simpl;
    (split; [apply lookup_insert_eq | done]).
Qed.

Lemma run_skip_fields key f s :
  ~ passesRateLimit key f s ->
  default [] (runHistory (run key f s) !! key) = recentRuns key (now f - 60000) s /\
  importCalls (run key f s) = importCalls s.
Proof.
  intros Hp. rewrite run_skip by done. simpl. by rewrite lookup_insert_eq.
Qed.

End JobControl.

(** X1.  Starting a job forgets the key's run history first, so its
    immediate run is never rate limited: the import is invoked once and
    the history holds that run alone.  The timer is armed with the period
    the runtime gives to the delay [Math.max(0.05, minutes) * 60 * 1000]
    computed in binary64; for a number at or below the floor of 0.05
    minutes that period is 3000 ms, and for NaN it is 1 ms. *)
Theorem startJob_runs_and_arms (key : string) (minutes : spec_float)
    (first : Scheduler.Fire) (s : Scheduler.State) :
  let s' := Scheduler.startJobForConfig key minutes first s in
  Scheduler.intervals s' !! key
    = Some (Timers.period (Scheduler.delayMs minutes)) /\
  (ConfigService.atFloor minutes -> Scheduler.intervals s' !! key = Some 3000) /\
  (minutes = S754_nan -> Scheduler.intervals s' !! key = Some 1) /\
  Scheduler.importCalls s'
    = (Scheduler.importCalls s ++ [(key, Scheduler.now first)])%list /\
  Scheduler.runHistory s' !! key = Some [Scheduler.now first].
Proof.
  intros s'. unfold s', Scheduler.startJobForConfig.
  destruct (run_pass_fields key first _ (run_after_stop key first s)) as [Hh Hc].
  split; [| split; [| split; [| split]]].
  - simpl. apply lookup_insert_eq.
  - intros Hf. simpl. rewrite lookup_insert_eq, (delayMs_floor _ Hf).
    vm_compute. reflexivity.
  - intros ->. simpl. rewrite lookup_insert_eq. vm_compute. reflexivity.
  - simpl. rewrite Hc. reflexivity.
  - simpl. rewrite Hh. unfold Scheduler.recentRuns, Scheduler.stopJobForConfig.
    simpl. by rewrite lookup_delete_eq.
Qed.

(** The delay for 0.06 minutes is rounded below 3600, and the period is
    3599 ms; for 40000 minutes the delay is above the runtime's largest,
    and the period is 1 ms. *)
Lemma period_of_rounded_delay :
  Timers.period (Scheduler.delayMs (JsNumber.roundQ false (6 # 100))) = 3599 /\
  Timers.period (Scheduler.delayMs (JsNumber.ofZ 40000)) = 1.
Proof. split; vm_compute; reflexivity. Qed.

Lemma run_frame (key key' : string) (f : Scheduler.Fire) (s : Scheduler.State) :
  key' <> key ->
  Scheduler.runHistory (Scheduler.run key f s) !! key' = Scheduler.runHistory s !! key' /\
  Scheduler.intervals (Scheduler.run key f s) = Scheduler.intervals s /\
  Scheduler.configs (Scheduler.run key f s) !! key' = Scheduler.configs s !! key'.
Proof.
  intros Hne. unfold Scheduler.run.
  destruct (_ <=? _)%nat; simpl.
  - by rewrite lookup_insert_ne.
  - destruct (Scheduler.importSettles f); [| destruct (Scheduler.updateOk f)];
      simpl; rewrite ?lookup_insert_ne, ?lookup_alter_ne by done; done.
Qed.

(** X2.  A fire for one key leaves the other keys alone: their run
    history, their timers and their configuration documents are as
    before. *)
Theorem run_other_key (key key' : string) (f : Scheduler.Fire) (s : Scheduler.State) :
  key' <> key ->
  let s' := Scheduler.run key f s in
  Scheduler.runHistory s' !! key' = Scheduler.runHistory s !! key' /\
  Scheduler.intervals s' = Scheduler.intervals s /\
  Scheduler.configs s' !! key' = Scheduler.configs s !! key'.
Proof. intros Hne. by apply run_frame. Qed.

Lemma run_other_key_witness :
  let s' := Scheduler.run "sheet" (Scheduler.fireAt 5) Scheduler.freshState in
  Scheduler.runHistory s' !! "other" = Scheduler.runHistory Scheduler.freshState !! "other" /\
  Scheduler.intervals s' = Scheduler.intervals Scheduler.freshState /\
  Scheduler.configs s' !! "other" = Scheduler.configs Scheduler.freshState !! "other".
Proof.
  apply (run_other_key "sheet" "other" (Scheduler.fireAt 5) Scheduler.freshState).
  intros E. discriminate E.
Defined.

Section RateBound.
Import Scheduler ConfigService.
Variable key : string.

Lemma filter_filter_window (a b : Z) (l : list Z) :
  a <= b ->
  List.filter (fun t => b <=? t) (List.filter (fun t => a <=? t) l)
  = List.filter (fun t => b <=? t) l.
Proof.
  intros Hab. induction l as [| t l IH]; [done |]. simpl.
  destruct (Z.leb_spec a t); simpl.
  - by rewrite IH.
  - destruct (Z.leb_spec b t); [lia | done].
Qed.

Lemma rateBounded_nil : rateBounded [].
Proof. intros pre b post H. by destruct pre. Qed.

Lemma rateBounded_snoc cs b :
  rateBounded cs ->
  (length (List.filter (fun t => (b - 60000 <=? t)%Z) cs) < MAX_IMPORTS_PER_MINUTE)%nat ->
  rateBounded (cs ++ [b]).
Proof.
  intros Hcs Hb pre c post Heq.
  destruct post as [| x post _] using rev_ind.
  - apply app_inj_tail in Heq as [-> ->]. done.
  - rewrite app_comm_cons, app_assoc in Heq.
    apply app_inj_tail in Heq as [-> _]. by eapply Hcs.
Qed.

Lemma run_tracks f s cs last :
  tracks key s cs last -> last <= now f ->
  exists new,
    importCalls (run key f s)
      = (importCalls s ++ map (fun t => (key, t)) new)%list /\
    tracks key (run key f s) (cs ++ new) (now f).
Proof.
  intros [Hh Hb] Hle.
  assert (Hrec : recentRuns key (now f - 60000) s
                 = List.filter (fun t => now f - 60000 <=? t) cs).
  { unfold recentRuns. rewrite Hh. apply filter_filter_window. lia. }
  destruct (Nat.lt_ge_cases (length (recentRuns key (now f - 60000) s))
              MAX_IMPORTS_PER_MINUTE) as [Hp | Hp];
    [| assert (~ passesRateLimit key f s) as Hp'
         by (unfold passesRateLimit; lia); clear Hp; rename Hp' into Hp].
  - exists [now f]. destruct (run_pass_fields key f s Hp) as [Hr Hc].
    split; [done |]. split.
    + rewrite Hr, Hrec. simpl. rewrite List.filter_app. simpl.
      by rewrite (proj2 (Z.leb_le (now f - 60000) (now f))) by lia.
    + apply rateBounded_snoc; [done |]. unfold passesRateLimit in Hp.
      by rewrite Hrec in Hp.
  - exists []. destruct (run_skip_fields key f s Hp) as [Hr Hc].
    split; [by rewrite Hc, app_nil_r |]. rewrite app_nil_r. split; [| done].
    by rewrite Hr, Hrec.
Qed.

Lemma runAll_tracks fires : forall s cs last,
  tracks key s cs last ->
  (forall f, f ∈ fires -> last <= now f) ->
  clockMonotone fires ->
  exists new,
    importCalls (runAll key fires s)
      = (importCalls s ++ map (fun t => (key, t)) new)%list /\
    rateBounded (cs ++ new).
Proof.
  induction fires as [| f fires IH]; intros s cs last Ht Hlast Hmono.
  - exists []. simpl. rewrite !app_nil_r. split; [done | by destruct Ht].
  - destruct (run_tracks f s cs last Ht) as (n1 & Hc1 & Ht1).
    { apply Hlast. by left. }
    destruct (IH (run key f s) (cs ++ n1)%list (now f) Ht1) as (n2 & Hc2 & Hb2).
    + intros g Hg. apply list_elem_of_lookup in Hg as [j Hj].
      by apply (Hmono 0%nat (S j) f g); [lia | |].
    + intros i j a b Hij Ha Hb. by apply (Hmono (S i) (S j) a b); [lia | |].
    + exists (n1 ++ n2)%list. split.
      * unfold runAll in *. simpl. rewrite Hc2, Hc1, map_app, app_assoc. done.
      * by rewrite app_assoc.
Qed.

End RateBound.

(** X3.  Whatever the spacing of the fires, as long as the clock does not
    go back and the key starts without history: among the imports the
    fires invoke, none has twenty earlier ones in the 60 seconds before
    it.  At most twenty imports start in any 60-second window. *)
Theorem rate_limit_holds (key : string) (fires : list Scheduler.Fire)
    (s : Scheduler.State) :
  ConfigService.clockMonotone fires ->
  Scheduler.runHistory s !! key = None ->
  exists calls,
    Scheduler.importCalls (Scheduler.runAll key fires s)
      = (Scheduler.importCalls s ++ map (fun t => (key, t)) calls)%list /\
    ConfigService.rateBounded calls.
Proof.
  intros Hmono Hnone.
  set (last := match fires with
               | [] => 0
               | f :: _ => Scheduler.now f
               end).
  destruct (runAll_tracks key fires s [] last) as (calls & Hc & Hb).
  - split; [by rewrite Hnone | apply rateBounded_nil].
  - intros g Hg. destruct fires as [| f fires]; [by apply elem_of_nil in Hg |].
    apply list_elem_of_lookup in Hg as [j Hj].
    by apply (Hmono 0%nat j f g); [lia | |].
  - done.
  - by exists calls.
Qed.

Lemma burst_clock_monotone : ConfigService.clockMonotone Scheduler.burst.
Proof.
  intros i j f g Hij Hi Hj. unfold Scheduler.burst in *.
  rewrite list_lookup_fmap in Hi, Hj.
  destruct (seq 0 25 !! i) as [a|] eqn:Ha; [| done].
  destruct (seq 0 25 !! j) as [b|] eqn:Hb; [| done].
  apply lookup_seq in Ha as [-> _]. apply lookup_seq in Hb as [-> _].
  simpl in Hi, Hj. injection Hi as <-. injection Hj as <-. simpl. lia.
Qed.

Lemma rate_limit_holds_witness :
  exists calls,
    Scheduler.importCalls (Scheduler.runAll "sheet" Scheduler.burst Scheduler.freshState)
      = (Scheduler.importCalls Scheduler.freshState ++ map (fun t => ("sheet", t)) calls)%list /\
    ConfigService.rateBounded calls.
Proof.
  apply (rate_limit_holds "sheet" Scheduler.burst Scheduler.freshState).
  - exact burst_clock_monotone.
  - reflexivity.
Defined.

Section Saving.
Import Scheduler ConfigService.

Lemma startJob_frame key minutes first s k' :
  k' <> key ->
  intervals (startJobForConfig key minutes first s) !! k' = intervals s !! k' /\
  runHistory (startJobForConfig key minutes first s) !! k' = runHistory s !! k' /\
  configs (startJobForConfig key minutes first s) !! k' = configs s !! k'.
Proof.
  intros Hne. unfold startJobForConfig. simpl.
  destruct (run_frame key k' first (stopJobForConfig key s) Hne) as (Hh & Hi & Hc).
  rewrite lookup_insert_ne by done. rewrite Hi, Hh, Hc. simpl.
  by rewrite !lookup_delete_ne.
Qed.

Lemma startJob_fields key minutes first s :
  intervals (startJobForConfig key minutes first s) !! key
    = Some (Timers.period (delayMs minutes)) /\
  importCalls (startJobForConfig key minutes first s)
    = (importCalls s ++ [(key, now first)])%list.
Proof.
  unfold startJobForConfig.
  destruct (run_pass_fields key first _ (run_after_stop key first s)) as [Hh Hc].
  simpl. rewrite Hc. split; [apply lookup_insert_eq | done].
Qed.

Lemma run_keeps_autoRefresh key f s k :
  autoRefresh <$> configs (run key f s) !! k = autoRefresh <$> configs s !! k.
Proof.
  unfold run. destruct (_ <=? _)%nat; simpl; [done |].
  destruct (importSettles f); [done |]. destruct (updateOk f); [| done].
  simpl. destruct (decide (k = key)) as [-> |].
  - rewrite lookup_alter_eq. by destruct (configs s !! key).
  - by rewrite lookup_alter_ne.
Qed.

Lemma startJobs_calls docs first : forall s,
  importCalls (startJobs docs first s)
  = (importCalls s ++ map (fun d => (d.1, now (first d.1))) docs)%list.
Proof.
  induction docs as [| d docs IH]; intros s; simpl.
  - by rewrite app_nil_r.
  - unfold startJobs in *. simpl. rewrite IH.
    destruct (startJob_fields d.1 (refreshIntervalMinutes d.2) (first d.1) s) as [_ ->].
    by rewrite <- app_assoc.
Qed.

Lemma startJobs_other docs first k : forall s,
  k ∉ docs.*1 ->
  intervals (startJobs docs first s) !! k = intervals s !! k.
Proof.
  induction docs as [| d docs IH]; intros s Hk; [done |].
  simpl in Hk. apply not_elem_of_cons in Hk as [Hne Hk].
  unfold startJobs in *. simpl. rewrite IH by done.
  by apply startJob_frame.
Qed.

Lemma startJobs_timer docs first k d : forall s,
  NoDup docs.*1 -> (k, d) ∈ docs ->
  intervals (startJobs docs first s) !! k
  = Some (Timers.period (delayMs (refreshIntervalMinutes d))).
Proof.
  induction docs as [| d0 docs IH]; intros s Hnd Hin.
  - by apply elem_of_nil in Hin.
  - simpl in Hnd. apply NoDup_cons in Hnd as [Hfresh Hnd].
    unfold startJobs in *. simpl.
    apply elem_of_cons in Hin as [<- | Hin].
    + change (foldl _ ?st docs) with (startJobs docs first st).
      rewrite startJobs_other by done. simpl. apply startJob_fields.
    + by apply IH.
Qed.

End Saving.

(** X4.  After a successful save the key has a timer exactly when the
    saved [autoRefresh] is true.  Saved off, its timer and run history are
    gone and nothing is imported; saved on, one import starts at once.
    The timers, histories and documents of the other keys are as before,
    and the stored document carries the saved flag. *)
Theorem save_sets_running_state (c : ConfigService.ConfigInput)
    (first : Scheduler.Fire) (s : Scheduler.State) :
  let key := ConfigService.in_spreadsheetId c in
  let s' := fst (ConfigService.saveSheetsConfig c true first s) in
  (is_Some (Scheduler.intervals s' !! key)
     <-> ConfigService.in_autoRefresh c = true) /\
  (ConfigService.in_autoRefresh c = false ->
     Scheduler.runHistory s' !! key = None /\
     Scheduler.importCalls s' = Scheduler.importCalls s) /\
  (ConfigService.in_autoRefresh c = true ->
     Scheduler.importCalls s'
       = (Scheduler.importCalls s ++ [(key, Scheduler.now first)])%list) /\
  (forall k', k' <> key ->
     Scheduler.intervals s' !! k' = Scheduler.intervals s !! k' /\
     Scheduler.runHistory s' !! k' = Scheduler.runHistory s !! k' /\
     Scheduler.configs s' !! k' = Scheduler.configs s !! k') /\
  Scheduler.autoRefresh <$> Scheduler.configs s' !! key
    = Some (ConfigService.in_autoRefresh c).
Proof.
  intros key s'.
  pose (s1 := fst (ConfigService.upsertConfig c s)).
  pose (m := default (JsNumber.ofZ 60) (ConfigService.in_refreshIntervalMinutes c)).
  assert (Hs' : s' = if ConfigService.in_autoRefresh c
                     then Scheduler.startJobForConfig key m first s1
                     else Scheduler.stopJobForConfig key s1) by reflexivity.
  assert (Hk1 : Scheduler.autoRefresh <$> Scheduler.configs s1 !! key
                = Some (ConfigService.in_autoRefresh c))
    by (unfold s1; simpl; by rewrite lookup_insert_eq).
  assert (Hf1 : forall k', k' <> key ->
            Scheduler.configs s1 !! k' = Scheduler.configs s !! k')
    by (intros k' Hne; unfold s1; simpl; by rewrite lookup_insert_ne).
  rewrite Hs'. clear Hs'.
  destruct (ConfigService.in_autoRefresh c) eqn:Ha.
  - destruct (startJob_fields key m first s1) as [Hi Hc].
    pose proof (startJob_frame key m first s1) as Hf.
    split; [| split; [| split; [| split]]].
    + rewrite Hi. split; [done | by eexists].
    + done.
    + intros _. by rewrite Hc.
    + intros k' Hne. destruct (Hf k' Hne) as (H1 & H2 & H3).
      rewrite H1, H2, H3. by rewrite Hf1.
    + unfold Scheduler.startJobForConfig.
      change (Scheduler.configs (Scheduler.setTimer key ?ms ?st))
        with (Scheduler.configs st).
      rewrite run_keeps_autoRefresh. exact Hk1.
  - split; [| split; [| split; [| split]]].
    + simpl. rewrite lookup_delete_eq. split; [by intros [? ?] | done].
    + intros _. simpl. by rewrite lookup_delete_eq.
    + done.
    + intros k' Hne. simpl. by rewrite !lookup_delete_ne, lookup_insert_ne.
    + exact Hk1.
Qed.

(** X5.  Starting the scheduled jobs from a list of stored documents with
    distinct keys: every document with [autoRefresh] set gets a timer,
    whose period is the one the runtime gives to the delay computed from
    that document's own interval, and one immediate import, in the order
    of the list; a key that is not among those documents keeps the timer
    state it had. *)
Theorem startScheduledJobs_arms (docs : list (string * Scheduler.SheetsConfigDoc))
    (first : string -> Scheduler.Fire) (s : Scheduler.State) :
  NoDup docs.*1 ->
  let started := List.filter (fun d => Scheduler.autoRefresh d.2) docs in
  let s' := ConfigService.startScheduledJobs docs first s in
  (forall k d, (k, d) ∈ docs -> Scheduler.autoRefresh d = true ->
     Scheduler.intervals s' !! k
       = Some (Timers.period
                 (Scheduler.delayMs (Scheduler.refreshIntervalMinutes d)))) /\
  (forall k, k ∉ started.*1 ->
     Scheduler.intervals s' !! k = Scheduler.intervals s !! k) /\
  Scheduler.importCalls s'
    = (Scheduler.importCalls s ++
       map (fun d => (d.1, Scheduler.now (first d.1))) started)%list.
Proof.
  intros Hnd started s'. unfold s', ConfigService.startScheduledJobs. fold started.
  assert (Hnd' : NoDup started.*1).
  { unfold started. clear -Hnd. induction docs as [| d docs IH]; [constructor |].
    simpl in *. apply NoDup_cons in Hnd as [Hfresh Hnd].
    destruct (Scheduler.autoRefresh d.2); [| by apply IH].
    simpl. apply NoDup_cons. split; [| by apply IH].
    intros Hin. apply Hfresh.
    apply list_elem_of_fmap in Hin as (x & -> & Hx).
    apply list_elem_of_fmap. exists x. split; [done |].
    apply list_elem_of_In in Hx. apply filter_In in Hx as [Hx _].
    by apply list_elem_of_In. }
  split; [| split].
  - intros k d Hin Ha. apply startJobs_timer; [done |].
    apply list_elem_of_In, filter_In. split; [by apply list_elem_of_In | done].
  - intros k Hk. by apply startJobs_other.
  - apply startJobs_calls.
Qed.

Lemma startScheduledJobs_arms_witness :
  let s' := ConfigService.startScheduledJobs ConfigSamples.storedDocs
              (fun _ => Scheduler.fireAt 7) (Scheduler.stopAllJobs Scheduler.freshState) in
  Scheduler.intervals s' !! "sheet"
    = Some (Timers.period (Scheduler.delayMs (JsNumber.ofZ 2))) /\
  Scheduler.intervals s' !! "other" = None.
Proof.
  destruct (startScheduledJobs_arms ConfigSamples.storedDocs
              (fun _ => Scheduler.fireAt 7)
              (Scheduler.stopAllJobs Scheduler.freshState)) as (H1 & H2 & _).
  - apply (bool_decide_unpack _). vm_compute. exact I.
  - split.
    + apply (H1 "sheet" {| Scheduler.autoRefresh := true;
                           Scheduler.refreshIntervalMinutes := JsNumber.ofZ 2;
                           Scheduler.lastRunAt := None |});
        [by left | reflexivity].
    + rewrite (H2 "other"); [reflexivity |].
      apply (bool_decide_unpack _). vm_compute. exact I.
Defined.

(** ** Import orchestrator: replacement, failure and routing *)

Section ImportOutcomes.
Import Sheets Fetch Orchestrator StoreRead.

(** With the deletes carried out, what the block leaves does not depend
    on the store before. *)
Lemma import_deletesUp w config st :
  deletesUp w ->
  importSheetsAndSave w config st = importSheetsAndSave w config emptyStore.
Proof.
  intros Hd. rewrite !importSheetsAndSave_unfold. unfold bind, tryCatch.
  by rewrite !(replaceAll_deletesUp w _ _ Hd).
Qed.

Lemma replaceAll_deleted w p st :
  deletesUp w ->
  forall k, storeUp w (InsertMany k) = false ->
    collEmpty k (fst (replaceAll w p st)).
Proof.
  intros Hd k Hk. rewrite replaceAll_deletesUp by done.
  by apply insertAll_refused.
Qed.

Lemma replaceAll_invalid w p st :
  deletesUp w ->
  forall k, validKind k p = false -> collEmpty k (fst (replaceAll w p st)).
Proof.
  intros Hd k Hk. rewrite replaceAll_deletesUp by done.
  by apply insertAll_invalid.
Qed.

Lemma noRecords_unrouted k tabs : forall p,
  unrouted k tabs -> parsedCount k p = 0%nat ->
  parsedCount k (foldl routeStep p tabs) = 0%nat.
Proof.
  induction tabs as [| [nom t] tabs IH]; intros p Hu Hp; [done |].
  simpl. apply IH.
  - intros j nom' r Hj. by apply (Hu (S j)).
  - unfold routeStep. simpl. destruct t as [r |]; [| done].
    assert (Hne : routedKind nom r <> k) by (by apply (Hu 0%nat)).
    by destruct k, (routedKind nom r).
Qed.

Lemma fetch_unconfigured w id range apiKey :
  credentialsAbsent w -> noApiKey w apiKey ->
  fetchSheet w id range apiKey = inl NotConfigured.
Proof.
  intros Hc [Hk He]. unfold fetchSheet.
  rewrite no_client_unavailable by (by apply credentialsAbsent_no_client).
  by rewrite truthyStr_orOpt, Hk, He.
Qed.

End ImportOutcomes.

(** X6.  Whatever the store refuses, an import never merges: afterwards
    each collection is the one from before, or empty, or exactly the newly
    parsed set of its kind. *)
Theorem import_never_merges (w : Fetch.World)
    (config : Orchestrator.GoogleSheetsConfig) (st : Orchestrator.Store)
    (k : Sheets.kind) :
  let st' := fst (Orchestrator.importSheetsAndSave w config st) in
  Orchestrator.collUnchanged k st st' \/ Orchestrator.collEmpty k st' \/
  Orchestrator.holdsExactly k st' (Orchestrator.parsedOf w config).
Proof. intros st'. unfold st'. rewrite import_store. apply replaceAll_outcomes. Qed.

(** X7.  With the store available, what an import leaves in the store and
    what it returns do not depend on what the store held before; importing
    a second time from the same source changes nothing. *)
Theorem import_overwrites_any_store (w : Fetch.World)
    (config : Orchestrator.GoogleSheetsConfig) (st1 st2 : Orchestrator.Store) :
  Orchestrator.storeUpAll w ->
  Orchestrator.importSheetsAndSave w config st1
    = Orchestrator.importSheetsAndSave w config st2 /\
  Orchestrator.importSheetsAndSave w config
    (fst (Orchestrator.importSheetsAndSave w config st1))
    = Orchestrator.importSheetsAndSave w config st1.
Proof.
  intros Hup. assert (Hd : StoreRead.deletesUp w) by (intros k; apply Hup).
  split.
  - by rewrite (import_deletesUp w config st1), (import_deletesUp w config st2).
  - by rewrite (import_deletesUp w config (fst _)), (import_deletesUp w config st1).
Qed.

Lemma import_overwrites_any_store_witness :
  let w := ImportSamples.keyWorld ImportSamples.badRequest ImportSamples.allUp in
  Orchestrator.importSheetsAndSave w ImportSamples.sampleConfig ImportSamples.priorStore
    = Orchestrator.importSheetsAndSave w ImportSamples.sampleConfig StoreRead.emptyStore /\
  Orchestrator.importSheetsAndSave w ImportSamples.sampleConfig
    (fst (Orchestrator.importSheetsAndSave w ImportSamples.sampleConfig
            ImportSamples.priorStore))
    = Orchestrator.importSheetsAndSave w ImportSamples.sampleConfig ImportSamples.priorStore.
Proof.
  apply (import_overwrites_any_store
           (ImportSamples.keyWorld ImportSamples.badRequest ImportSamples.allUp)).
  intros op. reflexivity.
Defined.

(** X8.  The replacement is not atomic.  When the four deletes are carried
    out and the insert for one kind is refused, that kind's collection is
    left empty, not restored, while the import still returns the parsed
    records; if there were records of that kind, the store does not hold
    them. *)
Theorem failed_insert_leaves_empty (w : Fetch.World)
    (config : Orchestrator.GoogleSheetsConfig) (st : Orchestrator.Store)
    (k : Sheets.kind) :
  StoreRead.deletesUp w ->
  Fetch.storeUp w (Fetch.InsertMany k) = false ->
  let out := Orchestrator.importSheetsAndSave w config st in
  Orchestrator.collEmpty k (fst out) /\
  snd out = inr (Orchestrator.parsedOf w config) /\
  ((0 < Orchestrator.parsedCount k (Orchestrator.parsedOf w config))%nat ->
   ~ Orchestrator.holdsExactly k (fst out) (Orchestrator.parsedOf w config)).
Proof.
  intros Hd Hk out.
  assert (He : Orchestrator.collEmpty k (fst out))
    by (unfold out; rewrite import_store; by apply replaceAll_deleted).
  split; [done |]. split; [apply importSheetsAndSave_returns |].
  intros Hpos Hh. destruct k; simpl in *; rewrite He in Hh;
    symmetry in Hh; apply map_eq_nil in Hh; rewrite Hh in Hpos;
    simpl in Hpos; lia.
Qed.

Lemma failed_insert_leaves_empty_witness :
  let w := ImportSamples.keyWorld ImportSamples.badRequest
             StoreSamples.noCandidateInsert in
  let out := Orchestrator.importSheetsAndSave w ImportSamples.sampleConfig
               ImportSamples.priorStore in
  Orchestrator.collEmpty Sheets.KCandidates (fst out) /\
  snd out = inr (Orchestrator.parsedOf w ImportSamples.sampleConfig) /\
  ((0 < Orchestrator.parsedCount Sheets.KCandidates
          (Orchestrator.parsedOf w ImportSamples.sampleConfig))%nat ->
   ~ Orchestrator.holdsExactly Sheets.KCandidates (fst out)
       (Orchestrator.parsedOf w ImportSamples.sampleConfig)).
Proof.
  apply (failed_insert_leaves_empty
           (ImportSamples.keyWorld ImportSamples.badRequest
              StoreSamples.noCandidateInsert)
           ImportSamples.sampleConfig ImportSamples.priorStore Sheets.KCandidates).
  - intros k. reflexivity.
  - reflexivity.
Defined.

(** X9.  With no service-account credentials and no API key, all four
    fetches raise the configuration error, and the import absorbs them: it
    raises nothing, returns four empty record sets, and, the store being
    available, leaves every collection empty. *)
Theorem unconfigured_import_wipes (w : Fetch.World)
    (config : Orchestrator.GoogleSheetsConfig) (st : Orchestrator.Store) :
  Fetch.credentialsAbsent w ->
  Fetch.noApiKey w (Orchestrator.apiKey config) ->
  let out := Orchestrator.importSheetsAndSave w config st in
  snd out = inr Orchestrator.noRecords /\
  (Orchestrator.storeUpAll w -> fst out = StoreRead.emptyStore).
Proof.
  intros Hc Hk out.
  assert (Hp : Orchestrator.parsedOf w config = Orchestrator.noRecords).
  { unfold Orchestrator.parsedOf, Orchestrator.fetchTabs.
    by rewrite !fetch_unconfigured. }
  split.
  - unfold out. by rewrite importSheetsAndSave_returns, Hp.
  - intros Hup. unfold out.
    rewrite importSheetsAndSave_up by (rewrite ?Hp; done || apply allValid_noRecords).
    by rewrite Hp.
Qed.

Lemma unconfigured_import_wipes_witness :
  let out := Orchestrator.importSheetsAndSave FetchSamples.bareWorld
               ImportSamples.sampleConfig ImportSamples.priorStore in
  snd out = inr Orchestrator.noRecords /\
  (Orchestrator.storeUpAll FetchSamples.bareWorld -> fst out = StoreRead.emptyStore).
Proof.
  apply (unconfigured_import_wipes FetchSamples.bareWorld
           ImportSamples.sampleConfig ImportSamples.priorStore).
  - left. reflexivity.
  - split; reflexivity.
Defined.

(** X10.  Tabs may be swapped or mislabelled.  When no two fetched tabs
    are routed to the same kind, the record set of each routed kind is the
    mapping of the tab routed to it, whichever range it came from, and a
    kind no tab is routed to has no records. *)
Theorem routing_tolerates_swaps (w : Fetch.World)
    (config : Orchestrator.GoogleSheetsConfig)
    (rRes cRes clientsRes perfRes : option Sheets.response) :
  Orchestrator.fetchTabs w config = (rRes, cRes, clientsRes, perfRes) ->
  let tabs := Orchestrator.tabsInOrder rRes cRes clientsRes perfRes in
  StoreRead.routedApart tabs ->
  (forall j nom r, tabs !! j = Some (nom, Some r) ->
     Orchestrator.slotIs (Orchestrator.routedKind nom r)
       (Orchestrator.parsedOf w config) r) /\
  (forall k, StoreRead.unrouted k tabs ->
     Orchestrator.parsedCount k (Orchestrator.parsedOf w config) = 0%nat).
Proof.
  intros Hf tabs Hapart.
  assert (Hp : Orchestrator.parsedOf w config
               = foldl Orchestrator.routeStep Orchestrator.noRecords tabs).
  { unfold Orchestrator.parsedOf. rewrite Hf. apply parseTabs_foldl. }
  rewrite Hp. split.
  - intros j nom r Hj.
    destruct (last_routed_wins (Orchestrator.routedKind nom r) tabs
                Orchestrator.noRecords j nom r Hj eq_refl)
      as (l & noml & rl & _ & Hl & Hkl & Hs & _).
    assert (l = j) as -> by (by eapply Hapart).
    rewrite Hj in Hl. by injection Hl as -> ->.
  - intros k Hu. apply noRecords_unrouted; [done | by destruct k].
Qed.

Lemma sample_tabs_routed_apart :
  StoreRead.routedApart
    (Orchestrator.tabsInOrder (Some Samples.janeTab) (Some ImportSamples.candidatesTab)
       (Some ImportSamples.clientsTab) (Some ImportSamples.performanceTab)).
Proof.
  intros i j ni nj ri rj Hi Hj Hk.
  destruct i as [| [| [| [| i]]]]; destruct j as [| [| [| [| j]]]];
    try reflexivity; simpl in Hi, Hj; try discriminate;
    injection Hi as <- <-; injection Hj as <- <-;
    vm_compute in Hk; discriminate.
Qed.

Lemma routing_tolerates_swaps_witness :
  let w := ImportSamples.keyWorld (ImportSamples.okJson Samples.janeTab)
             ImportSamples.allUp in
  let tabs := Orchestrator.tabsInOrder (Some Samples.janeTab)
                (Some ImportSamples.candidatesTab) (Some ImportSamples.clientsTab)
                (Some ImportSamples.performanceTab) in
  (forall j nom r, tabs !! j = Some (nom, Some r) ->
     Orchestrator.slotIs (Orchestrator.routedKind nom r)
       (Orchestrator.parsedOf w ImportSamples.sampleConfig) r) /\
  (forall k, StoreRead.unrouted k tabs ->
     Orchestrator.parsedCount k
       (Orchestrator.parsedOf w ImportSamples.sampleConfig) = 0%nat).
Proof.
  apply (routing_tolerates_swaps
           (ImportSamples.keyWorld (ImportSamples.okJson Samples.janeTab)
              ImportSamples.allUp)
           ImportSamples.sampleConfig).
  - vm_compute. reflexivity.
  - exact sample_tabs_routed_apart.
Defined.

Section ReadBack.
Import Sheets Fetch Orchestrator StoreRead.

Lemma fetchAll_up findUp st :
  (forall k, findUp k = true) ->
  fetchAll findUp st
  = (st, inr {| recruiterDocs := RecruiterColl st;
                candidateDocs := CandidateColl st;
                clientDocs := ClientColl st;
                performanceDocs := PerformanceColl st |}).
Proof.
  intros Hup. unfold fetchAll, bind, findGuard, readStore. by rewrite !Hup.
Qed.

End ReadBack.

(** X11.  Reading back after an import, the store being available for
    the import.  What [fetchAll] returns is not what the import returned
    but what the schemas made of it.  With the four reads answered and
    every record passing its schema, it returns the records as the
    schemas store them: the paths of the schema only, so without the
    properties the mappers add beside them (the identifier and the
    version key that the store adds are not represented).  A kind with a
    record that does not pass its schema reads back empty, although the
    import returned its records.  When a read is refused, [fetchAll]
    raises and returns no partial data.  The store is left as the import
    left it. *)
Theorem fetchAll_after_import (w : Fetch.World)
    (config : Orchestrator.GoogleSheetsConfig) (st : Orchestrator.Store)
    (findUp : Sheets.kind -> bool) :
  Orchestrator.storeUpAll w ->
  let out := Orchestrator.importSheetsAndSave w config st in
  let p := Orchestrator.parsedOf w config in
  snd out = inr p /\
  ((forall k, findUp k = true) -> Orchestrator.allValid p ->
     StoreRead.fetchAll findUp (fst out)
     = (fst out, inr (StoreRead.documentsOf p))) /\
  ((forall k, findUp k = true) ->
   forall k, Orchestrator.validKind k p = false ->
     exists d, StoreRead.fetchAll findUp (fst out) = (fst out, inr d) /\
               StoreRead.noneOfKind k d) /\
  ((exists k, findUp k = false) ->
     StoreRead.fetchAll findUp (fst out) = (fst out, inl StoreError)).
Proof.
  intros Hup out p.
  split; [apply importSheetsAndSave_returns |]. split; [| split].
  - intros Hf Hv. unfold out. rewrite importSheetsAndSave_up by done. simpl.
    by rewrite fetchAll_up.
  - intros Hf k Hk. rewrite fetchAll_up by done. eexists. split; [done |].
    assert (He : Orchestrator.collEmpty k (fst out)).
    { unfold out. rewrite import_store.
      apply replaceAll_invalid; [intros k0; apply Hup | done]. }
    by destruct k.
  - intros [k Hk]. unfold StoreRead.fetchAll, Orchestrator.bind, StoreRead.findGuard.
    destruct (findUp Sheets.KRecruiters) eqn:E1; [| done].
    destruct (findUp Sheets.KCandidates) eqn:E2; [| done].
    destruct (findUp Sheets.KClients) eqn:E3; [| done].
    destruct (findUp Sheets.KPerformance) eqn:E4; [| done].
    destruct k; congruence.
Qed.

Lemma fetchAll_after_import_witness :
  let w := ImportSamples.keyWorld (ImportSamples.okJson Samples.janeTab)
             ImportSamples.allUp in
  let out := Orchestrator.importSheetsAndSave w ImportSamples.sampleConfig
               ImportSamples.priorStore in
  let p := Orchestrator.parsedOf w ImportSamples.sampleConfig in
  snd out = inr p /\
  ((forall k, (fun _ : Sheets.kind => true) k = true) -> Orchestrator.allValid p ->
     StoreRead.fetchAll (fun _ => true) (fst out)
     = (fst out, inr (StoreRead.documentsOf p))) /\
  ((forall k, (fun _ : Sheets.kind => true) k = true) ->
   forall k, Orchestrator.validKind k p = false ->
     exists d, StoreRead.fetchAll (fun _ => true) (fst out) = (fst out, inr d) /\
               StoreRead.noneOfKind k d) /\
  ((exists k, (fun _ : Sheets.kind => true) k = false) ->
     StoreRead.fetchAll (fun _ => true) (fst out) = (fst out, inl StoreError)).
Proof.
  apply (fetchAll_after_import
           (ImportSamples.keyWorld (ImportSamples.okJson Samples.janeTab)
              ImportSamples.allUp)
           ImportSamples.sampleConfig ImportSamples.priorStore (fun _ => true)).
  intros op. reflexivity.
Defined.

(** A recruiters tab with a row that has no name: the import returns the
    two recruiters, and the store, though available, holds none, nor any
    record of the kinds inserted after it. *)
Lemma unnamed_row_empties_the_store :
  let w := ImportSamples.keyWorld (ImportSamples.okJson StoreSamples.unnamedTab)
             ImportSamples.allUp in
  let out := Orchestrator.importSheetsAndSave w ImportSamples.sampleConfig
               ImportSamples.priorStore in
  length (Orchestrator.recruiters (Orchestrator.parsedOf w ImportSamples.sampleConfig))
    = 2%nat /\
  fst out = StoreRead.emptyStore.
Proof. split; vm_compute; reflexivity. Qed.

(** ** Schema mappers: defaults, labels and coercions *)

Section ByName.
Import Js JsNumber Sheets MapperFacts.

Lemma fillByName_other header : forall i row m k,
  k ∉ header -> fillByName header i row m !! k = m !! k.
Proof.
  induction header as [| h header IH]; intros i row m k Hk; [done |].
  simpl. apply not_elem_of_cons in Hk as [Hne Hk].
  rewrite IH by done. unfold setProp.
  destruct (String.eqb h "__proto__"); [done |]. by rewrite lookup_insert_ne.
Qed.

(** The last column of a name decides the property of that name. *)
Lemma fillByName_last header : forall j row m i k,
  header !! i = Some k ->
  (forall i', (i < i')%nat -> header !! i' <> Some k) ->
  k <> "__proto__" ->
  fillByName header j row m !! k = Some (default "" (row !! (j + i)%nat)).
Proof.
  induction header as [| h header IH]; intros j row m i k Hi Hlast Hp; [done |].
  destruct i as [| i]; simpl in *.
  - injection Hi as ->. rewrite fillByName_other.
    + unfold setProp. rewrite (proj2 (String.eqb_neq k "__proto__")) by done.
      by rewrite lookup_insert_eq, Nat.add_0_r.
    + intros Hin. apply list_elem_of_lookup in Hin as [i' Hi'].
      by apply (Hlast (S i')); [lia |].
  - rewrite (IH (S j) row _ i k); [do 3 f_equal; lia | done | | done].
    intros i' Hlt. apply (Hlast (S i')). lia.
Qed.

(** A blank row puts nothing but empty strings under the names. *)
Lemma fillByName_blank header : forall i row m k,
  blankRow row ->
  (m !! k = None \/ m !! k = Some "") ->
  fillByName header i row m !! k = None \/ fillByName header i row m !! k = Some "".
Proof.
  induction header as [| h header IH]; intros i row m k Hb Hm; [done |].
  simpl. apply IH; [done |]. unfold setProp.
  destruct (String.eqb h "__proto__"); [done |].
  destruct (decide (h = k)) as [-> |].
  - right. rewrite lookup_insert_eq. f_equal.
    destruct (row !! i) as [c |] eqn:Ec; [| done]. simpl.
    unfold blankRow in Hb. rewrite Forall_forall in Hb.
    apply Hb. by eapply list_elem_of_lookup_2.
  - by rewrite lookup_insert_ne.
Qed.

Lemma orStr_blank (o : option string) b :
  o = None \/ o = Some "" -> orStr o b = b.
Proof. by intros [-> | ->]. Qed.

Lemma blank_cell row n : blankRow row -> row !! n = None \/ row !! n = Some "".
Proof.
  intros Hb. destruct (row !! n) as [c |] eqn:Ec; [| by left]. right. f_equal.
  unfold blankRow in Hb. rewrite Forall_forall in Hb.
  apply Hb. by eapply list_elem_of_lookup_2.
Qed.

End ByName.

(** X12.  A data row without content, that is, no cells or empty cells
    only, maps to the all-defaults record of each kind, whatever the
    header row: empty text fields, number 0, no skills, and the default
    status (and trend) of the kind. *)
Theorem blank_row_gives_defaults (header row : list string) :
  MapperFacts.blankRow row ->
  Sheets.recruiterOfRow header row = MapperFacts.defaultRecruiter /\
  Sheets.candidateOfRow header row = MapperFacts.defaultCandidate /\
  Sheets.clientOfRow header row = MapperFacts.defaultClient /\
  Sheets.performanceOfRow header row = MapperFacts.defaultPerformance.
Proof.
  intros Hb.
  assert (Hn : forall k, Sheets.mkByName header row !! k = None \/
                         Sheets.mkByName header row !! k = Some "").
  { intros k. apply fillByName_blank; [done | by left]. }
  assert (Hc := fun n => blank_cell row n Hb).
  unfold Sheets.recruiterOfRow, Sheets.candidateOfRow, Sheets.clientOfRow,
    Sheets.performanceOfRow.
  rewrite !(orStr_blank (Sheets.mkByName header row !! _)) by apply Hn.
  rewrite !(orStr_blank (row !! _)) by apply Hc.
  repeat split.
Qed.

Lemma blank_row_gives_defaults_witness :
  Sheets.recruiterOfRow ["name"; "email"; "hired"] [""; ""]
    = MapperFacts.defaultRecruiter /\
  Sheets.candidateOfRow ["name"; "email"; "hired"] [""; ""]
    = MapperFacts.defaultCandidate /\
  Sheets.clientOfRow ["name"; "email"; "hired"] [""; ""]
    = MapperFacts.defaultClient /\
  Sheets.performanceOfRow ["name"; "email"; "hired"] [""; ""]
    = MapperFacts.defaultPerformance.
Proof.
  apply (blank_row_gives_defaults ["name"; "email"; "hired"] [""; ""]).
  repeat constructor.
Defined.

Section Labels.
Import Js JsNumber Sheets MapperFacts.

Lemma labelled_lookup header row k v :
  labelled header row k v -> k <> "__proto__" ->
  mkByName header row !! k = Some v.
Proof.
  intros (i & Hi & Hlast & Hv & _) Hp. unfold mkByName.
  rewrite (fillByName_last header 0 row ∅ i k) by done. simpl. by rewrite Hv.
Qed.

Lemma orStr_some v b : v <> "" -> orStr (Some v) b = v.
Proof. by destruct v. Qed.

End Labels.

(** X13.  Labels beat positions.  For the Recruiter mapper, a column whose
    normalised header is [name], [email], [hired] or [status] supplies
    that field from its non-empty cell, wherever the column stands in the
    row. *)
Theorem labelled_columns_win (header row : list string) :
  (forall v, MapperFacts.labelled header row "name" v ->
     Recruiter.name (Sheets.recruiterOfRow header row) = v) /\
  (forall v, MapperFacts.labelled header row "email" v ->
     Recruiter.email (Sheets.recruiterOfRow header row) = v) /\
  (forall v, MapperFacts.labelled header row "hired" v ->
     Recruiter.hired (Sheets.recruiterOfRow header row) = JsNumber.parseNum v) /\
  (forall v, MapperFacts.labelled header row "status" v ->
     Recruiter.status (Sheets.recruiterOfRow header row) = v).
Proof.
  repeat split; intros v Hl;
    pose proof Hl as (_ & _ & _ & _ & Hne);
    (apply labelled_lookup in Hl; [| done]);
    unfold Sheets.recruiterOfRow; simpl; rewrite Hl;
    by rewrite orStr_some.
Qed.

Lemma labelled_columns_win_witness :
  Recruiter.email
    (Sheets.recruiterOfRow ["status"; "hired"; "email"] ["active"; "7"; "jane@x.com"])
  = "jane@x.com".
Proof.
  apply (labelled_columns_win ["status"; "hired"; "email"] ["active"; "7"; "jane@x.com"]).
  exists 2%nat. repeat split.
  - intros j Hj. destruct j as [| [| [| j]]]; try lia; done.
  - intros E. discriminate E.
Defined.

(** X14.  The inferred kind depends only on which normalised header cells
    occur: two tabs whose header rows have the same cells after trimming
    and lower-casing, in any order and with any repetition, and any data
    rows, are inferred alike. *)
Theorem inference_ignores_column_order (h1 h2 : list string)
    (rows1 rows2 : list (list string)) :
  (forall k, k ∈ Sheets.normHeader h1 <-> k ∈ Sheets.normHeader h2) ->
  Sheets.inferType (Some {| Sheets.values := Some (h1 :: rows1) |})
  = Sheets.inferType (Some {| Sheets.values := Some (h2 :: rows2) |}).
Proof.
  intros Hsame. simpl.
  assert (Hhas : forall keys,
            Sheets.has (Sheets.normHeader h1) keys
            = Sheets.has (Sheets.normHeader h2) keys).
  { intros keys. apply eq_true_iff_eq. rewrite !has_true.
    unfold Sheets.hasAny. by setoid_rewrite Hsame. }
  unfold Sheets.inferHeader. by rewrite !Hhas.
Qed.

Lemma inference_ignores_column_order_witness :
  Sheets.inferType (Some {| Sheets.values := Some [["Name"; "Industry "]; ["a"; "b"]] |})
  = Sheets.inferType (Some {| Sheets.values := Some [["INDUSTRY"; " name"; "name"]] |}).
Proof.
  apply inference_ignores_column_order.
  intros k. vm_compute Sheets.normHeader.
  rewrite !elem_of_cons, !elem_of_nil. tauto.
Defined.

Section Trimming.
Import Js.

Lemma trimEnd_idem s : trimEnd (trimEnd s) = trimEnd s.
Proof.
  induction s as [| c s IH]; [done |]. simpl.
  destruct (isWhiteSpace c && isEmpty (trimEnd s)) eqn:E; [done |].
  simpl. by rewrite IH, E.
Qed.

Lemma trimStart_fixed s : trimStart (trimStart s) = trimStart s.
Proof.
  induction s as [| c s IH]; [done |]. simpl.
  destruct (isWhiteSpace c) eqn:E; [done |]. simpl. by rewrite E.
Qed.

(** Trimming the end does not expose white space at the start. *)
Lemma trimStart_trimEnd s :
  trimStart s = s -> trimStart (trimEnd s) = trimEnd s.
Proof.
  destruct s as [| c s]; [done |]. simpl.
  destruct (isWhiteSpace c) eqn:E.
  - intros H. exfalso.
    assert (Hlen : (String.length (trimStart s) <= String.length s)%nat).
    { clear. induction s as [| d s IH]; simpl; [lia |].
      destruct (isWhiteSpace d); simpl; lia. }
    rewrite H in Hlen. simpl in Hlen. lia.
  - intros _. simpl. by rewrite E.
Qed.

Lemma trim_idem s : trim (trim s) = trim s.
Proof.
  unfold trim. rewrite trimStart_trimEnd by apply trimStart_fixed.
  apply trimEnd_idem.
Qed.

Lemma allChars_trimStart p s : allChars p s = true -> allChars p (trimStart s) = true.
Proof.
  induction s as [| c s IH]; [done |]. simpl.
  intros [Hc Hs]%andb_prop. destruct (isWhiteSpace c); [by apply IH |].
  simpl. by rewrite Hc, Hs.
Qed.

Lemma allChars_trimEnd p s : allChars p s = true -> allChars p (trimEnd s) = true.
Proof.
  induction s as [| c s IH]; [done |]. simpl.
  intros [Hc Hs]%andb_prop.
  destruct (isWhiteSpace c && isEmpty (trimEnd s)); [done |].
  simpl. by rewrite Hc, IH.
Qed.

Lemma allChars_trim p s : allChars p s = true -> allChars p (trim s) = true.
Proof. intros H. by apply allChars_trimEnd, allChars_trimStart. Qed.

End Trimming.

Section Skills.
Import Js Sheets.

Lemma allChars_snoc p s c :
  allChars p (snoc s c) = allChars p s && p c.
Proof. unfold snoc. rewrite allChars_app. simpl. by rewrite andb_true_r. Qed.

(** No piece of a split holds a separator. *)
Lemma splitOn_pieces p s : forall cur piece,
  allChars (fun c => negb (p c)) cur = true ->
  piece ∈ splitOn p s cur ->
  allChars (fun c => negb (p c)) piece = true.
Proof.
  induction s as [| c s IH]; intros cur piece Hcur Hin; simpl in Hin.
  - by apply list_elem_of_singleton in Hin as ->.
  - destruct (p c) eqn:E.
    + apply elem_of_cons in Hin as [-> | Hin]; [done |]. by apply (IH "").
    + apply (IH (snoc cur c)); [| done]. by rewrite allChars_snoc, Hcur, E.
Qed.

End Skills.

(** X15.  Every skill a cell yields is a non-empty token without blanks
    at its ends and without a separator ([,], [;] or [|]) inside; the list
    is never missing, and an empty cell gives the empty list. *)
Theorem skills_are_clean_tokens (cell : string) :
  (forall t, t ∈ Sheets.splitSkills cell ->
     t <> "" /\ Js.trim t = t /\
     Js.allChars (fun c => negb (Sheets.isSkillSep c)) t = true) /\
  Sheets.splitSkills "" = [].
Proof.
  split; [| reflexivity].
  intros t Ht. unfold Sheets.splitSkills in Ht.
  apply list_elem_of_In, filter_In in Ht as [Ht Hne].
  apply in_map_iff in Ht as (piece & <- & Hp). apply list_elem_of_In in Hp.
  split; [| split].
  - intros E. by rewrite E in Hne.
  - apply trim_idem.
  - apply allChars_trim. by apply (splitOn_pieces Sheets.isSkillSep cell "").
Qed.

Section CoercionEdges.
Import Js JsNumber MapperFacts.

Lemma stripNonNumeric_is_plain x : plainDecimal (stripNonNumeric x).
Proof.
  unfold plainDecimal. induction x as [| c x IH]; [done |]. simpl.
  destruct (isNumChar c) eqn:E; [| done]. simpl. by rewrite E.
Qed.

Lemma stripNonNumeric_idem x :
  stripNonNumeric (stripNonNumeric x) = stripNonNumeric x.
Proof. apply stripNonNumeric_plain, stripNonNumeric_is_plain. Qed.

Lemma stripNonNumeric_nodigit x :
  allChars (fun c => negb (isDigit c)) x = true ->
  allChars (fun c => negb (isDigit c)) (stripNonNumeric x) = true.
Proof.
  induction x as [| c x IH]; [done |]. simpl.
  intros [Hc Hx]%andb_prop. destruct (isNumChar c); [| by apply IH].
  simpl. by rewrite Hc, IH.
Qed.

Lemma scanDigits_nodigit s acc cnt :
  allChars (fun c => negb (isDigit c)) s = true ->
  scanDigits s acc cnt = (acc, cnt, s).
Proof.
  destruct s as [| c s]; [done |]. simpl.
  intros [Hc _]%andb_prop. apply negb_true_iff in Hc. by rewrite Hc.
Qed.

Lemma decimalLiteral_nodigit neg body :
  allChars (fun c => negb (isDigit c)) body = true ->
  decimalLiteral neg body = S754_nan.
Proof.
  intros Hb. unfold decimalLiteral. rewrite scanDigits_nodigit by done.
  destruct body as [| d r2]; [done |].
  destruct (Ascii.eqb d "."); [| done].
  simpl in Hb. apply andb_prop in Hb as [_ Hr].
  rewrite scanDigits_nodigit by done. by destruct r2.
Qed.

Lemma Number_nodigit s :
  allChars (fun c => negb (isDigit c)) s = true ->
  orZero (Number s) = posZero.
Proof.
  intros Hs. destruct s as [| c r]; [done |]. unfold Number.
  destruct (Ascii.eqb c "-").
  - rewrite decimalLiteral_nodigit; [done |].
    simpl in Hs. by apply andb_prop in Hs as [_ Hr].
  - by rewrite decimalLiteral_nodigit.
Qed.

(** A string with a character that is no digit splits at the first such
    character. *)
Lemma first_nondigit s :
  allChars isDigit s = false ->
  exists ds c r,
    s = ds +:+ String c r /\ allChars isDigit ds = true /\ isDigit c = false.
Proof.
  induction s as [| c s IH]; [done |]. simpl.
  destruct (isDigit c) eqn:E; simpl.
  - intros Hs. destruct (IH Hs) as (ds & c' & r & -> & Hds & Hc').
    exists (String c ds), c', r. simpl. by rewrite E, Hds.
  - intros _. by exists "", c, s.
Qed.

Lemma scanDigits_stop ds c r : forall acc cnt,
  allChars isDigit ds = true -> isDigit c = false ->
  exists a n, scanDigits (ds +:+ String c r) acc cnt = (a, n, String c r).
Proof.
  induction ds as [| d ds IH]; intros acc cnt Hds Hc; simpl.
  - rewrite Hc. by eexists _, _.
  - simpl in Hds. apply andb_prop in Hds as [Hd Hds]. rewrite Hd. by apply IH.
Qed.

Lemma decimalLiteral_stops neg ds c r :
  allChars isDigit ds = true -> isDigit c = false ->
  Ascii.eqb c "." = false \/ allChars isDigit r = false ->
  decimalLiteral neg (ds +:+ String c r) = S754_nan.
Proof.
  intros Hds Hc Hbad. unfold decimalLiteral.
  destruct (scanDigits_stop ds c r 0 0 Hds Hc) as (a & n & ->).
  destruct (Ascii.eqb c ".") eqn:Edot; [| done].
  destruct Hbad as [? | Hr]; [done |].
  destruct (first_nondigit r Hr) as (ds2 & c2 & r2 & -> & Hds2 & Hc2).
  by destruct (scanDigits_stop ds2 c2 r2 a 0 Hds2 Hc2) as (a2 & n2 & ->).
Qed.

Lemma countChar_app ch a b :
  countChar ch (a +:+ b) = (countChar ch a + countChar ch b)%nat.
Proof. induction a as [| c a IH]; simpl; [done | rewrite IH; lia]. Qed.

Lemma countChar_digits ch ds :
  isDigit ch = false -> allChars isDigit ds = true -> countChar ch ds = 0%nat.
Proof.
  intros Hch. induction ds as [| d ds IH]; [done |]. simpl.
  intros [Hd Hds]%andb_prop. rewrite IH by done.
  destruct (Ascii.eqb_spec d ch) as [-> |]; [congruence | done].
Qed.

Lemma countChar_nondigit ch r :
  isDigit ch = false -> (1 <= countChar ch r)%nat -> allChars isDigit r = false.
Proof.
  intros Hch Hr. destruct (allChars isDigit r) eqn:E; [| done].
  rewrite (countChar_digits ch r Hch E) in Hr. lia.
Qed.

(** A minus sign or a second dot in the body of a literal makes it NaN. *)
Lemma decimalLiteral_malformed neg body :
  (1 <= countChar "-" body)%nat \/ (2 <= countChar "." body)%nat ->
  decimalLiteral neg body = S754_nan.
Proof.
  intros Hbad.
  assert (Hnd : allChars isDigit body = false).
  { destruct Hbad as [H | H].
    - by apply (countChar_nondigit "-").
    - apply (countChar_nondigit "."); [done | lia]. }
  destruct (first_nondigit body Hnd) as (ds & c & r & -> & Hds & Hc).
  apply decimalLiteral_stops; [done | done |].
  destruct (Ascii.eqb_spec c ".") as [-> | Hne]; [right | by left].
  rewrite !countChar_app in Hbad. simpl in Hbad.
  rewrite !(countChar_digits _ ds) in Hbad by done.
  destruct Hbad as [H | H].
  - apply (countChar_nondigit "-"); [done | lia].
  - apply (countChar_nondigit "."); [done | lia].
Qed.

End CoercionEdges.

(** X16.  Numeric coercion never yields NaN or a negative zero; it
    depends on the digits, dots and minus signs of the input only; and an
    input without any digit is coerced to 0. *)
Theorem parseNum_is_total_and_clean (x : string) :
  JsNumber.parseNum x <> S754_nan /\
  JsNumber.parseNum x <> S754_zero true /\
  JsNumber.parseNum x = JsNumber.parseNum (JsNumber.stripNonNumeric x) /\
  (Js.allChars (fun c => negb (JsNumber.isDigit c)) x = true ->
   JsNumber.parseNum x = JsNumber.posZero).
Proof.
  split; [apply parseNum_not_nan |]. split; [| split].
  - intros H. by apply parseNum_zero in H.
  - unfold JsNumber.parseNum. rewrite stripNonNumeric_idem.
    destruct x as [| c x]; [done |]. simpl Js.isEmpty at 1. cbv iota.
    by destruct (JsNumber.stripNonNumeric (String c x)).
  - intros Hx. unfold JsNumber.parseNum.
    destruct (Js.isEmpty x); [done |].
    apply Number_nodigit. by apply stripNonNumeric_nodigit.
Qed.

(** X17.  A minus sign anywhere but in front, or a second dot, spoils the
    number: when the characters kept of the input have either, as
    [2024-01], [555-1234] or [1.2.3] do, the input is coerced to 0. *)
Theorem parseNum_malformed_is_zero (x : string) (c : ascii) (rest : string) :
  JsNumber.stripNonNumeric x = String c rest ->
  (1 <= MapperFacts.countChar "-" rest)%nat \/
  (2 <= MapperFacts.countChar "." (String c rest))%nat ->
  JsNumber.parseNum x = JsNumber.posZero.
Proof.
  intros Hs Hbad. unfold JsNumber.parseNum.
  destruct x as [| c0 x0]; [done |]. simpl Js.isEmpty. cbv iota.
  rewrite Hs. unfold JsNumber.Number.
  destruct (Ascii.eqb_spec c "-") as [-> | Hne].
  - rewrite decimalLiteral_malformed; [done |].
    destruct Hbad as [H | H]; [by left | right]. simpl in H. lia.
  - rewrite decimalLiteral_malformed; [done |].
    destruct Hbad as [H | H]; [left | by right]. simpl.
    destruct (Ascii.eqb c "-"); lia.
Qed.

Lemma parseNum_malformed_is_zero_witness :
  JsNumber.parseNum "2024-01" = JsNumber.posZero.
Proof.
  apply (parseNum_malformed_is_zero "2024-01" "2" "024-01").
  - reflexivity.
  - left. vm_compute. lia.
Defined.

(** ** Source fetchers: the order of the fallbacks *)

(** X18.  The order of the strategies.  A response of the credentialed
    strategy, even one without rows, is returned as it is and no key is
    used.  When that strategy is unavailable or raises, the error is
    dropped and the API-key strategy answers, success or error, with the
    key of the call if it is non-empty and else with the key of the
    environment. *)
Theorem fetchSheet_fallback_order (w : Fetch.World) (spreadsheetId range : string)
    (apiKey : option string) :
  (forall r, Fetch.fetchSheetViaServiceAccount w spreadsheetId range = inr (Some r) ->
     Fetch.fetchSheet w spreadsheetId range apiKey = inr r) /\
  (Fetch.credentialedNoData w spreadsheetId range ->
   forall k, apiKey = Some k -> k <> "" ->
     Fetch.fetchSheet w spreadsheetId range apiKey
     = Fetch.fetchSheetViaApiKey w spreadsheetId range k) /\
  (Fetch.credentialedNoData w spreadsheetId range ->
   Fetch.truthyStr apiKey = false ->
   forall k, Fetch.GOOGLE_SHEETS_API_KEY w = Some k -> k <> "" ->
     Fetch.fetchSheet w spreadsheetId range apiKey
     = Fetch.fetchSheetViaApiKey w spreadsheetId range k).
Proof.
  split; [| split].
  - intros r Hr. unfold Fetch.fetchSheet. rewrite Hr.
    by destruct (sa_response_has_values _ _ _ _ Hr) as [vs ->].
  - intros Hno k -> Hk. unfold Fetch.fetchSheet, Fetch.credentialedNoData in *.
    destruct (Fetch.fetchSheetViaServiceAccount w spreadsheetId range)
      as [e | [r |]]; try done; by destruct k.
  - intros Hno Ha k He Hk. unfold Fetch.fetchSheet, Fetch.credentialedNoData in *.
    assert (Hkey : Js.orOpt apiKey (Fetch.GOOGLE_SHEETS_API_KEY w) = Some k).
    { rewrite He. destruct apiKey as [a |]; [| done].
      simpl in *. by destruct (Js.isEmpty a). }
    destruct (Fetch.fetchSheetViaServiceAccount w spreadsheetId range)
      as [e | [r |]]; try done; rewrite Hkey; by destruct k.
Qed.

(** ** The CSV parser: rows and unquoted lines *)

Section CsvRows.
Import Js Csv CsvFacts.

Lemma fillRow_keys header : forall j cols row k,
  is_Some (fillRow header j cols row !! k)
  <-> is_Some (row !! k) \/ (k ∈ header /\ k <> "__proto__").
Proof.
  induction header as [| h header IH]; intros j cols row k; simpl.
  - rewrite elem_of_nil. tauto.
  - rewrite IH, elem_of_cons. unfold setProp.
    destruct (String.eqb_spec h "__proto__") as [-> | Hp].
    + split; [tauto |]. intros [? | [[-> | ?] ?]]; tauto.
    + destruct (decide (k = h)) as [-> | Hne].
      * rewrite lookup_insert_eq. split; [| by left; eexists]. tauto.
      * rewrite lookup_insert_ne by done. split; [tauto |].
        intros [? | [[? | ?] ?]]; tauto.
Qed.

Lemma rowsOf_keys header lines row :
  row ∈ rowsOf header lines ->
  forall k, is_Some (row !! k) <-> (k ∈ header /\ k <> "__proto__").
Proof.
  induction lines as [| l lines IH]; simpl; [by intros ?%elem_of_nil |].
  destruct (isEmpty (trim l)); [done |].
  intros [-> | Hin]%elem_of_cons; [| by apply IH].
  intros k. rewrite fillRow_keys, lookup_empty.
  split; [intros [[? ?] | ?]; done | by right].
Qed.

Lemma rowsOf_length header lines :
  (length (rowsOf header lines) <= length lines)%nat.
Proof.
  induction lines as [| l lines IH]; simpl; [lia |].
  destruct (isEmpty (trim l)); simpl; lia.
Qed.

(** Without quotes the column loop splits at every comma. *)
Lemma scanCols_unquoted line : forall field cols,
  noQuote line = true ->
  scanCols line field false cols = (cols ++ Sheets.splitOn isComma line field)%list.
Proof.
  unfold noQuote. induction line as [| c line IH]; intros field cols Hq; [done |].
  simpl in Hq. apply andb_prop in Hq as [Hc Hq]. apply negb_true_iff in Hc.
  simpl. rewrite Hc. unfold isComma. rewrite andb_true_r.
  destruct (Ascii.eqb c comma).
  - rewrite IH by done. by rewrite <- app_assoc.
  - by apply IH.
Qed.

Lemma splitOn_allChars q p s : forall cur piece,
  allChars q cur = true -> allChars q s = true ->
  piece ∈ Sheets.splitOn p s cur -> allChars q piece = true.
Proof.
  induction s as [| c s IH]; intros cur piece Hcur Hs Hin; simpl in Hin.
  - by apply list_elem_of_singleton in Hin as ->.
  - simpl in Hs. apply andb_prop in Hs as [Hc Hs]. destruct (p c).
    + apply elem_of_cons in Hin as [-> | Hin]; [done |]. by apply (IH "").
    + apply (IH (snoc cur c)); [| done | done].
      unfold snoc. rewrite allChars_app. simpl. by rewrite Hcur, Hc.
Qed.

Lemma lastChar_noQuote f c :
  noQuote f = true -> lastChar f = Some c -> Ascii.eqb c dquote = false.
Proof.
  unfold noQuote. induction f as [| a f IH]; [done |].
  simpl allChars. intros [Hq Hf]%andb_prop.
  destruct f as [| b f].
  - simpl. intros [= <-]. by apply negb_true_iff in Hq.
  - intros Hl. by apply IH.
Qed.

Lemma stripQuotes_noQuote f : noQuote f = true -> stripQuotes f = f.
Proof.
  intros Hf. unfold stripQuotes.
  assert (H1 : match f with
               | String c r => if Ascii.eqb c dquote then r else f
               | EmptyString => f
               end = f).
  { destruct f as [| c r]; [done |]. unfold noQuote in Hf. simpl in Hf.
    apply andb_prop in Hf as [Hq _]. apply negb_true_iff in Hq. by rewrite Hq. }
  rewrite H1. destruct (lastChar f) as [c |] eqn:El; [| done].
  by rewrite (lastChar_noQuote f c).
Qed.

End CsvRows.

(** X19.  All the rows of a parsed CSV text have the same keys: the names
    of the header line (but [__proto__]), each with a value, which is the
    empty string where a line has fewer cells; and the rows are at most
    as many as the lines after the first. *)
Theorem csv_rows_share_header (csv : string) :
  (forall row, row ∈ Csv.parseCsvToObjects csv ->
     forall k, is_Some (row !! k)
               <-> (k ∈ CsvFacts.headerOf csv /\ k <> "__proto__")) /\
  (length (Csv.parseCsvToObjects csv) <= length (Csv.splitLines csv) - 1)%nat.
Proof.
  unfold Csv.parseCsvToObjects, CsvFacts.headerOf.
  destruct (Csv.splitLines csv) as [| l0 ls].
  - split; [by intros row ?%elem_of_nil | simpl; lia].
  - split; [intros row Hin; by eapply rowsOf_keys |].
    simpl. pose proof (rowsOf_length (map Js.trim (Csv.splitCsv l0)) ls). lia.
Qed.

(** X20.  A line without double quotes is split at every comma and each
    cell is trimmed. *)
Theorem unquoted_line_splits_at_commas (line : string) :
  CsvFacts.noQuote line = true ->
  Csv.splitCsv line = map Js.trim (Sheets.splitOn CsvFacts.isComma line "").
Proof.
  intros Hq. unfold Csv.splitCsv. rewrite scanCols_unquoted by done. simpl.
  apply map_ext_in. intros piece Hin. f_equal.
  apply stripQuotes_noQuote. apply list_elem_of_In in Hin.
  by apply (splitOn_allChars _ CsvFacts.isComma line "").
Qed.

Lemma unquoted_line_splits_at_commas_witness :
  Csv.splitCsv "Name, Email ,,Hired" = ["Name"; "Email"; ""; "Hired"].
Proof.
  rewrite (unquoted_line_splits_at_commas "Name, Email ,,Hired").
  - vm_compute. reflexivity.
  - vm_compute. reflexivity.
Defined.

(** ** The import request *)

Section LinkIds.
Import Js Routes.

Lemma takeWhile_all p s : allChars p (takeWhile p s) = true.
Proof.
  induction s as [| c s IH]; simpl; [done |].
  destruct (p c) eqn:E; simpl; [by rewrite E | done].
Qed.

Lemma takeWhile_run p id rest :
  allChars p id = true ->
  match rest with String c _ => p c = false | EmptyString => True end ->
  takeWhile p (id +:+ rest) = id.
Proof.
  induction id as [| c id IH]; simpl.
  - destruct rest as [| c r]; [done |]. intros _ Hc. simpl. by rewrite Hc.
  - intros [Hc Hs]%andb_prop Hr. by rewrite Hc, IH.
Qed.

Lemma takeWhile_split p s : exists post, s = takeWhile p s +:+ post.
Proof.
  induction s as [| c s [post IH]]; simpl; [by exists "" |].
  destruct (p c); [| by exists (String c s)].
  exists post. simpl. by rewrite <- IH.
Qed.

Lemma stripPrefix_Some p : forall s r, stripPrefix p s = Some r -> s = p +:+ r.
Proof.
  induction p as [| a p IH]; intros s r; simpl.
  - by destruct s; intros [= ->].
  - destruct s as [| b s]; [done |].
    destruct (Ascii.eqb_spec a b) as [-> |]; [| done].
    intros H%IH. by rewrite H.
Qed.

Lemma stripPrefix_app p s : stripPrefix p (p +:+ s) = Some s.
Proof.
  induction p as [| a p IH]; simpl; [by destruct s |].
  by rewrite Ascii.eqb_refl.
Qed.

Lemma matchSheetId_eq link :
  matchSheetId link =
  match matchHere link with
  | Some id => Some id
  | None => match link with
            | String _ r => matchSheetId r
            | EmptyString => None
            end
  end.
Proof. by destruct link. Qed.

Lemma matchSheetId_skip c r :
  matchHere (String c r) = None -> matchSheetId (String c r) = matchSheetId r.
Proof. intros H. by rewrite matchSheetId_eq, H. Qed.

Lemma matchHere_Some s id :
  matchHere s = Some id ->
  id <> "" /\ allChars isIdChar id = true /\
  exists post, s = "spreadsheets/d/" +:+ id +:+ post.
Proof.
  unfold matchHere.
  destruct (stripPrefix "spreadsheets/d/" s) as [rest |] eqn:E; [| done].
  apply stripPrefix_Some in E.
  destruct (isEmpty (takeWhile isIdChar rest)) eqn:Ee; [done |].
  intros [= <-]. split; [by destruct (takeWhile isIdChar rest) |].
  split; [apply takeWhile_all |].
  destruct (takeWhile_split isIdChar rest) as [post Hpost].
  exists post. by rewrite <- Hpost.
Qed.

Lemma matchSheetId_Some link : forall id,
  matchSheetId link = Some id ->
  id <> "" /\ allChars isIdChar id = true /\
  exists pre post, link = pre +:+ "spreadsheets/d/" +:+ id +:+ post.
Proof.
  induction link as [| c link IH]; intros id; rewrite matchSheetId_eq.
  - done.
  - destruct (matchHere (String c link)) as [id' |] eqn:E.
    + intros [= ->]. destruct (matchHere_Some _ _ E) as (Hne & Hall & post & Hs).
      split; [done |]. split; [done |]. by exists "", post.
    + intros (Hne & Hall & pre & post & Hs)%IH.
      split; [done |]. split; [done |].
      exists (String c pre), post. simpl. by rewrite Hs.
Qed.

Lemma matchSheetId_sheetUrl id rest :
  id <> "" -> allChars isIdChar id = true -> endsId rest ->
  matchSheetId (sheetUrl id rest) = Some id.
Proof.
  intros Hne Hall Hend. unfold sheetUrl.
  change ("https://docs.google.com/spreadsheets/d/" +:+ id +:+ rest)
    with ("https://docs.google.com/" +:+ "spreadsheets/d/" +:+ id +:+ rest).
  assert (Hhere : matchHere ("spreadsheets/d/" +:+ id +:+ rest) = Some id).
  { unfold matchHere. rewrite stripPrefix_app, takeWhile_run by done.
    by destruct id. }
  generalize dependent ("spreadsheets/d/" +:+ id +:+ rest). intros tail Hhere.
  cbn [String.append].
  do 24 (rewrite matchSheetId_skip by reflexivity).
  by rewrite matchSheetId_eq, Hhere.
Qed.

Lemma resolveId_link config link id :
  orStr (b_spreadsheetId config) "" = "" -> b_sheetLink config = Some link ->
  link <> "" -> matchSheetId link = Some id -> resolveId config = id.
Proof.
  intros Hraw Hlink Hne Hm. unfold resolveId. rewrite Hraw, Hlink. simpl.
  apply isEmpty_false in Hne. by rewrite Hne, Hm.
Qed.

End LinkIds.

(** X21.  The handler of an import request answers 400 when it finds no
    spreadsheet id, and otherwise 200 with what the import returns: the
    import never raises to it, so it never answers 500 and never calls the
    published-export importer, whatever that importer would do. *)
Theorem import_handler_never_falls_back (Published : Type)
    (importPublishedAndSave :
       string -> Orchestrator.Ranges -> option string -> Orchestrator.db Published)
    (storeMessage : string) (w : Fetch.World) (body : option Routes.ImportBody)
    (st : Orchestrator.Store) :
  Routes.handleImportSheets Published importPublishedAndSave storeMessage w body st =
  let config := default Routes.emptyBody body in
  if Js.isEmpty (Routes.resolveId config)
  then (st, inr (Routes.Bad400 "Missing spreadsheetId or sheetLink"))
  else (fst (Orchestrator.importSheetsAndSave w (Routes.finalConfig w config) st),
        inr (Routes.Ok200
               (Orchestrator.parsedOf w (Routes.finalConfig w config)))).
Proof.
  unfold Routes.handleImportSheets. cbv zeta.
  destruct (Js.isEmpty (Routes.resolveId (default Routes.emptyBody body))); [done |].
  unfold Orchestrator.tryCatch, Orchestrator.bind, Orchestrator.ret.
  pose proof (importSheetsAndSave_returns w
    (Routes.finalConfig w (default Routes.emptyBody body)) st) as Hret.
  destruct (Orchestrator.importSheetsAndSave w _ st) as [st' r].
  simpl in Hret. by subst r.
Qed.

(** X22.  A request that names a spreadsheet, on a server without
    credentials and without an API key, with the store available: the
    answer is 200 with four empty record sets, and whatever the store held
    is gone. *)
Theorem unconfigured_request_answers_empty (Published : Type)
    (importPublishedAndSave :
       string -> Orchestrator.Ranges -> option string -> Orchestrator.db Published)
    (storeMessage : string) (w : Fetch.World) (config : Routes.ImportBody)
    (st : Orchestrator.Store) :
  Fetch.credentialsAbsent w ->
  Fetch.noApiKey w (Routes.b_apiKey config) ->
  Orchestrator.storeUpAll w ->
  Routes.resolveId config <> "" ->
  Routes.handleImportSheets Published importPublishedAndSave storeMessage w
    (Some config) st
  = (StoreRead.emptyStore, inr (Routes.Ok200 Orchestrator.noRecords)).
Proof.
  intros Hc [Hk He] Hup Hid.
  unfold Routes.handleImportSheets. cbv zeta.
  change (default Routes.emptyBody (Some config)) with config.
  apply isEmpty_false in Hid. rewrite Hid.
  assert (Hp : Orchestrator.parsedOf w (Routes.finalConfig w config)
               = Orchestrator.noRecords).
  { unfold Orchestrator.parsedOf, Orchestrator.fetchTabs.
    assert (Hno : Fetch.noApiKey w
                    (Orchestrator.apiKey (Routes.finalConfig w config))).
    { split; [| done]. simpl. unfold Routes.resolveKey.
      by rewrite truthyStr_orOpt, Hk, He. }
    by rewrite !fetch_unconfigured. }
  unfold Orchestrator.tryCatch, Orchestrator.bind, Orchestrator.ret.
  rewrite importSheetsAndSave_up
    by (rewrite ?Hp; done || apply allValid_noRecords).
  by rewrite Hp.
Qed.

Lemma unconfigured_request_answers_empty_witness :
  Routes.handleImportSheets unit (fun _ _ _ => Orchestrator.ret tt) "store down"
    FetchSamples.bareWorld
    (Some {| Routes.b_spreadsheetId := None;
             Routes.b_sheetLink :=
               Some "https://docs.google.com/spreadsheets/d/abc_123/edit#gid=0";
             Routes.b_apiKey := None; Routes.b_ranges := None;
             Routes.b_gid := Some "0" |})
    ImportSamples.priorStore
  = (StoreRead.emptyStore, inr (Routes.Ok200 Orchestrator.noRecords)).
Proof.
  apply unconfigured_request_answers_empty.
  - left. reflexivity.
  - split; reflexivity.
  - intros op. reflexivity.
  - vm_compute. discriminate.
Defined.

(** X23.  The id of a spreadsheet link: for a link of the usual form, the
    id being a non-empty run of letters, digits, [-] and [_] that the rest
    of the link does not continue, a request with that link and no raw id
    resolves to the id. *)
Theorem sheet_link_resolves (id rest : string) (key : option string)
    (r : option Orchestrator.Ranges) (gid : option string) :
  id <> "" -> Js.allChars Routes.isIdChar id = true -> Routes.endsId rest ->
  Routes.resolveId {| Routes.b_spreadsheetId := None;
                      Routes.b_sheetLink := Some (Routes.sheetUrl id rest);
                      Routes.b_apiKey := key; Routes.b_ranges := r;
                      Routes.b_gid := gid |} = id.
Proof.
  intros Hne Hall Hend.
  apply (resolveId_link _ (Routes.sheetUrl id rest)); [done | done | done |].
  by apply matchSheetId_sheetUrl.
Qed.

Lemma sheet_link_resolves_witness :
  Routes.resolveId
    {| Routes.b_spreadsheetId := None;
       Routes.b_sheetLink := Some (Routes.sheetUrl "1AbC-d_9" "/edit#gid=0");
       Routes.b_apiKey := None; Routes.b_ranges := None;
       Routes.b_gid := None |} = "1AbC-d_9".
Proof.
  apply (sheet_link_resolves "1AbC-d_9" "/edit#gid=0").
  - discriminate.
  - reflexivity.
  - reflexivity.
Defined.

(** X24.  Whatever the link is, an id taken from it is a non-empty run of
    letters, digits, [-] and [_] that stands in the link right after
    [spreadsheets/d/]. *)
Theorem link_id_is_wellformed (config : Routes.ImportBody) (link : string) :
  Js.orStr (Routes.b_spreadsheetId config) "" = "" ->
  Routes.b_sheetLink config = Some link ->
  Routes.resolveId config <> "" ->
  Js.allChars Routes.isIdChar (Routes.resolveId config) = true /\
  exists pre post,
    link = pre +:+ "spreadsheets/d/" +:+ Routes.resolveId config +:+ post.
Proof.
  intros Hraw Hlink. unfold Routes.resolveId. rewrite Hraw, Hlink. simpl.
  destruct (Js.isEmpty link); simpl; [done |].
  destruct (Routes.matchSheetId link) as [id |] eqn:E; [| done].
  intros _. by destruct (matchSheetId_Some _ _ E) as (_ & Hall & Hex).
Qed.

Lemma link_id_is_wellformed_witness :
  Js.allChars Routes.isIdChar "abc" = true /\
  exists pre post,
    "see docs.google.com/spreadsheets/d/abc?x" =
    pre +:+ "spreadsheets/d/" +:+ "abc" +:+ post.
Proof.
  apply (link_id_is_wellformed
           {| Routes.b_spreadsheetId := Some "";
              Routes.b_sheetLink := Some "see docs.google.com/spreadsheets/d/abc?x";
              Routes.b_apiKey := None; Routes.b_ranges := None;
              Routes.b_gid := None |}
           "see docs.google.com/spreadsheets/d/abc?x").
  - reflexivity.
  - reflexivity.
  - vm_compute. discriminate.
Defined.

(** ** Clearing the data *)

(** X25.  What clearing the data leaves behind.  Whatever the store does,
    no timer and no run history remain.  The answer is a success exactly
    when the store carries out the four deletes and the delete of the
    configurations; then every collection and the configurations are
    empty, and the counts reported are the sizes from before.  On a
    failure the stored configurations are all kept, although their timers
    are gone, and each collection is either emptied or untouched. *)
Theorem clear_data_outcomes (w : Fetch.World) (configsUp : bool)
    (storeMessage : string) (s : Scheduler.State) (st : Orchestrator.Store) :
  let out := Maintenance.handleClearData w configsUp storeMessage s st in
  let s' := out.1.1 in
  let st' := out.1.2 in
  let reply := out.2 in
  Scheduler.intervals s' = ∅ /\ Scheduler.runHistory s' = ∅ /\
  (Maintenance.isCleared reply = true
   <-> StoreRead.deletesUp w /\ configsUp = true) /\
  (Maintenance.isCleared reply = true ->
     st' = StoreRead.emptyStore /\ Scheduler.configs s' = ∅ /\
     reply = Maintenance.Cleared
               (Maintenance.collSize Sheets.KRecruiters st)
               (Maintenance.collSize Sheets.KCandidates st)
               (Maintenance.collSize Sheets.KClients st)
               (Maintenance.collSize Sheets.KPerformance st)
               (size (Scheduler.configs s))) /\
  (Maintenance.isCleared reply = false ->
     Scheduler.configs s' = Scheduler.configs s /\
     forall k, Orchestrator.collEmpty k st' \/ Orchestrator.collUnchanged k st st').
Proof.
  cbv zeta. unfold Maintenance.handleClearData, Maintenance.deleteCounting,
    Maintenance.deleteConfigs, Orchestrator.bind, Orchestrator.ret,
    Orchestrator.deleteMany, Orchestrator.guard, StoreRead.deletesUp.
  destruct (Fetch.storeUp w (Fetch.DeleteMany Sheets.KRecruiters)) eqn:E1; simpl;
    [| repeat split; try done;
       [ intros [Hd _]; specialize (Hd Sheets.KRecruiters); congruence
       | intros k; right; by destruct k ] ].
  destruct (Fetch.storeUp w (Fetch.DeleteMany Sheets.KCandidates)) eqn:E2; simpl;
    [| repeat split; try done;
       [ intros [Hd _]; specialize (Hd Sheets.KCandidates); congruence
       | intros k; destruct k; (by left) || (by right) ] ].
  destruct (Fetch.storeUp w (Fetch.DeleteMany Sheets.KClients)) eqn:E3; simpl;
    [| repeat split; try done;
       [ intros [Hd _]; specialize (Hd Sheets.KClients); congruence
       | intros k; destruct k; (by left) || (by right) ] ].
  destruct (Fetch.storeUp w (Fetch.DeleteMany Sheets.KPerformance)) eqn:E4; simpl;
    [| repeat split; try done;
       [ intros [Hd _]; specialize (Hd Sheets.KPerformance); congruence
       | intros k; destruct k; (by left) || (by right) ] ].
  destruct configsUp; simpl.
  - repeat split; try done. intros k. by destruct k.
  - repeat split; try done.
    + by intros [_ ?].
    + intros k. left. by destruct k.
Qed.

(** ** The published export: fetching a tab *)

Section FirstCsv.
Import Js Published.

Variable fetch : string -> external TextResponse.

(** One attempt either gives a text that is taken, or nothing. *)
Lemma attempt_cases url rest :
  (exists text, answers fetch url text /\
                firstCsv fetch (url :: rest) = Some text) \/
  ((forall text, ~ answers fetch url text) /\
   firstCsv fetch (url :: rest) = firstCsv fetch rest).
Proof.
  unfold answers. simpl.
  destruct (fetch url) as [msg | res] eqn:Ef.
  - right. split; [| done]. by intros text (res & [=] & _).
  - destruct (t_ok res) eqn:Eok; simpl.
    + destruct (t_text res) as [msg | text] eqn:Et.
      * right. split; [| done]. intros text (res' & [= <-] & _ & Ht & _). congruence.
      * destruct (looksLikeCsv text) eqn:El.
        -- left. exists text. split; [| done]. by exists res.
        -- right. split; [| done].
           intros text' (res' & [= <-] & _ & Ht & Hl). congruence.
    + right. split; [| done]. intros text (res' & [= <-] & Hok & _). congruence.
Qed.

Lemma answers_unique url t t' :
  answers fetch url t -> answers fetch url t' -> t = t'.
Proof.
  intros (res & Hf & _ & Ht & _) (res' & Hf' & _ & Ht' & _). congruence.
Qed.

Lemma firstCsv_head url rest text :
  answers fetch url text -> firstCsv fetch (url :: rest) = Some text.
Proof.
  intros Ha. destruct (attempt_cases url rest) as [(t & Ht & ->) | [Hno _]].
  - f_equal. by eapply answers_unique.
  - by destruct (Hno text).
Qed.

Lemma firstCsv_Some urls : forall text,
  firstCsv fetch urls = Some text <->
  exists i url, urls !! i = Some url /\ answers fetch url text /\
    forall j u, (j < i)%nat -> urls !! j = Some u ->
      forall t, ~ answers fetch u t.
Proof.
  induction urls as [| url rest IH]; intros text.
  - split; [done |]. by intros (i & u & Hi & _).
  - destruct (attempt_cases url rest) as [(t & Ha & ->) | [Hno ->]].
    + split.
      * intros [= ->]. exists 0%nat, url. split; [done |]. split; [done |].
        intros j u Hj. lia.
      * intros (i & u & Hi & Hu & Hbefore). destruct i as [| i].
        -- simpl in Hi. injection Hi as <-. f_equal. by eapply answers_unique.
        -- exfalso. by apply (Hbefore 0%nat url ltac:(lia) eq_refl t).
    + rewrite IH. split.
      * intros (i & u & Hi & Hu & Hbefore). exists (S i), u.
        split; [done |]. split; [done |].
        intros [| j] u' Hj Hu'.
        -- simpl in Hu'. injection Hu' as <-. apply Hno.
        -- apply (Hbefore j u'); [lia | done].
      * intros (i & u & Hi & Hu & Hbefore). destruct i as [| i].
        -- simpl in Hi. injection Hi as <-. by destruct (Hno text).
        -- exists i, u. split; [done |]. split; [done |].
           intros j u' Hj Hu'. apply (Hbefore (S j) u'); [lia | done].
Qed.

Lemma firstCsv_None urls :
  firstCsv fetch urls = None <->
  forall u, u ∈ urls -> forall t, ~ answers fetch u t.
Proof.
  induction urls as [| url rest IH].
  - split; [| done]. by intros _ u ?%elem_of_nil.
  - destruct (attempt_cases url rest) as [(t & Ha & ->) | [Hno ->]].
    + split; [done |]. intros Hall. destruct (Hall url ltac:(left) t Ha).
    + rewrite IH. split.
      * intros Hall u [-> | Hin]%elem_of_cons; [done | by apply Hall].
      * intros Hall u Hin. apply Hall. by right.
Qed.

End FirstCsv.

(** X26.  [tryFetchCsv] returns the text of the first address, in the
    order tried, that answers with a success and a text holding a comma
    or a line feed; it returns nothing exactly when no address does.  So
    a text it returns always holds a comma or a line feed, and nothing
    else is asked of it. *)
Theorem tryFetchCsv_first_answer
    (fetch : string -> external Published.TextResponse)
    (spreadsheetId : string) (gid : option string) (sheetName : string) :
  let urls := Published.tryUrls spreadsheetId gid sheetName in
  (forall text,
     Published.tryFetchCsv fetch spreadsheetId gid sheetName = Some text <->
     exists i url, urls !! i = Some url /\ Published.answers fetch url text /\
       forall j u, (j < i)%nat -> urls !! j = Some u ->
         forall t, ~ Published.answers fetch u t) /\
  (Published.tryFetchCsv fetch spreadsheetId gid sheetName = None <->
   forall u, u ∈ urls -> forall t, ~ Published.answers fetch u t) /\
  (forall text,
     Published.tryFetchCsv fetch spreadsheetId gid sheetName = Some text ->
     Published.hasChar Csv.comma text = true \/
     Published.hasChar Csv.LF text = true).
Proof.
  cbv zeta. unfold Published.tryFetchCsv.
  split; [intros text; apply firstCsv_Some |].
  split; [apply firstCsv_None |].
  intros text (i & url & _ & (res & _ & _ & _ & Hl) & _)%firstCsv_Some.
  unfold Published.looksLikeCsv in Hl.
  apply andb_prop in Hl as [_ Hl]. by apply orb_prop in Hl.
Qed.

(** X27.  With a [gid] in the request, the export of that one tab is
    tried first and its address does not name the sheet: when it answers,
    every one of the four tabs is read from that same text. *)
Theorem gid_export_feeds_every_tab
    (fetch : string -> external Published.TextResponse)
    (spreadsheetId : string) (gid : option string) (text : string) :
  Fetch.truthyStr gid = true ->
  Published.answers fetch (Published.gidUrl spreadsheetId gid) text ->
  forall sheetName,
    Published.tryFetchCsv fetch spreadsheetId gid sheetName = Some text.
Proof.
  intros Hg Ha sheetName. unfold Published.tryFetchCsv, Published.tryUrls.
  rewrite Hg. by apply firstCsv_head.
Qed.

Lemma gid_export_feeds_every_tab_witness :
  Published.tryFetchCsv PublishedSamples.gidOnly "abc" (Some "0") "Clients"
  = Some "name,hired".
Proof.
  apply (gid_export_feeds_every_tab PublishedSamples.gidOnly "abc" (Some "0")
           "name,hired").
  - reflexivity.
  - exists {| Published.t_ok := true; Published.t_text := inr "name,hired" |}.
    repeat split; reflexivity.
Defined.

(** ** The published export: typing a tab *)

Section RowsType.
Import Js Sheets Csv CsvFacts Published.

Lemma has_ext header header' keys :
  (forall k, k ∈ keys -> (k ∈ header <-> k ∈ header')) ->
  has header keys = has header' keys.
Proof.
  intros Hk. destruct (has header' keys) eqn:E.
  - apply has_true in E as (k & Hin & Hh). apply has_true.
    exists k. split; [done | by apply Hk].
  - apply has_false. apply has_false in E. intros (k & Hin & Hh).
    apply E. exists k. split; [done | by apply Hk].
Qed.

Lemma elem_of_objectKeys (row : gmap string string) k :
  k ∈ objectKeys row <-> is_Some (row !! k).
Proof.
  unfold objectKeys. rewrite list_elem_of_fmap. split.
  - intros ([k' v] & -> & Hin). apply elem_of_map_to_list in Hin. by eexists.
  - intros [v Hv]. exists (k, v). split; [done |]. by apply elem_of_map_to_list.
Qed.

(** The normalised keys of a row are the normalised header names, up to
    the name [__proto__]. *)
Lemma normalised_keys header (row : gmap string string) k :
  (forall x, is_Some (row !! x) <-> (x ∈ header /\ x <> "__proto__")) ->
  k <> "__proto__" ->
  k ∈ map (fun h => toLowerCase (trim h)) (objectKeys row) <-> k ∈ normHeader header.
Proof.
  intros Hrow Hk. unfold normHeader. rewrite !list_elem_of_fmap. split.
  - intros (x & -> & Hx). apply elem_of_objectKeys, Hrow in Hx as [Hx _].
    by exists x.
  - intros (x & -> & Hx). exists x. split; [done |].
    apply elem_of_objectKeys, Hrow. split; [done |]. by intros ->.
Qed.

Lemma has_published_clientKeys header :
  "avgdaystofill" ∉ header -> "avg daystofill" ∉ header ->
  has header Published.clientKeysOfRows = has header Sheets.clientKeys.
Proof.
  intros H1 H2. unfold has, Published.clientKeysOfRows, Sheets.clientKeys. simpl.
  by rewrite (bool_decide_eq_false_2 _ H1), (bool_decide_eq_false_2 _ H2).
Qed.

End RowsType.

(** X28.  The two importers type a tab alike: for a CSV text with at least
    one data row whose header names neither [avgdaystofill] nor
    [avg daystofill], [inferRowsType] on its parsed rows gives what
    [inferType] gives on the same table delivered by the values API,
    whatever the data rows.  (The two names are where the keyword lists
    differ.) *)
Theorem inference_paths_agree (csv : string) (data : list (list string)) :
  (0 < length (Csv.parseCsvToObjects csv))%nat ->
  "avgdaystofill" ∉ Sheets.normHeader (CsvFacts.headerOf csv) ->
  "avg daystofill" ∉ Sheets.normHeader (CsvFacts.headerOf csv) ->
  Published.inferRowsType (Csv.parseCsvToObjects csv)
  = Sheets.inferType (Some (Published.asResponse csv data)).
Proof.
  intros Hlen H1 H2.
  destruct (Csv.parseCsvToObjects csv) as [| row rows] eqn:Ep; [simpl in Hlen; lia |].
  assert (Hrow : forall x, is_Some (row !! x)
                   <-> (x ∈ CsvFacts.headerOf csv /\ x <> "__proto__")).
  { revert Ep. unfold Csv.parseCsvToObjects, CsvFacts.headerOf.
    destruct (Csv.splitLines csv) as [| l0 ls]; [done |].
    intros Ep. eapply rowsOf_keys. rewrite Ep. by left. }
  unfold Published.asResponse, Sheets.inferType, Sheets.inferHeader,
    Published.inferRowsType.
  assert (Hk : forall keys, "__proto__" ∉ keys ->
            Sheets.has (map (fun h => Js.toLowerCase (Js.trim h))
                            (Published.objectKeys row)) keys
            = Sheets.has (Sheets.normHeader (CsvFacts.headerOf csv)) keys).
  { intros keys Hp. apply has_ext. intros k Hin.
    apply normalised_keys; [done |]. by intros ->. }
  rewrite !Hk by (apply (bool_decide_unpack _); vm_compute; exact I).
  by rewrite has_published_clientKeys.
Qed.

Lemma inference_paths_agree_witness :
  Published.inferRowsType
    (Csv.parseCsvToObjects PublishedSamples.clientsCsv)
  = Sheets.inferType
      (Some (Published.asResponse PublishedSamples.clientsCsv [["Acme"; "Tech"]])).
Proof.
  apply (inference_paths_agree PublishedSamples.clientsCsv [["Acme"; "Tech"]]).
  - vm_compute. lia.
  - apply (bool_decide_unpack _). vm_compute. exact I.
  - apply (bool_decide_unpack _). vm_compute. exact I.
Defined.

(** ** The CSV parser of the client *)

Section ClientParser.
Import Js Csv CsvFacts.

Lemma client_scanLines_unquoted csv : forall cur q lines,
  noQuote csv = true ->
  ClientCsv.scanLines csv cur q lines = Csv.scanLines csv cur q lines.
Proof.
  unfold noQuote. induction csv as [| c csv IH]; intros cur q lines Hq; [done |].
  simpl in Hq. apply andb_prop in Hq as [Hc Hq]. apply negb_true_iff in Hc.
  simpl. rewrite Hc.
  destruct (Ascii.eqb c CR); [by apply IH |].
  destruct (Ascii.eqb c LF && negb q); by apply IH.
Qed.

Lemma client_scanLines_kept u : forall rest cur q lines,
  allChars (keptByLines q) u = true ->
  ClientCsv.scanLines (u +:+ rest) cur q lines
  = ClientCsv.scanLines rest (cur +:+ u) q lines.
Proof.
  induction u as [| c u IH]; intros rest cur q lines Hu.
  - by rewrite app_nil_r_s.
  - simpl in Hu. apply andb_prop in Hu as [Hc Hu].
    unfold keptByLines in Hc.
    apply andb_prop in Hc as [[Hq Hcr]%andb_prop Hlf].
    apply negb_true_iff in Hq, Hcr.
    simpl. rewrite Hq, Hcr.
    replace (Ascii.eqb c LF && negb q) with false
      by (destruct (Ascii.eqb c LF), q; done).
    rewrite IH by done. by rewrite snoc_app.
Qed.

(** A quote that no quote follows switches the state and is dropped. *)
Lemma client_scanLines_quote rest cur q lines :
  startsWithQuote rest = false ->
  ClientCsv.scanLines (String dquote rest) cur q lines
  = ClientCsv.scanLines rest cur (negb q) lines.
Proof.
  intros Hr. simpl. destruct rest as [| c r]; [done |].
  simpl in Hr. by rewrite Hr.
Qed.

Lemma trimStart_nonblank s :
  allChars isWhiteSpace s = false -> allChars isWhiteSpace (trimStart s) = false.
Proof.
  induction s as [| c s IH]; [done |]. simpl.
  destruct (isWhiteSpace c) eqn:E; simpl; [done |]. by rewrite E.
Qed.

Lemma trimEnd_nonblank s :
  allChars isWhiteSpace s = false -> isEmpty (trimEnd s) = false.
Proof.
  induction s as [| c s IH]; [done |]. simpl.
  destruct (isWhiteSpace c) eqn:E; simpl; [| done].
  intros Hs. by rewrite (IH Hs).
Qed.

Lemma trim_nonblank s :
  allChars isWhiteSpace s = false -> isEmpty (trim s) = false.
Proof. intros H. by apply trimEnd_nonblank, trimStart_nonblank. Qed.

Lemma splitOn_none p s : forall cur,
  allChars (fun c => negb (p c)) s = true ->
  Sheets.splitOn p s cur = [cur +:+ s].
Proof.
  induction s as [| c s IH]; intros cur Hs; simpl.
  - by rewrite app_nil_r_s.
  - simpl in Hs. apply andb_prop in Hs as [Hc Hs]. apply negb_true_iff in Hc.
    rewrite Hc, IH by done. by rewrite snoc_app.
Qed.

Lemma splitOn_first p a c b : forall cur,
  allChars (fun c => negb (p c)) a = true -> p c = true ->
  Sheets.splitOn p (a +:+ String c b) cur = (cur +:+ a) :: Sheets.splitOn p b "".
Proof.
  induction a as [| x a IH]; intros cur Ha Hc; simpl.
  - by rewrite Hc, app_nil_r_s.
  - simpl in Ha. apply andb_prop in Ha as [Hx Ha]. apply negb_true_iff in Hx.
    rewrite Hx, IH by done. by rewrite snoc_app.
Qed.

Lemma splitCsv_noQuote line :
  noQuote line = true ->
  splitCsv line = map trim (Sheets.splitOn isComma line "").
Proof.
  intros Hq. unfold splitCsv. rewrite scanCols_unquoted by done. simpl.
  apply map_ext_in. intros piece Hin. f_equal.
  apply stripQuotes_noQuote. apply list_elem_of_In in Hin.
  by apply (splitOn_allChars _ isComma line "").
Qed.

Lemma plainChars_noQuote s :
  allChars ClientCsv.isPlainChar s = true -> noQuote s = true.
Proof.
  apply allChars_impl. intros c. unfold ClientCsv.isPlainChar.
  by destruct (Ascii.eqb c dquote).
Qed.

Lemma plainChars_noComma s :
  allChars ClientCsv.isPlainChar s = true ->
  allChars (fun c => negb (isComma c)) s = true.
Proof.
  apply allChars_impl. intros c. unfold ClientCsv.isPlainChar, isComma.
  destruct (Ascii.eqb c dquote), (Ascii.eqb c CR), (Ascii.eqb c LF),
    (Ascii.eqb c comma); done.
Qed.

Lemma plainChars_unquoted s :
  allChars ClientCsv.isPlainChar s = true -> needsQuotes s = false.
Proof.
  intros H. unfold needsQuotes. apply negb_false_iff. revert H.
  apply allChars_impl. intros c. unfold ClientCsv.isPlainChar.
  destruct (Ascii.eqb c dquote), (Ascii.eqb c CR), (Ascii.eqb c LF),
    (Ascii.eqb c comma); done.
Qed.

Lemma textChars_noQuote s :
  allChars ClientCsv.isTextChar s = true -> noQuote s = true.
Proof.
  apply allChars_impl. intros c. unfold ClientCsv.isTextChar.
  by destruct (Ascii.eqb c dquote).
Qed.

(** The lines the client reads from a header of one plain name and one
    quoted value. *)
Lemma client_splitLines_quoted h v :
  allChars ClientCsv.isPlainChar h = true ->
  allChars ClientCsv.isTextChar v = true -> v <> "" ->
  ClientCsv.splitLines (h +:+ String CR (String LF
                          (String dquote v +:+ String dquote ""))) = [h; v].
Proof.
  intros Hh Hv Hne. unfold ClientCsv.splitLines.
  rewrite client_scanLines_kept
    by (revert Hh; apply allChars_impl; intros c; unfold ClientCsv.isPlainChar,
          keptByLines; destruct (Ascii.eqb c dquote), (Ascii.eqb c CR),
          (Ascii.eqb c LF); done).
  simpl ClientCsv.scanLines at 1.
  change (Ascii.eqb CR dquote) with false. change (Ascii.eqb CR CR) with true.
  cbv iota.
  change (Ascii.eqb LF dquote) with false. change (Ascii.eqb LF CR) with false.
  change (Ascii.eqb LF LF && negb false) with true. cbv iota.
  destruct v as [| c v]; [done |].
  assert (Hc : Ascii.eqb c dquote = false).
  { simpl in Hv. apply andb_prop in Hv as [Hc _].
    unfold ClientCsv.isTextChar in Hc. by destruct (Ascii.eqb c dquote). }
  cbn [String.append]. rewrite Hc.
  change (String c (v +:+ String dquote "")) with (String c v +:+ String dquote "").
  rewrite client_scanLines_kept
    by (revert Hv; apply allChars_impl; intros x; unfold ClientCsv.isTextChar,
          keptByLines; destruct (Ascii.eqb x dquote), (Ascii.eqb x CR),
          (Ascii.eqb x LF); done).
  done.
Qed.

End ClientParser.

(** X29.  On a text without double quotes the parser of the client and the
    parser of the server give the same rows. *)
Theorem parsers_agree_without_quotes (csv : string) :
  CsvFacts.noQuote csv = true ->
  ClientCsv.parseCsvToObjects csv = Csv.parseCsvToObjects csv.
Proof.
  intros Hq. unfold ClientCsv.parseCsvToObjects, Csv.parseCsvToObjects,
    ClientCsv.splitLines, Csv.splitLines.
  by rewrite client_scanLines_unquoted.
Qed.

Lemma parsers_agree_without_quotes_witness :
  ClientCsv.parseCsvToObjects PublishedSamples.clientsCsv
  = Csv.parseCsvToObjects PublishedSamples.clientsCsv.
Proof.
  apply (parsers_agree_without_quotes PublishedSamples.clientsCsv).
  vm_compute. reflexivity.
Defined.

(** X30.  The client's parser does not honour a quoted comma.  For the
    serialization of one column named [h] and one value [a,b] (the value
    quoted as RFC 4180 asks, since it holds a comma), with no quote or
    line break in [h], [a], [b] and no comma in [h] and [a], the client
    reads one row whose value under [h] is [a] trimmed: the value is cut
    at its first comma. *)
Theorem client_parser_cuts_quoted_value (h a b : string) :
  Js.allChars ClientCsv.isPlainChar h = true -> Js.trim h = h ->
  h <> "__proto__" ->
  Js.allChars ClientCsv.isPlainChar a = true ->
  Js.allChars ClientCsv.isTextChar b = true ->
  ClientCsv.parseCsvToObjects
    (Csv.serializeAsCsv [h] [a +:+ String Csv.comma b])
  = [ {[ h := Js.trim a ]} ].
Proof.
  intros Hh Hth Hp Ha Hb.
  set (v := a +:+ String Csv.comma b).
  assert (Hv : Js.allChars ClientCsv.isTextChar v = true).
  { assert (Hta : Js.allChars ClientCsv.isTextChar a = true).
    { revert Ha. apply allChars_impl. intros c.
      unfold ClientCsv.isPlainChar, ClientCsv.isTextChar.
      by destruct (Ascii.eqb c Csv.comma), (Ascii.eqb c Csv.dquote),
        (Ascii.eqb c Csv.CR), (Ascii.eqb c Csv.LF). }
    unfold v. rewrite allChars_app, Hta. simpl. by rewrite Hb. }
  assert (Hvq : Csv.needsQuotes v = true).
  { unfold Csv.needsQuotes, v. rewrite allChars_app. simpl.
    by rewrite andb_false_r. }
  assert (Hvne : v <> "") by (unfold v; by destruct a).
  assert (Hvd : Csv.doubleQuotes v = v).
  { apply doubleQuotes_plain. revert Hv. apply allChars_impl.
    intros c. unfold ClientCsv.isTextChar.
    by destruct (Ascii.eqb c Csv.dquote), (Ascii.eqb c Csv.CR). }
  unfold ClientCsv.parseCsvToObjects, Csv.serializeAsCsv. simpl Csv.serializeRecord.
  unfold Csv.quoteField. rewrite (plainChars_unquoted h Hh), Hvq, Hvd.
  rewrite client_splitLines_quoted by done.
  rewrite (splitCsv_noQuote h) by (by apply plainChars_noQuote).
  rewrite splitOn_none by (by apply plainChars_noComma).
  simpl map. simpl String.append. rewrite !Hth.
  assert (Hblank : Js.isEmpty (Js.trim v) = false).
  { apply trim_nonblank. unfold v. rewrite allChars_app. simpl.
    change (Js.isWhiteSpace Csv.comma) with false. by rewrite andb_false_r. }
  simpl Csv.rowsOf. rewrite Hblank.
  rewrite (splitCsv_noQuote v) by (by apply textChars_noQuote).
  unfold v. rewrite splitOn_first by (by apply plainChars_noComma || done).
  simpl. unfold Js.setProp.
  apply String.eqb_neq in Hp. rewrite Hp. by rewrite insert_empty.
Qed.

Lemma client_parser_cuts_quoted_value_witness :
  ClientCsv.parseCsvToObjects
    (Csv.serializeAsCsv ["city"] ["Paris" +:+ String Csv.comma " France"])
  = [ {[ "city" := Js.trim "Paris" ]} ].
Proof.
  apply (client_parser_cuts_quoted_value "city" "Paris" " France").
  - reflexivity.
  - reflexivity.
  - discriminate.
  - reflexivity.
  - reflexivity.
Defined.
